(** * Odyssey storybook: gesture pipeline, streaming session and boundaries

    A shallow embedding of the orchestration code of the storybook client
    (the [App] component: dispatch, debounce, rate governor, switching the
    capture loop off, slide-change sequence), of [loadImageFile]
    (src/lib/odyssey.ts) and of
    the two server-side boundaries (transcription and gesture
    classification), followed by the properties of the specification.

    Conventions.
    - Time stamps ([Date.now()], timer deadlines) are integers ([Z],
      milliseconds).
    - A JavaScript string is the list of its UTF-16 code units.
    - A [useRef] cell and a [useState] cell are fields of the store; a
      handler reads the React state of the render it was created in, which
      is passed to it as a [View].
    - An asynchronous function is split at its [await]s: the part before
      and the continuation that the event loop resumes with the outcome. *)

From Stdlib Require Import ZArith NArith List Bool Lia.
From Stdlib Require Import Ascii String DecimalString.
Import ListNotations.
Open Scope Z_scope.

(* ================================================================== *)
(** ** JavaScript strings *)

Module Js.

(** A string as its UTF-16 code units. *)
Definition str := list N.

(** The code units of an ASCII literal. *)
Fixpoint lit (s : string) : str :=
  match s with
  | EmptyString => []
  | String c r => N_of_ascii c :: lit r
  end.
Arguments lit s%_string.

(** The decimal rendering of an integer, as a template literal prints it. *)
Definition ofZ (z : Z) : str := lit (NilZero.string_of_int (Z.to_int z)).

(** [(size / (1024 * 1024)).toFixed(2)] for a byte count: the quotient is
    exact in binary floating point, and [toFixed] rounds its exact value
    to the nearest hundredth, the larger one on a tie. *)
Definition megabytesToFixed2 (size : Z) : str :=
  let n := (size * 200 + 1048576) / 2097152 in
  ofZ (n / 100) ++ lit "." ++ ofZ (n mod 100 / 10) ++ ofZ (n mod 10).

Fixpoint eqb (a b : str) : bool :=
  match a, b with
  | [], [] => true
  | x :: a', y :: b' => N.eqb x y && eqb a' b'
  | _, _ => false
  end.

(** [s1 === s2] on strings. *)
Definition mem (s : str) (l : list str) : bool := existsb (eqb s) l.

(** WhiteSpace and LineTerminator code points of ECMAScript, the ones
    [String.prototype.trim] strips. *)
Definition isWhiteSpace (c : N) : bool :=
  (N.leb 9 c && N.leb c 13)            (* TAB LF VT FF CR *)
  || N.eqb c 32 || N.eqb c 160         (* SP, NBSP *)
  || N.eqb c 5760                      (* U+1680 *)
  || (N.leb 8192 c && N.leb c 8202)    (* U+2000 .. U+200A *)
  || N.eqb c 8232 || N.eqb c 8233      (* LS, PS *)
  || N.eqb c 8239 || N.eqb c 8287      (* U+202F, U+205F *)
  || N.eqb c 12288 || N.eqb c 65279.   (* U+3000, BOM *)

Fixpoint trimStart (s : str) : str :=
  match s with
  | [] => []
  | c :: r => if isWhiteSpace c then trimStart r else s
  end.

Definition trimEnd (s : str) : str := rev (trimStart (rev s)).

(** [s.trim()] *)
Definition trim (s : str) : str := trimEnd (trimStart s).

(** Truthiness of a string: the empty string is falsy. *)
Definition truthy (s : str) : bool :=
  match s with [] => false | _ :: _ => true end.

(** A string of whitespace only (the empty string included). *)
Definition blank (s : str) : bool := forallb isWhiteSpace s.

(** A value a handler may receive where the types promise a string:
    [undefined], a string, or some other object (a function, say). *)
Inductive value :=
| Undefined
| Str (s : str)
| Obj.

Definition valueTruthy (x : value) : bool :=
  match x with
  | Undefined => false
  | Str s => truthy s
  | Obj => true
  end.

(** [x ?? d] *)
Definition nullish (x : value) (d : value) : value :=
  match x with
  | Undefined => d
  | _ => x
  end.

(** Truthiness of a handle ([number | null]): [null] and [0] are falsy. *)
Definition handleTruthy (h : option Z) : bool :=
  match h with
  | Some n => negb (n =? 0)
  | None => false
  end.

(** What a [catch] receives: an [Error] with its message, or any other
    thrown value with its [String(err)] rendering. *)
Inductive thrown :=
| ErrorObject (message : str)
| OtherValue (rendering : str).

(** [err instanceof Error ? err.message : String(err)] *)
Definition describe (err : thrown) : str :=
  match err with
  | ErrorObject m => m
  | OtherValue r => r
  end.

End Js.


(* ================================================================== *)
(** ** src/lib/odyssey.ts: [loadImageFile] *)

Module Odyssey.

Definition MAX_IMAGE_BYTES : Z := 25 * 1024 * 1024.

Record Blob := mkBlob {
  blobBytes : list Byte.byte;
  blobType : Js.str
}.

(** [blob.size] *)
Definition blobSize (b : Blob) : Z := Z.of_nat (List.length (blobBytes b)).

Record File := mkFile {
  fileBytes : list Byte.byte;
  fileName : Js.str;
  fileType : Js.str
}.

(** An HTTP response as [fetch] resolves it; [blobRead] is what
    [response.blob()] settles to. *)
Record HttpResponse := mkHttpResponse {
  httpStatus : Z;
  httpStatusText : Js.str;
  blobRead : Js.thrown + Blob
}.

(** [response.ok]: a status in the range 200-299. *)
Definition responseOk (status : Z) : bool :=
  (200 <=? status) && (status <=? 299).

(** What [fetch(url)] settles to. *)
Inductive Fetched :=
| FetchRejected (err : Js.thrown)
| FetchResolved (response : HttpResponse).

(** [loadImageFile(url, name = 'slide-image')], as a function of what
    the fetch of [url] settles to: [inl] is the thrown error. *)
Definition loadImageFile (fetched : Fetched) (name : option Js.str)
  : Js.thrown + File :=
  let name := match name with Some n => n | None => Js.lit "slide-image" end in
  match fetched with
  | FetchRejected err => inl err
  | FetchResolved response =>
      if negb (responseOk (httpStatus response)) then
        inl (Js.ErrorObject
               (Js.lit "Failed to load image: "
                  ++ Js.ofZ (httpStatus response) ++ Js.lit " "
                  ++ httpStatusText response))
      else
        match blobRead response with
        | inl err => inl err
        | inr blob =>
            if MAX_IMAGE_BYTES <? blobSize blob then
              inl (Js.ErrorObject
                     (Js.lit "Image is too large ("
                        ++ Js.megabytesToFixed2 (blobSize blob)
                        ++ Js.lit " MB). Max is 25 MB."))
            else
              let type :=
                if Js.truthy (blobType blob) then blobType blob
                else Js.lit "image/png" in
              inr (mkFile (blobBytes blob) name type)
        end
  end.

End Odyssey.

(* ================================================================== *)
(** ** The [App] component: data *)

Module ConnectionStatus.
Inductive t :=
  authenticating | connecting | reconnecting | connected | disconnected | failed.
Definition eqb (a b : t) : bool :=
  match a, b with
  | authenticating, authenticating | connecting, connecting
  | reconnecting, reconnecting | connected, connected
  | disconnected, disconnected | failed, failed => true
  | _, _ => false
  end.
End ConnectionStatus.

Module StreamState.
Inductive t := idle | starting | streaming | ended | error.
End StreamState.

Module App.

Definition GESTURE_DELAY_MS : Z := 1200.
Definition GEMINI_GESTURE_COOLDOWN_MS : Z := 8000.
Definition VISION_POLL_MS : Z := 1200.

(** [interface Slide], the fields the component's logic reads. *)
Record Slide := mkSlide {
  id : Js.str;
  image : Js.str;
  prompt : Js.str;
  cta : Js.str
}.

(** [type GestureLabel] *)
Definition hello : Js.str := Js.lit "hello".
Definition thumbs_up : Js.str := Js.lit "thumbs_up".
Definition victory : Js.str := Js.lit "victory".
Definition namaste : Js.str := Js.lit "namaste".
Definition GestureLabel : list Js.str := [hello; thumbs_up; victory; namaste].

(** The properties every object literal inherits from [Object.prototype]. *)
Definition Object_prototype : list Js.str :=
  [ Js.lit "constructor"; Js.lit "__defineGetter__"; Js.lit "__defineSetter__";
    Js.lit "hasOwnProperty"; Js.lit "__lookupGetter__"; Js.lit "__lookupSetter__";
    Js.lit "isPrototypeOf"; Js.lit "propertyIsEnumerable"; Js.lit "toString";
    Js.lit "valueOf"; Js.lit "__proto__"; Js.lit "toLocaleString" ].

(** [GESTURE_PROMPTS[label]]: the object's own four properties, then the
    inherited ones (functions and objects, never strings). *)
Definition GESTURE_PROMPTS (label : Js.str) : Js.value :=
  if Js.eqb label hello then Js.Str (Js.lit "do hello")
  else if Js.eqb label thumbs_up then Js.Str (Js.lit "do thumbs up")
  else if Js.eqb label victory then Js.Str (Js.lit "do victory sign")
  else if Js.eqb label namaste then Js.Str (Js.lit "do namaste")
  else if Js.mem label Object_prototype then Js.Obj
  else Js.Undefined.

(** The React state a handler closes over: the values of the render in
    which the handler was created. *)
Record View := mkView {
  seenStreamingReady : bool;      (* isStreamingReady *)
  seenSlide : Slide               (* slide *)
}.

(** Calls that leave the component: to the streaming service and to
    [fetch]. *)
Inductive Call :=
| Connect
| Disconnect
| EndStream
| FetchImage (url : Js.str)
| StartStream (prompt : Js.str) (image : Odyssey.File)
| Interact (prompt : Js.str)
| FetchGestureVision (dataUrl : Js.str).

(** Session: [serviceRef], [requestIdRef] and the state cells
    [connectionStatus], [streamState], [isStreamingReady], [error]. *)
Record Session := mkSession {
  serviceRef : bool;              (* an OdysseyService has been created *)
  requestIdRef : Z;
  connectionStatus : ConnectionStatus.t;
  streamState : StreamState.t;
  isStreamingReady : bool;
  error : option Js.str
}.

(** Rate governor: [lastGeminiAtRef], [visionInFlightRef],
    [visionRetryAtRef]. *)
Record Governor := mkGovernor {
  lastGeminiAtRef : Z;
  visionInFlightRef : bool;
  visionRetryAtRef : Z
}.

(** Debounce: [pendingGestureRef], [pendingTimerRef]. *)
Record Debounce := mkDebounce {
  pendingGestureRef : option Js.str;
  pendingTimerRef : option Z
}.

(** Capture: [detectFrameRef], the camera element behind [cameraRef]
    ([None]: not mounted) with its [srcObject] (a stream is the list of
    its tracks), [lastCaptureAtRef], and the state cells
    [gesturesEnabled], [gestureStatus], [gestureLatency]. *)
Record Capture := mkCapture {
  detectFrameRef : option Z;
  cameraRef : option (option (list Z));
  lastCaptureAtRef : Z;
  gesturesEnabled : bool;
  gestureStatus : Js.str;
  gestureLatency : option Z
}.

(** A timeout armed by [window.setTimeout] in [scheduleGesturePrompt]:
    its handle, when it is due, and what its callback closes over. *)
Record Timeout := mkTimeout {
  handle : Z;
  due : Z;
  armedLabel : Js.str;
  armedView : View
}.

(** The browser: armed timeouts, requested animation frames (by
    handle), media tracks that are live. *)
Record Window := mkWindow {
  timeouts : list Timeout;
  nextTimeout : Z;
  frames : list Z;
  nextFrame : Z;
  liveTracks : list Z
}.

Record Store := mkStore {
  session : Session;
  governor : Governor;
  debounce : Debounce;
  capture : Capture;
  window : Window;
  calls : list Call
}.

Definition withSession (x : Session) (st : Store) : Store :=
  mkStore x (governor st) (debounce st) (capture st) (window st) (calls st).
Definition withGovernor (x : Governor) (st : Store) : Store :=
  mkStore (session st) x (debounce st) (capture st) (window st) (calls st).
Definition withDebounce (x : Debounce) (st : Store) : Store :=
  mkStore (session st) (governor st) x (capture st) (window st) (calls st).
Definition withCapture (x : Capture) (st : Store) : Store :=
  mkStore (session st) (governor st) (debounce st) x (window st) (calls st).
Definition withWindow (x : Window) (st : Store) : Store :=
  mkStore (session st) (governor st) (debounce st) (capture st) x (calls st).

(** An outbound call is appended to the log. *)
Definition call (c : Call) (st : Store) : Store :=
  mkStore (session st) (governor st) (debounce st) (capture st) (window st)
          (calls st ++ [c]).

(** The state setters. *)
Definition setConnectionStatus (x : ConnectionStatus.t) (st : Store) : Store :=
  let s := session st in
  withSession (mkSession (serviceRef s) (requestIdRef s) x (streamState s)
                         (isStreamingReady s) (error s)) st.
Definition setStreamState (x : StreamState.t) (st : Store) : Store :=
  let s := session st in
  withSession (mkSession (serviceRef s) (requestIdRef s) (connectionStatus s) x
                         (isStreamingReady s) (error s)) st.
Definition setIsStreamingReady (x : bool) (st : Store) : Store :=
  let s := session st in
  withSession (mkSession (serviceRef s) (requestIdRef s) (connectionStatus s)
                         (streamState s) x (error s)) st.
Definition setError (x : option Js.str) (st : Store) : Store :=
  let s := session st in
  withSession (mkSession (serviceRef s) (requestIdRef s) (connectionStatus s)
                         (streamState s) (isStreamingReady s) x) st.
Definition setRequestId (x : Z) (st : Store) : Store :=
  let s := session st in
  withSession (mkSession (serviceRef s) x (connectionStatus s)
                         (streamState s) (isStreamingReady s) (error s)) st.
Definition setGesturesEnabled (x : bool) (st : Store) : Store :=
  let c := capture st in
  withCapture (mkCapture (detectFrameRef c) (cameraRef c) (lastCaptureAtRef c)
                         x (gestureStatus c) (gestureLatency c)) st.
Definition setGestureStatus (x : Js.str) (st : Store) : Store :=
  let c := capture st in
  withCapture (mkCapture (detectFrameRef c) (cameraRef c) (lastCaptureAtRef c)
                         (gesturesEnabled c) x (gestureLatency c)) st.
Definition setGestureLatency (x : option Z) (st : Store) : Store :=
  let c := capture st in
  withCapture (mkCapture (detectFrameRef c) (cameraRef c) (lastCaptureAtRef c)
                         (gesturesEnabled c) (gestureStatus c) x) st.
Definition setDetectFrame (x : option Z) (st : Store) : Store :=
  let c := capture st in
  withCapture (mkCapture x (cameraRef c) (lastCaptureAtRef c)
                         (gesturesEnabled c) (gestureStatus c) (gestureLatency c)) st.
Definition setCamera (x : option (option (list Z))) (st : Store) : Store :=
  let c := capture st in
  withCapture (mkCapture (detectFrameRef c) x (lastCaptureAtRef c)
                         (gesturesEnabled c) (gestureStatus c) (gestureLatency c)) st.
Definition setPendingGesture (x : option Js.str) (st : Store) : Store :=
  withDebounce (mkDebounce x (pendingTimerRef (debounce st))) st.
Definition setPendingTimer (x : option Z) (st : Store) : Store :=
  withDebounce (mkDebounce (pendingGestureRef (debounce st)) x) st.

(** The view of the latest render: the handlers behind the buttons read
    the current state. *)
Definition viewOf (slide : Slide) (st : Store) : View :=
  mkView (isStreamingReady (session st)) slide.

(** The component when it mounts (no API key yet). *)
Definition mounted : Store :=
  mkStore
    (mkSession false 0 ConnectionStatus.disconnected StreamState.idle false None)
    (mkGovernor 0 false 0)
    (mkDebounce None None)
    (mkCapture None (Some None) 0 false [] None)
    (mkWindow [] 1 [] 1 [])
    [].

(* ------------------------------------------------------------------ *)
(** *** Session: connection, stream callbacks, slide change *)

(** The effect on [apiKey]: without a key an error is shown; with one,
    the service is created and [connect] is called with the handlers
    below. *)
Definition connectEffect (apiKey : option Js.str) (st : Store) : Store :=
  match apiKey with
  | Some (_ :: _) =>
      let s := session st in
      call Connect
        (withSession (mkSession true (requestIdRef s) (connectionStatus s)
                                (streamState s) (isStreamingReady s) (error s)) st)
  | _ =>
      setError (Some (Js.lit "Missing Odyssey API key. Add it in the overlay or set VITE_ODYSSEY_API_KEY in .env.")) st
  end.

Definition onStatusChange (status : ConnectionStatus.t) (st : Store) : Store :=
  setConnectionStatus status st.

Definition onStreamStarted (st : Store) : Store :=
  setIsStreamingReady true (setStreamState StreamState.streaming st).

Definition onStreamEnded (st : Store) : Store :=
  setIsStreamingReady false (setStreamState StreamState.ended st).

Definition onStreamError (reason message : Js.str) (st : Store) : Store :=
  setError (Some (reason ++ Js.lit ": " ++ message))
    (setIsStreamingReady false (setStreamState StreamState.error st)).

Definition onError (message : Js.str) (st : Store) : Store :=
  setError (Some message)
    (setIsStreamingReady false (setStreamState StreamState.error st)).

(** [connect(...).catch] *)
Definition connectRejected (err : Js.thrown) (st : Store) : Store :=
  setError (Some (Js.describe err)) (setStreamState StreamState.error st).

(** Where the asynchronous [run] of a slide change is suspended. *)
Inductive Phase :=
| AwaitEndStream       (* await service.endStream().catch(...) *)
| AwaitLoadImage       (* await loadImageFile(...) *)
| AwaitStartStream.    (* await service.startStream(...) *)

(** A suspended [run] with what it closes over: its request token and
    the slide. *)
Record Run := mkRun {
  requestId : Z;
  slide : Slide;
  phase : Phase
}.

(** The effect on [connectionStatus], [index] and the slide: mints the
    next request token and starts [run], which calls [endStream] and
    suspends. *)
Definition slideEffect (sl : Slide) (st : Store) : Store * option Run :=
  if negb (serviceRef (session st))
     || negb (ConnectionStatus.eqb (connectionStatus (session st))
                                   ConnectionStatus.connected)
  then (st, None)
  else
    let requestId := requestIdRef (session st) + 1 in
    let st := setRequestId requestId st in
    let st := setStreamState StreamState.starting st in
    let st := setIsStreamingReady false st in
    let st := setError None st in
    (call EndStream st, Some (mkRun requestId sl AwaitEndStream)).

(** [run().catch(...)]: the handler of whatever [run] throws. *)
Definition runRejected (k : Run) (err : Js.thrown) (st : Store) : Store :=
  if negb (requestIdRef (session st) =? requestId k) then st
  else
    let st := setStreamState StreamState.error st in
    let st := setIsStreamingReady false st in
    setError (Some (Js.describe err)) st.

(** What the awaited operation of a suspended [run] settles to. *)
Inductive Settled :=
| EndStreamSettled                              (* a rejection is swallowed *)
| ImageSettled (fetched : Odyssey.Fetched)
| StartStreamSettled (rejection : option Js.thrown).

(** The event loop resumes a suspended [run]: the store after it, and
    the run if it suspends again. *)
Definition resume (k : Run) (o : Settled) (st : Store) : Store * option Run :=
  match phase k, o with
  | AwaitEndStream, EndStreamSettled =>
      (call (FetchImage (image (slide k))) st,
       Some (mkRun (requestId k) (slide k) AwaitLoadImage))
  | AwaitLoadImage, ImageSettled fetched =>
      match Odyssey.loadImageFile fetched (Some (id (slide k) ++ Js.lit ".png")) with
      | inr file =>
          if negb (requestIdRef (session st) =? requestId k) then (st, None)
          else (call (StartStream (prompt (slide k)) file) st,
                Some (mkRun (requestId k) (slide k) AwaitStartStream))
      | inl err => (runRejected k err st, None)
      end
  | AwaitStartStream, StartStreamSettled None => (st, None)
  | AwaitStartStream, StartStreamSettled (Some err) => (runRejected k err st, None)
  | _, _ => (st, Some k)     (* not the operation this run awaits *)
  end.

(** A suspended run resumed through a series of settlements. *)
Fixpoint resumeAll (k : Run) (os : list Settled) (st : Store) : Store :=
  match os with
  | [] => st
  | o :: os' =>
      match resume k o st with
      | (st', Some k') => resumeAll k' os' st'
      | (st', None) => st'
      end
  end.

(* ------------------------------------------------------------------ *)
(** *** Dispatch: [handleInteract] *)

(** How a handler ends: normally, or by an uncaught [TypeError]. *)
Inductive Completion :=
| Normal (st : Store)
| TypeError (st : Store).

Definition storeOf (c : Completion) : Store :=
  match c with
  | Normal st | TypeError st => st
  end.

(** [handleInteract(promptOverride?)] of the render with view [v]. *)
Definition handleInteract (v : View) (promptOverride : Js.value) (st : Store)
  : Completion :=
  if negb (serviceRef (session st)) || negb (seenStreamingReady v) then Normal st
  else
    match Js.nullish promptOverride (Js.Str (cta (seenSlide v))) with
    | Js.Str p =>
        let prompt := Js.trim p in
        if negb (Js.truthy prompt) then Normal st
        else Normal (call (Interact prompt) st)
    | _ => TypeError st        (* no [trim] on a value that is not a string *)
    end.

(** [interact(prompt).catch(...)]: the forwarded call was rejected. *)
Definition interactRejected (err : Js.thrown) (st : Store) : Store :=
  setError (Some (Js.describe err)) st.

(* ------------------------------------------------------------------ *)
(** *** Debounce: [scheduleGesturePrompt] and its timer *)

(** [window.clearTimeout(h)] *)
Definition clearTimeout (h : Z) (st : Store) : Store :=
  let w := window st in
  withWindow (mkWindow (filter (fun t => negb (handle t =? h)) (timeouts w))
                       (nextTimeout w) (frames w) (nextFrame w) (liveTracks w)) st.

(** [window.setTimeout(callback, delay)] at time [now]: the new handle
    and the store with the timeout armed. *)
Definition setTimeout (v : View) (label : Js.str) (now delay : Z) (st : Store)
  : Z * Store :=
  let w := window st in
  let h := nextTimeout w in
  (h, withWindow (mkWindow (timeouts w ++ [mkTimeout h (now + delay) label v])
                           (h + 1) (frames w) (nextFrame w) (liveTracks w)) st).

(** [scheduleGesturePrompt(label)] at time [now]. *)
Definition scheduleGesturePrompt (v : View) (label : Js.str) (now : Z) (st : Store)
  : Store :=
  let st := setPendingGesture (Some label) st in
  let st :=
    if Js.handleTruthy (pendingTimerRef (debounce st)) then
      match pendingTimerRef (debounce st) with
      | Some h => clearTimeout h st
      | None => st
      end
    else st in
  let (h, st) := setTimeout v label now GESTURE_DELAY_MS st in
  setPendingTimer (Some h) st.

(** [pendingGestureRef.current !== label] *)
Definition pendingDiffers (pending : option Js.str) (label : Js.str) : bool :=
  match pending with
  | Some p => negb (Js.eqb p label)
  | None => true
  end.

(** The callback given to [setTimeout]. *)
Definition gestureTimerCallback (t : Timeout) (st : Store) : Completion :=
  let label := armedLabel t in
  if pendingDiffers (pendingGestureRef (debounce st)) label then Normal st
  else
    match handleInteract (armedView t) (GESTURE_PROMPTS label) st with
    | Normal st =>
        let st := setGestureStatus (Js.lit "Gesture: " ++ label) st in
        Normal (setPendingGesture None st)
    | TypeError st => TypeError st
    end.

(** The browser fires an armed timeout: it leaves the queue and its
    callback runs (the store is kept as an uncaught exception leaves
    it). *)
Definition fire (t : Timeout) (st : Store) : Store :=
  storeOf (gestureTimerCallback t (clearTimeout (handle t) st)).

(** The timeouts due at [now], in the order they were armed. *)
Definition dueAt (now : Z) (st : Store) : list Timeout :=
  filter (fun t => due t <=? now) (timeouts (window st)).

(** The clock reaches [now]: every timeout due by then fires. *)
Definition advanceTo (now : Z) (st : Store) : Store :=
  fold_left (fun s t => fire t s) (dueAt now st) st.

(** The use of a classification result in [classifyGestureFromFrame]:
    [if (label && GESTURE_PROMPTS[label]) {...}] at time [now]. *)
Definition observe (v : View) (label : option Js.str) (now : Z) (st : Store)
  : Store :=
  match label with
  | Some l =>
      if Js.truthy l && Js.valueTruthy (GESTURE_PROMPTS l) then
        let latency := now - lastCaptureAtRef (capture st) in
        let st := setGestureLatency (Some latency) st in
        scheduleGesturePrompt v l now st
      else st
  | None => st
  end.

(* ------------------------------------------------------------------ *)
(** *** Rate governor: [classifyGestureFromFrame] *)

(** The JSON of a response of the classification endpoint, as the
    client reads it. *)
Record VisionJson := mkVisionJson {
  retryAfterMs : option Z;
  label : option Js.str
}.

(** What [fetch('/api/gesture-vision', ...)] settles to; [json] is
    [None] when [response.json()] rejects. *)
Inductive VisionFetched :=
| VisionRejected
| VisionResolved (status : Z) (json : option VisionJson).

Definition setVisionInFlight (x : bool) (st : Store) : Store :=
  let g := governor st in
  withGovernor (mkGovernor (lastGeminiAtRef g) x (visionRetryAtRef g)) st.
Definition setLastGeminiAt (x : Z) (st : Store) : Store :=
  let g := governor st in
  withGovernor (mkGovernor x (visionInFlightRef g) (visionRetryAtRef g)) st.
Definition setVisionRetryAt (x : Z) (st : Store) : Store :=
  let g := governor st in
  withGovernor (mkGovernor (lastGeminiAtRef g) (visionInFlightRef g) x) st.

(** The three guards at the head of [classifyGestureFromFrame]. *)
Definition admitted (now : Z) (g : Governor) : bool :=
  negb (visionInFlightRef g)
  && negb (now <? visionRetryAtRef g)
  && negb (now - lastGeminiAtRef g <? GEMINI_GESTURE_COOLDOWN_MS).

(** [classifyGestureFromFrame(dataUrl)] called at [now = Date.now()], up
    to its [await fetch(...)]: [None] when it returns at a guard, the
    store with the request sent otherwise.  (The request body is cut
    from [dataUrl]; cutting it does not throw.) *)
Definition classifyGestureFromFrame (now : Z) (dataUrl : Js.str) (st : Store)
  : option Store :=
  if visionInFlightRef (governor st) then None
  else if now <? visionRetryAtRef (governor st) then None
  else if now - lastGeminiAtRef (governor st) <? GEMINI_GESTURE_COOLDOWN_MS then None
  else
    let st := setVisionInFlight true st in
    let st := setLastGeminiAt now st in
    Some (call (FetchGestureVision dataUrl) st).

(** The rest of [classifyGestureFromFrame], resumed at time [now] with
    what the fetch settled to: the [try] body, then [finally]. *)
Definition classifyResumed (v : View) (fetched : VisionFetched) (now : Z)
  (st : Store) : Store :=
  let st :=
    match fetched with
    | VisionRejected => st                       (* catch: ignore *)
    | VisionResolved status json =>
        if status =? 429 then
          match json with
          | Some data =>
              let delay :=
                match retryAfterMs data with Some r => r | None => 10000 end in
              setVisionRetryAt (now + delay) st
          | None => st                           (* catch: ignore *)
          end
        else if negb (Odyssey.responseOk status) then st
        else
          match json with
          | Some data => observe v (label data) now st
          | None => st                           (* catch: ignore *)
          end
    end in
  setVisionInFlight false st.

(** The gesture pipeline as the event loop drives it: classification
    calls that await their response (each with the view of its loop),
    and the events. *)
Record World := mkWorld {
  store : Store;
  awaiting : list View
}.

Inductive Event :=
| Attempt (v : View) (now : Z) (dataUrl : Js.str)   (* the loop submits a frame *)
| Response (now : Z) (fetched : VisionFetched)      (* a fetch settles *)
| Clock (now : Z).                                  (* timeouts due fire *)

Definition step (w : World) (e : Event) : World :=
  match e with
  | Attempt v now dataUrl =>
      match classifyGestureFromFrame now dataUrl (store w) with
      | Some st => mkWorld st (awaiting w ++ [v])
      | None => w
      end
  | Response now fetched =>
      match awaiting w with
      | v :: rest => mkWorld (classifyResumed v fetched now (store w)) rest
      | [] => w                      (* no request, no response *)
      end
  | Clock now => mkWorld (advanceTo now (store w)) (awaiting w)
  end.

Definition run (w : World) (es : list Event) : World := fold_left step es w.

(** The classification requests sent so far. *)
Definition isVisionFetch (c : Call) : bool :=
  match c with
  | FetchGestureVision _ => true
  | _ => false
  end.
Definition requestsSent (st : Store) : nat :=
  List.length (filter isVisionFetch (calls st)).

(** The prompts forwarded to the service's [interact] so far. *)
Definition interactions (st : Store) : list Js.str :=
  flat_map (fun c => match c with Interact p => [p] | _ => [] end) (calls st).

(** The [startStream] calls made so far. *)
Definition isStartStream (c : Call) : bool :=
  match c with
  | StartStream _ _ => true
  | _ => false
  end.
Definition streamsStarted (st : Store) : nat :=
  List.length (filter isStartStream (calls st)).

(* ------------------------------------------------------------------ *)
(** *** Capture: [disableGestures] *)

(** [cancelAnimationFrame(h)] *)
Definition cancelAnimationFrame (h : Z) (st : Store) : Store :=
  let w := window st in
  withWindow (mkWindow (timeouts w) (nextTimeout w)
                       (filter (fun f => negb (f =? h)) (frames w))
                       (nextFrame w) (liveTracks w)) st.

(** [stream.getTracks().forEach((t) => t.stop())] *)
Definition stopTracks (tracks : list Z) (st : Store) : Store :=
  let w := window st in
  withWindow (mkWindow (timeouts w) (nextTimeout w) (frames w) (nextFrame w)
                       (filter (fun t => negb (existsb (Z.eqb t) tracks))
                               (liveTracks w))) st.

(** [disableGestures()] *)
Definition disableGestures (st : Store) : Store :=
  let st := setGesturesEnabled false st in
  let st := setGestureStatus (Js.lit "Gesture detection off") st in
  let st :=
    if Js.handleTruthy (detectFrameRef (capture st)) then
      match detectFrameRef (capture st) with
      | Some h => setDetectFrame None (cancelAnimationFrame h st)
      | None => st
      end
    else st in
  match cameraRef (capture st) with
  | Some (Some tracks) => setCamera (Some None) (stopTracks tracks st)
  | _ => st
  end.

End App.

(* ================================================================== *)
(** ** The server-side boundaries *)

Module Boundary.

(** The JSON bodies the handlers send. *)
Inductive Body :=
| ErrorBody (error : Js.str) (retryAfterMs : option Z)
| TextBody (text : Js.str)
| LabelBody (label : Js.str).

Record Reply := mkReply {
  status : Z;
  allow : option Js.str;          (* the Allow header, when set *)
  body : Body
}.

(** Does the body carry a transcript field? *)
Definition hasText (b : Body) : bool :=
  match b with
  | TextBody _ => true
  | _ => false
  end.

(** What [ai.models.generateContent] settles to: a rejection with the
    [status] of the error, if any, or a response with its [text]. *)
Inductive Generated :=
| GenerateRejected (errorStatus : option Z)
| GenerateResolved (text : option Js.str).

(** [process.env.GEMINI_API_KEY] is usable when set and not empty. *)
Definition keyPresent (apiKey : option Js.str) : bool :=
  match apiKey with
  | Some k => Js.truthy k
  | None => false
  end.

(** [response.text?.trim() || ''] *)
Definition transcriptOf (text : option Js.str) : Js.str :=
  match text with
  | Some t => Js.trim t
  | None => []
  end.

(* ------------------------------------------------------------------ *)
(** *** api/stt.js *)

(** A file part of a multipart body: the MIME type busboy reports, if
    any, and its data. *)
Record FilePart := mkFilePart {
  partMime : option Js.str;
  partData : list Byte.byte
}.

(** What busboy makes of the request: an error, or the file parts in
    order. *)
Inductive Multipart :=
| Malformed
| Parts (files : list FilePart).

Definition fileSizeLimit : Z := 15 * 1024 * 1024.

(** The first [limit] bytes of the data. *)
Fixpoint cutAt (limit : Z) (data : list Byte.byte) : list Byte.byte :=
  match data with
  | [] => []
  | b :: rest => if limit <=? 0 then [] else b :: cutAt (limit - 1) rest
  end.

(** [readMultipartAudio(req)]: [None] when the promise rejects, the
    buffer and MIME type otherwise (every file part overwrites them; a
    part is cut at the size limit). *)
Definition readMultipartAudio (mp : Multipart) : option (list Byte.byte * Js.str) :=
  match mp with
  | Malformed => None
  | Parts files =>
      Some (fold_left
              (fun acc part =>
                 let mimeType :=
                   match partMime part with
                   | Some (c :: m) => c :: m
                   | _ => snd acc
                   end in
                 (cutAt fileSizeLimit (partData part), mimeType))
              files
              ([], Js.lit "audio/webm"))
  end.

Section Transcription.

(** The speech model behind the boundary: the MIME type and the audio
    it is sent, and what the call settles to. *)
Variable generateContent : Js.str -> list Byte.byte -> Generated.

(** [handler(req, res)] of api/stt.js. *)
Definition sttHandler (apiKey : option Js.str) (method : Js.str) (mp : Multipart)
  : Reply :=
  if negb (Js.eqb method (Js.lit "POST")) then
    mkReply 405 (Some (Js.lit "POST")) (ErrorBody (Js.lit "Method not allowed") None)
  else if negb (keyPresent apiKey) then
    mkReply 500 None (ErrorBody (Js.lit "Missing GEMINI_API_KEY on server.") None)
  else
    match readMultipartAudio mp with
    | None => mkReply 500 None (ErrorBody (Js.lit "Transcription failed.") None)
    | Some (buffer, mimeType) =>
        match buffer with
        | [] => mkReply 400 None (ErrorBody (Js.lit "Missing audio file.") None)
        | _ :: _ =>
            match generateContent mimeType buffer with
            | GenerateRejected _ =>
                mkReply 500 None (ErrorBody (Js.lit "Transcription failed.") None)
            | GenerateResolved text =>
                mkReply 200 None (TextBody (transcriptOf text))
            end
        end
    end.

(** [req.file] as multer's [upload.single('audio')] leaves it. *)
Record Upload := mkUpload {
  buffer : list Byte.byte;
  mimetype : Js.str
}.

(** The route [app.post('/api/stt', ...)] of server/index.js. *)
Definition sttRoute (apiKey : option Js.str) (file : option Upload) : Reply :=
  if negb (keyPresent apiKey) then
    mkReply 500 None (ErrorBody (Js.lit "Missing GEMINI_API_KEY on server.") None)
  else
    match file with
    | None => mkReply 400 None (ErrorBody (Js.lit "Missing audio file.") None)
    | Some f =>
        let mimeType :=
          if Js.truthy (mimetype f) then mimetype f else Js.lit "audio/webm" in
        match generateContent mimeType (buffer f) with
        | GenerateRejected _ =>
            mkReply 500 None (ErrorBody (Js.lit "Transcription failed.") None)
        | GenerateResolved text =>
            mkReply 200 None (TextBody (transcriptOf text))
        end
    end.

End Transcription.

(* ------------------------------------------------------------------ *)
(** *** api/gesture-vision.js and the route of server/index.js *)

Definition none : Js.str := Js.lit "none".

Definition knownLabels : list Js.str :=
  [Js.lit "hello"; Js.lit "thumbs_up"; Js.lit "victory"; Js.lit "namaste"; none].

Section Classification.

(** [String.prototype.toLowerCase], left to the platform. *)
Variable toLowerCase : Js.str -> Js.str.

(** The vision model behind the boundary: the MIME type and the image
    it is sent, and what the call settles to. *)
Variable generateContent : Js.str -> Js.str -> Generated.

(** The label both handlers answer with:
    [const text = response.text?.trim().toLowerCase() || 'none';
     const label = [...].includes(text) ? text : 'none']. *)
Definition labelOf (text : option Js.str) : Js.str :=
  let text :=
    match text with
    | Some t =>
        let t := toLowerCase (Js.trim t) in
        if Js.truthy t then t else none
    | None => none
    end in
  if Js.mem text knownLabels then text else none.

(** The reply once the request has an image: shared by the handler and
    the route. *)
Definition classify (mimeType image : Js.str) : Reply :=
  match generateContent mimeType image with
  | GenerateResolved text => mkReply 200 None (LabelBody (labelOf text))
  | GenerateRejected errorStatus =>
      match errorStatus with
      | Some 429 =>
          mkReply 429 None (ErrorBody (Js.lit "Rate limited") (Some 10000))
      | _ =>
          mkReply 500 None (ErrorBody (Js.lit "Gesture classification failed.") None)
      end
  end.

(** [String(body.x ?? d).trim()] for a field that is a string when
    present. *)
Definition field (x : option Js.str) (d : Js.str) : Js.str :=
  Js.trim (match x with Some s => s | None => d end).

(** [handler(req, res)] of api/gesture-vision.js, and (but for the
    method check) the route [app.post('/api/gesture-vision', ...)]. *)
Definition gestureVisionHandler (apiKey : option Js.str) (method : Js.str)
  (image mimeType : option Js.str) : Reply :=
  if negb (Js.eqb method (Js.lit "POST")) then
    mkReply 405 (Some (Js.lit "POST")) (ErrorBody (Js.lit "Method not allowed") None)
  else if negb (keyPresent apiKey) then
    mkReply 500 None (ErrorBody (Js.lit "Missing GEMINI_API_KEY on server.") None)
  else
    let image := field image [] in
    let mimeType := field mimeType (Js.lit "image/jpeg") in
    if negb (Js.truthy image) then
      mkReply 400 None (ErrorBody (Js.lit "Missing image.") None)
    else classify mimeType image.

End Classification.

(** The reply as the client's [fetch] and [response.json()] see it. *)
Definition asFetched (r : Reply) : App.VisionFetched :=
  App.VisionResolved (status r)
    (Some match body r with
          | ErrorBody _ retry => App.mkVisionJson retry None
          | LabelBody l => App.mkVisionJson None (Some l)
          | _ => App.mkVisionJson None None
          end).

End Boundary.

(* ================================================================== *)
(** ** Invariants and scenarios *)

Module Inv.
Import App.

(** The in-flight flag tells whether a classification call awaits its
    response: one call when it is set, none otherwise. *)
Definition Coherent (w : World) : Prop :=
  List.length (awaiting w) = if visionInFlightRef (governor (store w)) then 1%nat else 0%nat.

(** Every armed timeout is the one [pendingTimerRef] holds, and handles
    are fresh: positive, below the next one the browser hands out. *)
Definition TimerOwned (st : Store) : Prop :=
  (forall t, In t (timeouts (window st)) ->
             pendingTimerRef (debounce st) = Some (handle t))
  /\ (forall h, pendingTimerRef (debounce st) = Some h ->
                0 < h < nextTimeout (window st))
  /\ 0 < nextTimeout (window st).

(** Every attempt of the series is made before [deadline]. *)
Definition attemptsBefore (deadline : Z) (es : list Event) : Prop :=
  Forall (fun e => match e with
                   | Attempt _ now _ => now < deadline
                   | _ => True
                   end) es.

(** A label the classification endpoint can answer with. *)
Definition Delivered (toLowerCase : Js.str -> Js.str) (l : Js.str) : Prop :=
  exists text, l = Boundary.labelOf toLowerCase text.

End Inv.

(** A session that streams: key saved, connected, stream started. *)
Definition demoSlide : App.Slide :=
  App.mkSlide (Js.lit "s1") (Js.lit "/slides/s1.png") (Js.lit "a forest at dawn")
              (Js.lit "make it rain").

Definition demoSlide2 : App.Slide :=
  App.mkSlide (Js.lit "s2") (Js.lit "/slides/s2.png") (Js.lit "a city at night")
              (Js.lit "light the windows").

Definition connectedStore : App.Store :=
  App.onStatusChange ConnectionStatus.connected
    (App.connectEffect (Some (Js.lit "ody_key")) App.mounted).

Definition streamingStore : App.Store :=
  App.onStreamStarted (fst (App.slideEffect demoSlide connectedStore)).

Definition streamingView : App.View := App.viewOf demoSlide streamingStore.

(** The same with the gesture loop on: animation frame 1 requested, the
    camera showing a stream whose single track 10 is live. *)
Definition loopStore : App.Store :=
  let st := App.setGestureStatus (Js.lit "Gesture detection on")
              (App.setGesturesEnabled true streamingStore) in
  let st := App.setCamera (Some (Some [10])) (App.setDetectFrame (Some 1) st) in
  App.withWindow (App.mkWindow [] 1 [1] 2 [10]) st.

(** ... and a gesture stabilising: a frame was sent at 100000 and the
    answer [thumbs_up] came at 100300, so its timeout is due at 101500. *)
Definition busyStore : App.Store :=
  let w0 := App.mkWorld loopStore [] in
  App.store
    (App.run w0
       [ App.Attempt streamingView 100000 (Js.lit "data:image/jpeg;base64,AAAA");
         App.Response 100300
           (App.VisionResolved 200
              (Some (App.mkVisionJson None (Some App.thumbs_up)))) ]).

(** The session as the event loop drives it: the suspended runs of the
    slide changes (each with its token), and the events. *)
Module SessionLoop.
Import App.

Inductive Event :=
| Navigate (sl : Slide)                  (* the slide effect runs *)
| StatusChange (status : ConnectionStatus.t)
| StreamStarted
| StreamEnded
| StreamError (reason message : Js.str)
| ServiceError (message : Js.str)
| Settle (token : Z) (o : Settled)       (* what the run of [token] awaits settles *)
| Dispatch (v : View) (p : Js.value)     (* a handler calls handleInteract *)
| InteractRejected (err : Js.thrown).

Record World := mkWorld {
  store : Store;
  suspended : list Run
}.

(** The run minted under [token], if it is suspended, is resumed. *)
Fixpoint settle (token : Z) (o : Settled) (runs : list Run) (st : Store)
  : Store * list Run :=
  match runs with
  | [] => (st, [])
  | k :: rest =>
      if requestId k =? token then
        match resume k o st with
        | (st', Some k') => (st', k' :: rest)
        | (st', None) => (st', rest)
        end
      else
        let (st', rest') := settle token o rest st in
        (st', k :: rest')
  end.

Definition step (w : World) (e : Event) : World :=
  match e with
  | Navigate sl =>
      match slideEffect sl (store w) with
      | (st, Some k) => mkWorld st (suspended w ++ [k])
      | (st, None) => mkWorld st (suspended w)
      end
  | StatusChange status => mkWorld (onStatusChange status (store w)) (suspended w)
  | StreamStarted => mkWorld (onStreamStarted (store w)) (suspended w)
  | StreamEnded => mkWorld (onStreamEnded (store w)) (suspended w)
  | StreamError reason message =>
      mkWorld (onStreamError reason message (store w)) (suspended w)
  | ServiceError message => mkWorld (onError message (store w)) (suspended w)
  | Settle token o =>
      let (st, runs) := settle token o (suspended w) (store w) in
      mkWorld st runs
  | Dispatch v p => mkWorld (storeOf (handleInteract v p (store w))) (suspended w)
  | InteractRejected err => mkWorld (interactRejected err (store w)) (suspended w)
  end.

Definition run (w : World) (es : list Event) : World := fold_left step es w.

End SessionLoop.

(* ================================================================== *)
(** ** The rest of the [App] component *)

(** *** Slide navigation: [handlePrev], [handleNext] *)

Module Nav.

(** [(prev - 1 + slideCount) % slideCount]; JavaScript's [%] takes the
    sign of the dividend. *)
Definition handlePrev (slideCount prev : Z) : Z :=
  Z.rem (prev - 1 + slideCount) slideCount.

(** [(prev + 1) % slideCount] *)
Definition handleNext (slideCount prev : Z) : Z :=
  Z.rem (prev + 1) slideCount.

(** [handleNext] pressed [n] times. *)
Fixpoint nextTimes (n : nat) (slideCount index : Z) : Z :=
  match n with
  | O => index
  | S n' => nextTimes n' slideCount (handleNext slideCount index)
  end.

End Nav.

(** *** The API key: the storage effect and [handleSaveKey] *)

Module Setup.
Import App.

(** [apiKey], [keyInput], and the item [localStorage] holds under
    [STORAGE_KEY]. *)
Record Keys := mkKeys {
  apiKey : option Js.str;
  keyInput : Js.str;
  storedItem : option Js.str
}.

(** A fresh mount: [useState(envApiKey)], an empty input; the browser
    keeps its storage. *)
Definition mountKeys (envApiKey stored : option Js.str) : Keys :=
  mkKeys envApiKey [] stored.

Definition optTruthy (x : option Js.str) : bool :=
  match x with
  | Some s => Js.truthy s
  | None => false
  end.

(** The effect on [envApiKey]: without a key from the environment, the
    stored one is taken. *)
Definition storedKeyEffect (envApiKey : option Js.str) (k : Keys) : Keys :=
  if optTruthy envApiKey then k
  else if optTruthy (storedItem k) then mkKeys (storedItem k) (keyInput k) (storedItem k)
  else k.

(** [handleSaveKey()] *)
Definition handleSaveKey (k : Keys) (st : Store) : Keys * Store :=
  let trimmed := Js.trim (keyInput k) in
  if negb (Js.truthy trimmed) then
    (k, setError (Some (Js.lit "Please enter a valid Odyssey API key.")) st)
  else
    (mkKeys (Some trimmed) [] (Some trimmed), setError None st).

(** [Object.is] on two values of [apiKey], as React compares the
    dependency of the connect effect between renders. *)
Definition sameKey (a b : option Js.str) : bool :=
  match a, b with
  | None, None => true
  | Some x, Some y => Js.eqb x y
  | _, _ => false
  end.

(** The effects of a mount, in the order of the source: after the first
    render, which sees [apiKey = envApiKey], the storage effect and the
    connect effect; when the storage effect has changed [apiKey], the
    connect effect once more, in the render that sees the stored key. *)
Definition mount (envApiKey stored : option Js.str) (st : Store) : Keys * Store :=
  let k0 := mountKeys envApiKey stored in
  let k1 := storedKeyEffect envApiKey k0 in
  let st1 := connectEffect (apiKey k0) st in
  if sameKey (apiKey k0) (apiKey k1) then (k1, st1)
  else (k1, connectEffect (apiKey k1) st1).

End Setup.

(** *** The typed prompt: [handleTextPromptSubmit] *)

Module Prompt.
Import App.

(** [handleTextPromptSubmit()] of the render with view [v]: the text of
    the input afterwards, and the store. *)
Definition handleTextPromptSubmit (v : View) (textPrompt : Js.str) (st : Store)
  : Js.str * Store :=
  let prompt := Js.trim textPrompt in
  if negb (Js.truthy prompt) then (textPrompt, st)
  else
    match handleInteract v (Js.Str prompt) st with
    | Normal st' => ([], st')
    | TypeError st' => (textPrompt, st')
    end.

(** [handleTextPromptKeyDown(event)]: [Enter] submits. *)
Definition handleTextPromptKeyDown (key : Js.str) (v : View) (textPrompt : Js.str)
  (st : Store) : Js.str * Store :=
  if Js.eqb key (Js.lit "Enter") then handleTextPromptSubmit v textPrompt st
  else (textPrompt, st).

End Prompt.

(** *** The capture loop: [enableGestures], [startGestureLoop], [detect] *)

Module Capture.
Import App.

Definition setLastCaptureAt (x : Z) (st : Store) : Store :=
  let c := capture st in
  withCapture (mkCapture (detectFrameRef c) (cameraRef c) x
                         (gesturesEnabled c) (gestureStatus c) (gestureLatency c)) st.

(** [requestAnimationFrame(detect)]: the new handle, and the store with
    the frame requested. *)
Definition requestAnimationFrame (st : Store) : Z * Store :=
  let w := window st in
  let h := nextFrame w in
  (h, withWindow (mkWindow (timeouts w) (nextTimeout w) (frames w ++ [h]) (h + 1)
                           (liveTracks w)) st).

(** [navigator.mediaDevices.getUserMedia] resolved: the tracks of the
    new stream are live. *)
Definition acquire (tracks : list Z) (st : Store) : Store :=
  let w := window st in
  withWindow (mkWindow (timeouts w) (nextTimeout w) (frames w) (nextFrame w)
                       (liveTracks w ++ tracks)) st.

(** [detect()] of the loop started under view [v], run at
    [performance.now() = perfNow] and [Date.now() = dateNow] (clock
    readings as integers; both [Date.now()] readings of a pass are
    [dateNow]);
    [lastVisionCheck] is [lastVisionCheckRef], [frame] the data URL of
    the frame drawn ([None] without canvas or 2d context).  The pipeline
    world carries the classification calls that await their response. *)
Definition detect (v : View) (perfNow dateNow : Z) (frame : option Js.str)
  (lastVisionCheck : Z) (w : World) : Z * World :=
  match cameraRef (capture (store w)) with
  | None => (lastVisionCheck, w)
  | Some _ =>
      let (lastVisionCheck, w) :=
        if VISION_POLL_MS <=? perfNow - lastVisionCheck then
          (perfNow,
           match frame with
           | Some dataUrl =>
               if seenStreamingReady v then
                 step (mkWorld (setLastCaptureAt dateNow (store w)) (awaiting w))
                      (Attempt v dateNow dataUrl)
               else w
           | None => w
           end)
        else (lastVisionCheck, w) in
      let (h, st) := requestAnimationFrame (store w) in
      (lastVisionCheck, mkWorld (setDetectFrame (Some h) st) (awaiting w))
  end.

(** The browser runs the callback of the requested frame [h]: a
    cancelled frame does not run. *)
Definition frameFired (h : Z) (v : View) (perfNow dateNow : Z) (frame : option Js.str)
  (lastVisionCheck : Z) (w : World) : Z * World :=
  if existsb (Z.eqb h) (frames (window (store w))) then
    detect v perfNow dateNow frame lastVisionCheck
           (mkWorld (cancelAnimationFrame h (store w)) (awaiting w))
  else (lastVisionCheck, w).

(** One animation frame as the loop sees it. *)
Record Tick := mkTick {
  perfNow : Z;
  dateNow : Z;
  frame : option Js.str
}.

(** The loop over a series of animation frames: each time the browser
    runs the callback of the frame [detectFrameRef] holds. *)
Fixpoint loop (v : View) (ticks : list Tick) (lastVisionCheck : Z) (w : World)
  : Z * World :=
  match ticks with
  | [] => (lastVisionCheck, w)
  | t :: ticks' =>
      match detectFrameRef (capture (store w)) with
      | Some h =>
          let (lastVisionCheck, w) :=
            frameFired h v (perfNow t) (dateNow t) (frame t) lastVisionCheck w in
          loop v ticks' lastVisionCheck w
      | None => (lastVisionCheck, w)
      end
  end.

(** [startGestureLoop()] *)
Definition startGestureLoop (st : Store) : Store :=
  match cameraRef (capture st) with
  | None => st
  | Some _ =>
      let (h, st) := requestAnimationFrame st in
      setDetectFrame (Some h) st
  end.

(** [enableGestures()] up to [await getUserMedia(...)], in a render that
    sees [gesturesEnabled = seenEnabled]: [None] when it returns at
    once. *)
Definition enableGestures (seenEnabled : bool) (st : Store) : option Store :=
  if seenEnabled then None
  else Some (setGestureStatus (Js.lit "Starting camera...") st).

(** What the camera set-up settles to: [getUserMedia] rejects, or it
    resolves with a stream and [play()] then rejects or resolves. *)
Inductive CameraOutcome :=
| CameraBlocked
| CameraGranted (tracks : list Z) (played : bool).

(** The rest of [enableGestures]. *)
Definition enableGesturesResumed (o : CameraOutcome) (st : Store) : Store :=
  match o with
  | CameraBlocked => setGestureStatus (Js.lit "Gesture setup failed") st
  | CameraGranted tracks played =>
      let st := acquire tracks st in
      match cameraRef (capture st) with
      | Some _ =>
          let st := setCamera (Some (Some tracks)) st in
          if played then
            let st := setGesturesEnabled true st in
            let st := setGestureStatus (Js.lit "Gesture detection on") st in
            startGestureLoop st
          else setGestureStatus (Js.lit "Gesture setup failed") st
      | None =>
          let st := setGesturesEnabled true st in
          let st := setGestureStatus (Js.lit "Gesture detection on") st in
          startGestureLoop st
      end
  end.

(** What a press of the gesture button did. *)
Inductive Pressed :=
| TurnedOff (st : Store)        (* [disableGestures] ran *)
| SettingUp (st : Store)        (* [enableGestures] waits for [getUserMedia] *)
| Ignored (st : Store).         (* [enableGestures] returned at once *)

(** The gesture button,
    [onClick={gesturesEnabled ? disableGestures : enableGestures}], in a
    render that sees [gesturesEnabled = seenEnabled]. *)
Definition gestureButton (seenEnabled : bool) (st : Store) : Pressed :=
  if seenEnabled then TurnedOff (disableGestures st)
  else
    match enableGestures seenEnabled st with
    | Some st' => SettingUp st'
    | None => Ignored st
    end.

End Capture.

(** *** Speech: the recorder's [onstop] *)

Module Speech.
Import App.

(** [speechText], [speechError], [isRecording], [isTranscribing],
    [mediaStreamRef] (a stream is the list of its tracks),
    [audioChunksRef], the recorder's [mimeType], and the bodies posted
    to [/api/stt]. *)
Record State := mkState {
  speechText : Js.str;
  speechError : option Js.str;
  isRecording : bool;
  isTranscribing : bool;
  mediaStreamRef : option (list Z);
  audioChunksRef : list (list Byte.byte);
  recorderMime : Js.str;
  posted : list Odyssey.Blob
}.

(** [recorder.ondataavailable]: empty chunks are dropped. *)
Definition ondataavailable (data : list Byte.byte) (s : State) : State :=
  match data with
  | [] => s
  | _ :: _ =>
      mkState (speechText s) (speechError s) (isRecording s) (isTranscribing s)
              (mediaStreamRef s) (audioChunksRef s ++ [data]) (recorderMime s)
              (posted s)
  end.

(** [new Blob(audioChunksRef.current, { type: recorder.mimeType || 'audio/webm' })] *)
Definition recording (s : State) : Odyssey.Blob :=
  Odyssey.mkBlob (List.concat (audioChunksRef s))
    (if Js.truthy (recorderMime s) then recorderMime s else Js.lit "audio/webm").

(** [recorder.onstop] up to [await fetch('/api/stt', ...)]. *)
Definition onstop (s : State) : State :=
  mkState (speechText s) (speechError s) false true
          (mediaStreamRef s) [] (recorderMime s)
          (posted s ++ [recording s]).

(** What the fetch settles to; [json] is [None] when [response.json()]
    rejects, and carries the [text] field otherwise. *)
Inductive Transcribed :=
| SttRejected
| SttResolved (status : Z) (json : option (option Js.str)).

(** The rest of [onstop]: the [try] body with its [catch], then
    [finally]. *)
Definition onstopResumed (v : View) (fetched : Transcribed) (s : State) (st : Store)
  : State * Store :=
  let failed :=
    (mkState (speechText s) (Some (Js.lit "Transcription failed. Try again."))
             (isRecording s) (isTranscribing s) (mediaStreamRef s)
             (audioChunksRef s) (recorderMime s) (posted s), st) in
  let '(s, st) :=
    match fetched with
    | SttRejected => failed
    | SttResolved status json =>
        if negb (Odyssey.responseOk status) then failed
        else
          match json with
          | None => failed
          | Some text =>
              let transcript :=
                Js.trim (match text with Some t => t | None => [] end) in
              if Js.truthy transcript then
                let s' := mkState transcript (speechError s) (isRecording s)
                                  (isTranscribing s) (mediaStreamRef s)
                                  (audioChunksRef s) (recorderMime s) (posted s) in
                match handleInteract v (Js.Str transcript) st with
                | Normal st' => (s', st')
                | TypeError st' =>
                    (mkState transcript
                             (Some (Js.lit "Transcription failed. Try again."))
                             (isRecording s) (isTranscribing s) (mediaStreamRef s)
                             (audioChunksRef s) (recorderMime s) (posted s), st')
                end
              else
                (mkState (speechText s)
                         (Some (Js.lit "We did not hear anything. Try again."))
                         (isRecording s) (isTranscribing s) (mediaStreamRef s)
                         (audioChunksRef s) (recorderMime s) (posted s), st)
          end
    end in
  (mkState (speechText s) (speechError s) (isRecording s) false None
           (audioChunksRef s) (recorderMime s) (posted s),
   match mediaStreamRef s with
   | Some tracks => stopTracks tracks st
   | None => st
   end).

End Speech.

(* ================================================================== *)
(** ** The rest of the server-side boundaries *)

Module Routes.
Import Boundary.

(** The content type a form part gets for a blob: the blob's type, or
    ['application/octet-stream'] when it has none. *)
Definition partType (blob : Odyssey.Blob) : Js.str :=
  if Js.truthy (Odyssey.blobType blob) then Odyssey.blobType blob
  else Js.lit "application/octet-stream".

Section Upload.

(** The MIME type the server's multipart parser reads from the content
    type of a part, left to the library. *)
Variable contentType : Js.str -> Js.str.

(** The multipart body the client's [FormData] makes of a recording,
    as busboy reports it: one file part. *)
Definition formOf (blob : Odyssey.Blob) : Multipart :=
  Parts [mkFilePart (Some (contentType (partType blob))) (Odyssey.blobBytes blob)].

(** multer's [req.file] for the same body. *)
Definition uploadOf (blob : Odyssey.Blob) : Upload :=
  mkUpload (Odyssey.blobBytes blob) (contentType (partType blob)).

(** The MIME type either boundary sends on to the model. *)
Definition sentType (blob : Odyssey.Blob) : Js.str :=
  if Js.truthy (contentType (partType blob)) then contentType (partType blob)
  else Js.lit "audio/webm".

End Upload.

(** The transcription reply as the client's [fetch] and
    [response.json()] see it. *)
Definition asTranscribed (r : Reply) : Speech.Transcribed :=
  Speech.SttResolved (status r)
    (Some match body r with
          | TextBody t => Some t
          | _ => None
          end).

(** A request body as a handler finds it: [null], an object with the
    fields read here (each as [String] renders it), or a value that is
    no object. *)
Inductive Json :=
| JNull
| JObject (image mimeType : option Js.str)
| JOther.

Section Handlers.

Variable toLowerCase : Js.str -> Js.str.

(** [JSON.parse], left to the platform: [None] when it throws. *)
Variable JSON_parse : Js.str -> option Json.

(** [readJson(req)] of api/gesture-vision.js: [reqBody] is [req.body]
    when the platform set it, [raw] what the request stream yields. *)
Definition readJson (reqBody : option Json) (raw : Js.str) : Json :=
  match reqBody with
  | Some (JObject image mimeType) => JObject image mimeType
  | _ =>
      if negb (Js.truthy raw) then JObject None None
      else
        match JSON_parse raw with
        | Some parsed => parsed
        | None => JObject None None
        end
  end.

(** [handler(req, res)] of api/gesture-vision.js with its reading of the
    body: [None] when [body.image] throws on a [null] body and the
    handler rejects without a reply. *)
Definition gestureVision (generateContent : Js.str -> Js.str -> Generated)
  (apiKey : option Js.str) (method : Js.str) (reqBody : option Json) (raw : Js.str)
  : option Reply :=
  if negb (Js.eqb method (Js.lit "POST")) then
    Some (mkReply 405 (Some (Js.lit "POST"))
                  (ErrorBody (Js.lit "Method not allowed") None))
  else if negb (keyPresent apiKey) then
    Some (mkReply 500 None
                  (ErrorBody (Js.lit "Missing GEMINI_API_KEY on server.") None))
  else
    match readJson reqBody raw with
    | JNull => None
    | JObject image mimeType =>
        Some (gestureVisionHandler toLowerCase generateContent apiKey method
                                   image mimeType)
    | JOther =>
        Some (gestureVisionHandler toLowerCase generateContent apiKey method
                                   None None)
    end.


(** The route [app.post('/api/gesture', ...)] of server/index.js: the
    model is sent the feature summary. *)
Definition gestureRoute (generateContent : Js.str -> Generated)
  (apiKey : option Js.str) (features : option Js.str) : Reply :=
  if negb (keyPresent apiKey) then
    mkReply 500 None (ErrorBody (Js.lit "Missing GEMINI_API_KEY on server.") None)
  else
    let features := field features [] in
    if negb (Js.truthy features) then
      mkReply 400 None (ErrorBody (Js.lit "Missing features.") None)
    else
      match generateContent features with
      | GenerateResolved text =>
          mkReply 200 None (LabelBody (labelOf toLowerCase text))
      | GenerateRejected _ =>
          mkReply 500 None (ErrorBody (Js.lit "Gesture classification failed.") None)
      end.

End Handlers.

End Routes.

(* ================================================================== *)
(** ** Traces and invariants for the further properties *)

Module Trace.
Import App.

(** The times at which the attempts of a series send a request. *)
Fixpoint sendTimes (w : World) (es : list Event) : list Z :=
  match es with
  | [] => []
  | e :: es' =>
      match e with
      | Attempt _ now _ =>
          if admitted now (governor (store w)) then now :: sendTimes (step w e) es'
          else sendTimes (step w e) es'
      | _ => sendTimes (step w e) es'
      end
  end.

(** Each time of the list is at least [gap] after the one before. *)
Fixpoint spaced (gap : Z) (prev : Z) (ts : list Z) : Prop :=
  match ts with
  | [] => True
  | t :: ts' => gap <= t - prev /\ spaced gap t ts'
  end.

(** The four phrases of [GESTURE_PROMPTS]. *)
Definition phrases : list Js.str :=
  [Js.lit "do hello"; Js.lit "do thumbs up"; Js.lit "do victory sign";
   Js.lit "do namaste"].

(** Every armed timeout was armed for a label that passed the check of
    [classifyGestureFromFrame]. *)
Definition ArmedChecked (st : Store) : Prop :=
  forall t, In t (timeouts (window st)) ->
            Js.valueTruthy (GESTURE_PROMPTS (armedLabel t)) = true.

(** Every armed timeout was armed for the label that is pending. *)
Definition ArmedPending (st : Store) : Prop :=
  forall t, In t (timeouts (window st)) ->
            pendingGestureRef (debounce st) = Some (armedLabel t).

(** The streaming-ready flag is on only while the stream state is
    [streaming]. *)
Definition ReadyIsStreaming (st : Store) : Prop :=
  isStreamingReady (session st) = true ->
  streamState (session st) = StreamState.streaming.

(** The tokens of the suspended runs grow along the list and none is
    past the current one. *)
Fixpoint TokensSorted (bound : Z) (runs : list Run) : Prop :=
  match runs with
  | [] => True
  | k :: rest =>
      requestId k <= bound
      /\ (forall k', In k' rest -> requestId k < requestId k')
      /\ TokensSorted bound rest
  end.

(** A string that does not start with a whitespace code unit. *)
Definition headClean (s : Js.str) : Prop :=
  match s with
  | [] => True
  | c :: _ => Js.isWhiteSpace c = false
  end.

(** The capture loop holds exactly the frame it requested last. *)
Definition OneFrame (st : Store) : Prop :=
  exists h, frames (window st) = [h]
            /\ detectFrameRef (capture st) = Some h
            /\ 0 < h < nextFrame (window st).

End Trace.

(* ================================================================== *)
(** * Properties *)

(* ------------------------------------------------------------------ *)
(** ** Strings *)

Lemma js_eqb_refl (a : Js.str) : Js.eqb a a = true.
Proof.
  induction a as [|x a IH]; simpl; [reflexivity|].
  now rewrite N.eqb_refl, IH.
Qed.

Lemma js_eqb_eq (a b : Js.str) : Js.eqb a b = true <-> a = b.
Proof.
  split.
  - revert b; induction a as [|x a IH]; intros [|y b] H; simpl in H;
      try reflexivity; try discriminate.
    apply andb_true_iff in H as [Hx Hr].
    apply N.eqb_eq in Hx. apply IH in Hr. now subst.
  - intros ->. apply js_eqb_refl.
Qed.

Lemma js_eqb_neq (a b : Js.str) : Js.eqb a b = false <-> a <> b.
Proof.
  rewrite <- js_eqb_eq. destruct (Js.eqb a b); split; congruence.
Qed.

Lemma js_mem_In (s : Js.str) (l : list Js.str) :
  Js.mem s l = true <-> In s l.
Proof.
  unfold Js.mem. rewrite existsb_exists. split.
  - intros (x & Hin & Heq). apply js_eqb_eq in Heq. now subst.
  - intros Hin. exists s. split; [assumption | apply js_eqb_refl].
Qed.

Lemma trimStart_nil_iff (s : Js.str) :
  Js.trimStart s = [] <-> Js.blank s = true.
Proof.
  induction s as [|c r IH]; simpl; [tauto|].
  destruct (Js.isWhiteSpace c); simpl; [exact IH|].
  split; discriminate.
Qed.

Lemma blank_rev (s : Js.str) : Js.blank (rev s) = Js.blank s.
Proof.
  unfold Js.blank.
  induction s as [|c r IH]; simpl; [reflexivity|].
  rewrite forallb_app, IH. simpl. rewrite andb_true_r. apply andb_comm.
Qed.

Lemma trimStart_blank (s : Js.str) :
  Js.blank (Js.trimStart s) = Js.blank s.
Proof.
  induction s as [|c r IH]; simpl; [reflexivity|].
  destruct (Js.isWhiteSpace c) eqn:E; simpl; [exact IH|].
  now rewrite E.
Qed.

(** The trimmed string is empty exactly for a whitespace-only string. *)
Lemma trim_nil_iff (s : Js.str) : Js.trim s = [] <-> Js.blank s = true.
Proof.
  unfold Js.trim, Js.trimEnd.
  rewrite <- (trimStart_blank s), <- (blank_rev (Js.trimStart s)).
  rewrite <- trimStart_nil_iff.
  split; intros H.
  - destruct (Js.trimStart (rev (Js.trimStart s))); [reflexivity|].
    simpl in H. apply (f_equal (@List.length N)) in H.
    rewrite length_app in H. simpl in H. lia.
  - now rewrite H.
Qed.

Lemma truthy_trim (s : Js.str) : Js.truthy (Js.trim s) = negb (Js.blank s).
Proof.
  destruct (Js.blank s) eqn:E.
  - apply trim_nil_iff in E. now rewrite E.
  - destruct (Js.trim s) eqn:T; [|reflexivity].
    apply trim_nil_iff in T. congruence.
Qed.

(* ------------------------------------------------------------------ *)
(** ** Dispatch *)

(** Dispatch gating, as a handler reads it.  For every prompt string
    [p], empty or not: [handleInteract] leaves the store as it is, hence
    makes no outbound call, when the streaming-ready flag of its render
    is off (first and last part: the handler of any render, and the one
    of the latest render, which reads the current flag) and when [p] is
    empty or whitespace-only; otherwise, with the service connected, its
    only effect is one [interact] call that carries exactly the trimmed
    prompt. *)
Theorem dispatch_gating (v : App.View) (p : Js.str) (st : App.Store) :
  (App.seenStreamingReady v = false ->
     App.handleInteract v (Js.Str p) st = App.Normal st)
  /\ (Js.blank p = true ->
     App.handleInteract v (Js.Str p) st = App.Normal st)
  /\ (App.serviceRef (App.session st) = true ->
      App.seenStreamingReady v = true ->
      Js.blank p = false ->
     App.handleInteract v (Js.Str p) st
       = App.Normal (App.call (App.Interact (Js.trim p)) st))
  /\ (forall sl, App.isStreamingReady (App.session st) = false ->
     App.handleInteract (App.viewOf sl st) (Js.Str p) st = App.Normal st).
Proof.
  unfold App.handleInteract; simpl.
  repeat split.
  - intros ->. now rewrite orb_true_r.
  - intros Hb. rewrite truthy_trim, Hb. simpl.
    now destruct (negb (App.serviceRef (App.session st)) || negb (App.seenStreamingReady v)).
  - intros -> -> Hb. rewrite truthy_trim, Hb. reflexivity.
  - intros sl ->. now rewrite orb_true_r.
Qed.

Lemma dispatch_gating_witness :
  App.handleInteract (App.mkView false demoSlide) (Js.Str (Js.lit "wave")) streamingStore
    = App.Normal streamingStore
  /\ App.handleInteract streamingView (Js.Str (Js.lit "  ")) streamingStore
    = App.Normal streamingStore
  /\ App.handleInteract streamingView (Js.Str (Js.lit " wave ")) streamingStore
    = App.Normal (App.call (App.Interact (Js.trim (Js.lit " wave "))) streamingStore)
  /\ App.handleInteract (App.viewOf demoSlide connectedStore) (Js.Str (Js.lit "wave"))
       connectedStore
    = App.Normal connectedStore.
Proof.
  split; [|split; [|split]].
  - apply (proj1 (dispatch_gating (App.mkView false demoSlide) (Js.lit "wave")
                                  streamingStore)).
    reflexivity.
  - apply (proj1 (proj2 (dispatch_gating streamingView (Js.lit "  ") streamingStore))).
    reflexivity.
  - apply (proj1 (proj2 (proj2 (dispatch_gating streamingView (Js.lit " wave ")
                                                streamingStore))));
      reflexivity.
  - apply (proj2 (proj2 (proj2 (dispatch_gating (App.mkView false demoSlide)
                                                (Js.lit "wave") connectedStore)))).
    reflexivity.
Defined.

(** C6. Dispatch with the session not streaming-ready.  The timeout of
    a gesture closes over the [handleInteract] of the render in which
    the capture loop was started, and that handler reads the
    streaming-ready flag of its own render.  With [thumbs_up] pending
    from an answer at 100300, a slide change at 100800 turns the
    session's flag off and the stream state to [starting]; the timeout
    fires at 101500 and forwards 'do thumbs up' all the same, while the
    handler of the latest render forwards nothing for the same
    prompt. *)
Lemma stale_timer_dispatches_when_not_ready :
  let changed := fst (App.slideEffect demoSlide2 busyStore) in
  let fired := App.advanceTo 101500 changed in
  App.isStreamingReady (App.session busyStore) = true
  /\ App.isStreamingReady (App.session changed) = false
  /\ App.streamState (App.session changed) = StreamState.starting
  /\ App.interactions changed = []
  /\ App.isStreamingReady (App.session fired) = false
  /\ App.interactions fired = [Js.lit "do thumbs up"]
  /\ App.handleInteract (App.viewOf demoSlide2 changed)
       (Js.Str (Js.lit "do thumbs up")) changed
     = App.Normal changed.
Proof. vm_compute. repeat split. Qed.

(** C8. A failed interact dispatch does not change the stream state.
    When the [interact] call that [handleInteract] forwarded is
    rejected, the rejection is surfaced in the error cell, and the
    stream state, the streaming-ready flag and the connection status
    are the ones from before the dispatch. *)
Theorem failed_interact_keeps_stream_state
  (v : App.View) (p : Js.value) (err : Js.thrown) (st : App.Store) :
  let st' := App.interactRejected err (App.storeOf (App.handleInteract v p st)) in
  App.streamState (App.session st') = App.streamState (App.session st)
  /\ App.isStreamingReady (App.session st') = App.isStreamingReady (App.session st)
  /\ App.connectionStatus (App.session st') = App.connectionStatus (App.session st)
  /\ App.error (App.session st') = Some (Js.describe err).
Proof.
  unfold App.handleInteract.
  destruct (negb (App.serviceRef (App.session st)) || negb (App.seenStreamingReady v));
    [simpl; auto|].
  destruct (Js.nullish p (Js.Str (App.cta (App.seenSlide v)))) as [|q|];
    [simpl; auto| |simpl; auto].
  destruct (negb (Js.truthy (Js.trim q))); simpl; auto.
Qed.

(* ------------------------------------------------------------------ *)
(** ** Image loading *)

(** C10. [loadImageFile] edge cases, for every response the fetch of
    the URL resolves to: it throws an [Error] when the response is not
    ok; it throws an [Error] when the body is larger than
    25 * 1024 * 1024 bytes; otherwise it returns a file with the fetched
    bytes whose type is the blob's, or ['image/png'] when the blob has
    none. *)
Theorem loadImageFile_cases (response : Odyssey.HttpResponse) (name : option Js.str) :
  (Odyssey.responseOk (Odyssey.httpStatus response) = false ->
     exists message,
       Odyssey.loadImageFile (Odyssey.FetchResolved response) name
         = inl (Js.ErrorObject message))
  /\ (forall blob,
        Odyssey.responseOk (Odyssey.httpStatus response) = true ->
        Odyssey.blobRead response = inr blob ->
        25 * 1024 * 1024 < Odyssey.blobSize blob ->
        exists message,
          Odyssey.loadImageFile (Odyssey.FetchResolved response) name
            = inl (Js.ErrorObject message))
  /\ (forall blob,
        Odyssey.responseOk (Odyssey.httpStatus response) = true ->
        Odyssey.blobRead response = inr blob ->
        Odyssey.blobSize blob <= 25 * 1024 * 1024 ->
        exists file,
          Odyssey.loadImageFile (Odyssey.FetchResolved response) name = inr file
          /\ Odyssey.fileBytes file = Odyssey.blobBytes blob
          /\ Odyssey.fileType file
               = match Odyssey.blobType blob with
                 | [] => Js.lit "image/png"
                 | _ :: _ => Odyssey.blobType blob
                 end
          /\ Odyssey.fileName file
               = match name with
                 | Some n => n
                 | None => Js.lit "slide-image"
                 end).
Proof.
  unfold Odyssey.loadImageFile.
  split; [|split].
  - intros ->. simpl. eauto.
  - intros blob -> -> Hsize. simpl.
    replace (Odyssey.MAX_IMAGE_BYTES <? Odyssey.blobSize blob) with true
      by (symmetry; apply Z.ltb_lt; unfold Odyssey.MAX_IMAGE_BYTES; lia).
    eauto.
  - intros blob -> -> Hsize. simpl.
    replace (Odyssey.MAX_IMAGE_BYTES <? Odyssey.blobSize blob) with false
      by (symmetry; apply Z.ltb_ge; unfold Odyssey.MAX_IMAGE_BYTES; lia).
    eexists. split; [reflexivity|]. simpl.
    destruct (Odyssey.blobType blob); simpl; auto.
Qed.

Lemma loadImageFile_cases_witness :
  (exists message,
     Odyssey.loadImageFile
       (Odyssey.FetchResolved
          (Odyssey.mkHttpResponse 404 (Js.lit "Not Found")
             (inr (Odyssey.mkBlob [] (Js.lit "text/html")))))
       None
     = inl (Js.ErrorObject message))
  /\ (exists message,
     Odyssey.loadImageFile
       (Odyssey.FetchResolved
          (Odyssey.mkHttpResponse 200 (Js.lit "OK")
             (inr (Odyssey.mkBlob (repeat Byte.x00 (Z.to_nat 26214401))
                                  (Js.lit "image/png")))))
       None
     = inl (Js.ErrorObject message))
  /\ (exists file,
     Odyssey.loadImageFile
       (Odyssey.FetchResolved
          (Odyssey.mkHttpResponse 200 (Js.lit "OK")
             (inr (Odyssey.mkBlob [Byte.x89; Byte.x50] []))))
       (Some (Js.lit "s1.png"))
     = inr file
     /\ Odyssey.fileBytes file = [Byte.x89; Byte.x50]
     /\ Odyssey.fileType file = Js.lit "image/png"
     /\ Odyssey.fileName file = Js.lit "s1.png").
Proof.
  split; [|split].
  - apply (proj1 (loadImageFile_cases _ None)). reflexivity.
  - apply (proj1 (proj2 (loadImageFile_cases _ None))
             (Odyssey.mkBlob (repeat Byte.x00 (Z.to_nat 26214401)) (Js.lit "image/png"))).
    + reflexivity.
    + reflexivity.
    + unfold Odyssey.blobSize, Odyssey.blobBytes.
      rewrite repeat_length, Z2Nat.id; lia.
  - apply (proj2 (proj2 (loadImageFile_cases _ (Some (Js.lit "s1.png"))))
             (Odyssey.mkBlob [Byte.x89; Byte.x50] [])).
    + reflexivity.
    + reflexivity.
    + unfold Odyssey.blobSize. simpl. lia.
Defined.

(* ------------------------------------------------------------------ *)
(** ** Transcription boundary *)

Lemma readMultipartAudio_last (files : list Boundary.FilePart) (part : Boundary.FilePart) :
  exists mimeType,
    Boundary.readMultipartAudio (Boundary.Parts (files ++ [part]))
      = Some (Boundary.cutAt Boundary.fileSizeLimit (Boundary.partData part), mimeType).
Proof.
  unfold Boundary.readMultipartAudio. rewrite fold_left_app.
  cbn [fold_left]. eauto.
Qed.

(** C9. An upload that is present but empty.  The client posts one
    when the recorder delivered no data.  With the key set, the route of
    server/index.js tests only [!req.file]: it sends the empty audio to
    the model and answers 200 with the model's text.  The handler of
    api/stt.js tests the length of the buffer and answers the same
    upload 400 with an error body. *)
Lemma empty_upload_is_transcribed :
  let model := fun (_ : Js.str) (_ : list Byte.byte) =>
                 Boundary.GenerateResolved (Some (Js.lit "hi")) in
  Boundary.sttRoute model (Some (Js.lit "k"))
    (Some (Boundary.mkUpload [] (Js.lit "audio/webm")))
  = Boundary.mkReply 200 None (Boundary.TextBody (Js.lit "hi"))
  /\ Boundary.sttHandler model (Some (Js.lit "k")) (Js.lit "POST")
       (Boundary.Parts [Boundary.mkFilePart (Some (Js.lit "audio/webm")) []])
     = Boundary.mkReply 400 None (Boundary.ErrorBody (Js.lit "Missing audio file.") None).
Proof. split; reflexivity. Qed.

(** X30. The guards of the transcription boundary come in a fixed order
    and none of them consults the model.  The handler of api/stt.js
    answers any method but POST 405 with [Allow: POST]; without the
    server's key, handler and route answer 500 whatever the body; with
    the key, the handler answers a multipart body that fails to parse
    500, and one with no audio part, or whose audio part is empty, 400,
    and the route answers a request without file 400.  On both,
    whatever the key, the method and the body, a text is returned only
    with status 200, after the model answered. *)
Theorem transcription_guards
  (model : Js.str -> list Byte.byte -> Boundary.Generated) (apiKey : option Js.str)
  (method : Js.str) (mp : Boundary.Multipart) (file : option Boundary.Upload) :
  let missing :=
    Boundary.mkReply 400 None (Boundary.ErrorBody (Js.lit "Missing audio file.") None) in
  let noKey :=
    Boundary.mkReply 500 None
      (Boundary.ErrorBody (Js.lit "Missing GEMINI_API_KEY on server.") None) in
  (method <> Js.lit "POST" ->
     Boundary.sttHandler model apiKey method mp
     = Boundary.mkReply 405 (Some (Js.lit "POST"))
         (Boundary.ErrorBody (Js.lit "Method not allowed") None))
  /\ (Boundary.keyPresent apiKey = false ->
      Boundary.sttHandler model apiKey (Js.lit "POST") mp = noKey
      /\ Boundary.sttRoute model apiKey file = noKey)
  /\ (Boundary.keyPresent apiKey = true ->
      Boundary.sttHandler model apiKey (Js.lit "POST") Boundary.Malformed
      = Boundary.mkReply 500 None (Boundary.ErrorBody (Js.lit "Transcription failed.") None)
      /\ Boundary.sttHandler model apiKey (Js.lit "POST") (Boundary.Parts []) = missing
      /\ (forall files part,
            Boundary.partData part = [] ->
            Boundary.sttHandler model apiKey (Js.lit "POST")
              (Boundary.Parts (files ++ [part])) = missing)
      /\ Boundary.sttRoute model apiKey None = missing)
  /\ (Boundary.hasText (Boundary.body (Boundary.sttHandler model apiKey method mp)) = true ->
      Boundary.status (Boundary.sttHandler model apiKey method mp) = 200
      /\ exists mimeType audio text,
           model mimeType audio = Boundary.GenerateResolved text)
  /\ (Boundary.hasText (Boundary.body (Boundary.sttRoute model apiKey file)) = true ->
      Boundary.status (Boundary.sttRoute model apiKey file) = 200
      /\ exists mimeType audio text,
           model mimeType audio = Boundary.GenerateResolved text).
Proof.
  intros missing noKey. split; [|split; [|split; [|split]]].
  - intros Hm. unfold Boundary.sttHandler.
    apply js_eqb_neq in Hm. now rewrite Hm.
  - intros Hkey. unfold Boundary.sttHandler, Boundary.sttRoute.
    rewrite Hkey. split; reflexivity.
  - intros Hkey. split; [|split; [|split]].
    + unfold Boundary.sttHandler. rewrite Hkey. reflexivity.
    + unfold Boundary.sttHandler. rewrite Hkey. reflexivity.
    + intros files part Hdata. unfold Boundary.sttHandler.
      destruct (readMultipartAudio_last files part) as [mimeType ->].
      rewrite Hkey, Hdata. reflexivity.
    + unfold Boundary.sttRoute. rewrite Hkey. reflexivity.
  - unfold Boundary.sttHandler.
    destruct (negb (Js.eqb method (Js.lit "POST"))); [discriminate|].
    destruct (negb (Boundary.keyPresent apiKey)); [discriminate|].
    destruct (Boundary.readMultipartAudio mp) as [[buffer mimeType]|]; [|discriminate].
    destruct buffer as [|b buffer]; [discriminate|].
    destruct (model mimeType (b :: buffer)) eqn:E; [discriminate|].
    intros _. split; [reflexivity | eauto].
  - unfold Boundary.sttRoute.
    destruct (negb (Boundary.keyPresent apiKey)); [discriminate|].
    destruct file as [f|]; [|discriminate].
    match goal with |- context [model ?m ?a] => destruct (model m a) eqn:E end;
      [discriminate|].
    intros _. split; [reflexivity | eauto].
Qed.

Lemma transcription_guards_witness :
  let model := fun (_ : Js.str) (_ : list Byte.byte) =>
                 Boundary.GenerateResolved (Some (Js.lit " hi ")) in
  let missing :=
    Boundary.mkReply 400 None (Boundary.ErrorBody (Js.lit "Missing audio file.") None) in
  Boundary.status
    (Boundary.sttHandler model (Some (Js.lit "k")) (Js.lit "GET") (Boundary.Parts [])) = 405
  /\ Boundary.status
       (Boundary.sttHandler model None (Js.lit "POST")
          (Boundary.Parts [Boundary.mkFilePart None [Byte.x01]])) = 500
  /\ Boundary.sttHandler model (Some (Js.lit "k")) (Js.lit "POST") (Boundary.Parts [])
     = missing
  /\ Boundary.sttRoute model (Some (Js.lit "k")) None = missing
  /\ Boundary.status
       (Boundary.sttHandler model (Some (Js.lit "k")) (Js.lit "POST")
          (Boundary.Parts [Boundary.mkFilePart None [Byte.x01]])) = 200.
Proof.
  intros model missing.
  pose proof (transcription_guards model (Some (Js.lit "k")) (Js.lit "GET")
                (Boundary.Parts []) None) as (H405 & _).
  pose proof (transcription_guards model None (Js.lit "POST")
                (Boundary.Parts [Boundary.mkFilePart None [Byte.x01]]) None)
    as (_ & H500 & _).
  pose proof (transcription_guards model (Some (Js.lit "k")) (Js.lit "POST")
                (Boundary.Parts [Boundary.mkFilePart None [Byte.x01]]) None)
    as (_ & _ & H400 & Htext & _).
  destruct (H400 eq_refl) as (_ & Hmissing & _ & Hroute).
  split; [now rewrite (H405 ltac:(discriminate))|].
  split; [now rewrite (proj1 (H500 eq_refl))|].
  split; [exact Hmissing | split; [exact Hroute|]].
  apply Htext. reflexivity.
Defined.

(* ------------------------------------------------------------------ *)
(** ** What the debounce steps leave alone *)

Lemma schedule_frame (v : App.View) (l : Js.str) (now : Z) (st : App.Store) :
  let st' := App.scheduleGesturePrompt v l now st in
  App.governor st' = App.governor st
  /\ App.session st' = App.session st
  /\ App.capture st' = App.capture st
  /\ App.calls st' = App.calls st.
Proof.
  unfold App.scheduleGesturePrompt; simpl.
  destruct (Js.handleTruthy (App.pendingTimerRef (App.debounce st)));
    [destruct (App.pendingTimerRef (App.debounce st))|]; simpl; auto.
Qed.

Lemma observe_frame (v : App.View) (l : option Js.str) (now : Z) (st : App.Store) :
  let st' := App.observe v l now st in
  App.governor st' = App.governor st
  /\ App.session st' = App.session st
  /\ App.calls st' = App.calls st.
Proof.
  unfold App.observe.
  destruct l as [l|]; [|simpl; auto].
  destruct (Js.truthy l && Js.valueTruthy (App.GESTURE_PROMPTS l)); [|simpl; auto].
  destruct (schedule_frame v l now
              (App.setGestureLatency
                 (Some (now - App.lastCaptureAtRef (App.capture st))) st))
    as (Hg & Hs & _ & Hc).
  simpl in *. auto.
Qed.

Lemma handleInteract_frame (v : App.View) (p : Js.value) (st : App.Store) :
  let st' := App.storeOf (App.handleInteract v p st) in
  App.governor st' = App.governor st
  /\ App.session st' = App.session st
  /\ App.debounce st' = App.debounce st
  /\ App.capture st' = App.capture st
  /\ App.window st' = App.window st
  /\ App.requestsSent st' = App.requestsSent st.
Proof.
  unfold App.handleInteract.
  destruct (negb (App.serviceRef (App.session st)) || negb (App.seenStreamingReady v));
    [simpl; auto 10|].
  destruct (Js.nullish p (Js.Str (App.cta (App.seenSlide v)))) as [|q|];
    [simpl; auto 10| |simpl; auto 10].
  destruct (negb (Js.truthy (Js.trim q))); simpl; auto 10.
  repeat split. unfold App.requestsSent, App.call; simpl.
  rewrite filter_app; simpl. now rewrite app_nil_r.
Qed.

Lemma fire_frame (t : App.Timeout) (st : App.Store) :
  let st' := App.fire t st in
  App.governor st' = App.governor st
  /\ App.session st' = App.session st
  /\ App.requestsSent st' = App.requestsSent st.
Proof.
  unfold App.fire, App.gestureTimerCallback.
  set (st0 := App.clearTimeout (App.handle t) st).
  destruct (App.pendingDiffers (App.pendingGestureRef (App.debounce st0)) (App.armedLabel t));
    [simpl; auto|].
  destruct (handleInteract_frame (App.armedView t)
              (App.GESTURE_PROMPTS (App.armedLabel t)) st0)
    as (Hg & Hs & _ & _ & _ & Hr).
  destruct (App.handleInteract (App.armedView t)
              (App.GESTURE_PROMPTS (App.armedLabel t)) st0) as [st1|st1];
    simpl in *; auto.
Qed.

Lemma fold_fire_frame (ts : list App.Timeout) (st : App.Store) :
  let st' := fold_left (fun s t => App.fire t s) ts st in
  App.governor st' = App.governor st
  /\ App.session st' = App.session st
  /\ App.requestsSent st' = App.requestsSent st.
Proof.
  revert st. induction ts as [|t ts IH]; intros st; simpl; [auto|].
  destruct (IH (App.fire t st)) as (Hg & Hs & Hr).
  destruct (fire_frame t st) as (Hg' & Hs' & Hr').
  simpl in *. repeat split; congruence.
Qed.

Lemma advanceTo_frame (now : Z) (st : App.Store) :
  let st' := App.advanceTo now st in
  App.governor st' = App.governor st
  /\ App.session st' = App.session st
  /\ App.requestsSent st' = App.requestsSent st.
Proof. apply fold_fire_frame. Qed.

(* ------------------------------------------------------------------ *)
(** ** Rate governor *)

Lemma classify_admitted (now : Z) (dataUrl : Js.str) (st : App.Store) :
  App.classifyGestureFromFrame now dataUrl st
  = if App.admitted now (App.governor st)
    then Some (App.call (App.FetchGestureVision dataUrl)
                 (App.setLastGeminiAt now (App.setVisionInFlight true st)))
    else None.
Proof.
  unfold App.classifyGestureFromFrame, App.admitted.
  destruct (App.visionInFlightRef (App.governor st)); [reflexivity|].
  destruct (now <? App.visionRetryAtRef (App.governor st)); [reflexivity|].
  destruct (now - App.lastGeminiAtRef (App.governor st) <? App.GEMINI_GESTURE_COOLDOWN_MS);
    reflexivity.
Qed.

Lemma classifyResumed_clears (v : App.View) (fetched : App.VisionFetched) (now : Z)
  (st : App.Store) :
  App.visionInFlightRef (App.governor (App.classifyResumed v fetched now st)) = false.
Proof. reflexivity. Qed.

Lemma step_coherent (w : App.World) (e : App.Event) :
  Inv.Coherent w -> Inv.Coherent (App.step w e).
Proof.
  unfold Inv.Coherent. intros H. destruct e as [v now dataUrl|now fetched|now]; simpl.
  - rewrite classify_admitted. unfold App.admitted.
    destruct (App.visionInFlightRef (App.governor (App.store w))) eqn:F; simpl;
      [now rewrite F|].
    destruct (negb (now <? App.visionRetryAtRef (App.governor (App.store w)))
              && negb (now - App.lastGeminiAtRef (App.governor (App.store w))
                       <? App.GEMINI_GESTURE_COOLDOWN_MS)); simpl.
    + rewrite length_app, H. reflexivity.
    + now rewrite F.
  - destruct (App.awaiting w) as [|v rest] eqn:A; [now rewrite A|].
    simpl in *.
    destruct (App.visionInFlightRef (App.governor (App.store w))); simpl in H; lia.
  - destruct (advanceTo_frame now (App.store w)) as (Hg & _). simpl in Hg.
    now rewrite Hg.
Qed.

Lemma run_coherent (es : list App.Event) (w : App.World) :
  Inv.Coherent w -> Inv.Coherent (App.run w es).
Proof.
  revert w. induction es as [|e es IH]; intros w H; simpl; [exact H|].
  apply IH, step_coherent, H.
Qed.

Lemma classify_blocked (now : Z) (dataUrl : Js.str) (st : App.Store) :
  App.visionInFlightRef (App.governor st) = true
  \/ now < App.visionRetryAtRef (App.governor st)
  \/ now - App.lastGeminiAtRef (App.governor st) < 8000 ->
  App.classifyGestureFromFrame now dataUrl st = None.
Proof.
  intros H. unfold App.classifyGestureFromFrame.
  destruct (App.visionInFlightRef (App.governor st)); [reflexivity|].
  destruct H as [H|[H|H]]; [discriminate| |].
  - apply Z.ltb_lt in H. now rewrite H.
  - destruct (now <? App.visionRetryAtRef (App.governor st)); [reflexivity|].
    unfold App.GEMINI_GESTURE_COOLDOWN_MS.
    apply Z.ltb_lt in H. now rewrite H.
Qed.

Lemma mounted_coherent : Inv.Coherent (App.mkWorld App.mounted []).
Proof. reflexivity. Qed.

(** C3. Rate governor admission.  Through every series of attempts,
    responses and timer firings, starting with no call outstanding, at
    most one classification call is outstanding at any time, and the
    in-flight flag tells whether one is.  An attempt at time [now] sends
    a request only with the flag clear, [now >= retryNotBeforeAt] and
    [now - lastCallAt >= 8000]; it then sets [lastCallAt = now] and the
    flag, and sends exactly one request; otherwise it sends nothing and
    changes nothing.  When the outstanding call completes the flag is
    cleared, whatever the fetch settled to. *)
Theorem governor_admission :
  (forall w es,
      Inv.Coherent w ->
      let w' := App.run w es in
      (List.length (App.awaiting w') <= 1)%nat
      /\ (App.visionInFlightRef (App.governor (App.store w')) = true
          <-> List.length (App.awaiting w') = 1%nat))
  /\ (forall now dataUrl st st',
      App.classifyGestureFromFrame now dataUrl st = Some st' ->
      App.visionInFlightRef (App.governor st) = false
      /\ ~ now < App.visionRetryAtRef (App.governor st)
      /\ ~ now - App.lastGeminiAtRef (App.governor st) < 8000
      /\ App.lastGeminiAtRef (App.governor st') = now
      /\ App.visionInFlightRef (App.governor st') = true
      /\ App.visionRetryAtRef (App.governor st') = App.visionRetryAtRef (App.governor st)
      /\ App.calls st' = App.calls st ++ [App.FetchGestureVision dataUrl])
  /\ (forall now dataUrl st,
      App.visionInFlightRef (App.governor st) = true
      \/ now < App.visionRetryAtRef (App.governor st)
      \/ now - App.lastGeminiAtRef (App.governor st) < 8000 ->
      App.classifyGestureFromFrame now dataUrl st = None)
  /\ (forall v fetched now st,
      App.visionInFlightRef (App.governor (App.classifyResumed v fetched now st)) = false).
Proof.
  split; [|split; [|split]].
  - intros w es H w'. pose proof (run_coherent es w H) as C. fold w' in C.
    unfold Inv.Coherent in C.
    destruct (App.visionInFlightRef (App.governor (App.store w'))); rewrite C.
    + split; [lia | tauto].
    + split; [lia | split; [discriminate | intros E; discriminate E]].
  - intros now dataUrl st st'. unfold App.classifyGestureFromFrame.
    destruct (App.visionInFlightRef (App.governor st)) eqn:F; [discriminate|].
    destruct (now <? App.visionRetryAtRef (App.governor st)) eqn:R; [discriminate|].
    destruct (now - App.lastGeminiAtRef (App.governor st) <? App.GEMINI_GESTURE_COOLDOWN_MS)
      eqn:C; [discriminate|].
    intros [= <-]. apply Z.ltb_ge in R, C. unfold App.GEMINI_GESTURE_COOLDOWN_MS in C.
    simpl. repeat split; try reflexivity; lia.
  - intros now dataUrl st H. now apply classify_blocked.
  - intros. apply classifyResumed_clears.
Qed.

Lemma governor_admission_witness :
  let frame := Js.lit "data:image/jpeg;base64,AAAA" in
  let es := [App.Attempt streamingView 100000 frame;
             App.Attempt streamingView 100500 frame;
             App.Response 100700 App.VisionRejected;
             App.Attempt streamingView 108000 frame] in
  (List.length (App.awaiting (App.run (App.mkWorld loopStore []) es)) <= 1)%nat
  /\ (forall st', App.classifyGestureFromFrame 100000 frame loopStore = Some st' ->
                  App.lastGeminiAtRef (App.governor st') = 100000)
  /\ App.classifyGestureFromFrame 100500 frame busyStore = None.
Proof.
  intros frame es. split; [|split].
  - apply (proj1 governor_admission (App.mkWorld loopStore []) es). reflexivity.
  - intros st' H.
    apply (proj1 (proj2 governor_admission) 100000 frame loopStore st' H).
  - apply (proj1 (proj2 (proj2 governor_admission)) 100500 frame busyStore).
    right; right. vm_compute. reflexivity.
Defined.

(** Before the retry deadline, with no call outstanding, nothing is
    sent: attempts return at the guard, and timer firings send no
    classification request. *)
Lemma blocked_until_deadline (deadline : Z) (es : list App.Event) (w : App.World) :
  App.awaiting w = [] ->
  App.visionRetryAtRef (App.governor (App.store w)) = deadline ->
  Inv.attemptsBefore deadline es ->
  let w' := App.run w es in
  App.requestsSent (App.store w') = App.requestsSent (App.store w)
  /\ App.governor (App.store w') = App.governor (App.store w)
  /\ App.awaiting w' = [].
Proof.
  revert w. induction es as [|e es IH]; intros w Hw Hr Hes; simpl; [auto|].
  inversion Hes as [|e' es' He Hes']; subst.
  assert (Hstep : App.requestsSent (App.store (App.step w e)) = App.requestsSent (App.store w)
                  /\ App.governor (App.store (App.step w e)) = App.governor (App.store w)
                  /\ App.awaiting (App.step w e) = []).
  { destruct e as [v now dataUrl|now fetched|now]; simpl.
    - replace (App.classifyGestureFromFrame now dataUrl (App.store w)) with (@None App.Store);
        [auto|].
      symmetry. apply classify_blocked. right; left. lia.
    - rewrite Hw. auto.
    - destruct (advanceTo_frame now (App.store w)) as (Hg & _ & Hq). simpl in *. auto. }
  destruct Hstep as (Hq & Hg & Ha).
  destruct (IH (App.step w e) Ha) as (Hq' & Hg' & Ha'); [now rewrite Hg | exact Hes'|].
  simpl in *. repeat split; congruence.
Qed.

(** C5. Rate-limit backoff.  When the classification call is answered
    429 with a body carrying [retryAfterMs = r], the governor sets
    [retryNotBeforeAt = now + r], with 10000 for [r] when the body has
    none, [now] being the time the answer is handled; nothing is
    surfaced (session with its error cell, gesture status, debounce
    state and calls are as before); and from then on no classification
    request is sent by any attempt made before that deadline, whatever
    the cooldown says, through any series of attempts, responses and
    timer firings. *)
Theorem rate_limit_backoff
  (v : App.View) (now : Z) (r : option Z) (l : option Js.str) (st : App.Store) :
  let st' := App.classifyResumed v
               (App.VisionResolved 429 (Some (App.mkVisionJson r l))) now st in
  let deadline := now + match r with Some d => d | None => 10000 end in
  App.visionRetryAtRef (App.governor st') = deadline
  /\ App.session st' = App.session st
  /\ App.capture st' = App.capture st
  /\ App.debounce st' = App.debounce st
  /\ App.calls st' = App.calls st
  /\ (forall now' dataUrl,
        now' < deadline -> App.classifyGestureFromFrame now' dataUrl st' = None)
  /\ (forall es,
        Inv.attemptsBefore deadline es ->
        App.requestsSent (App.store (App.run (App.mkWorld st' []) es))
          = App.requestsSent st').
Proof.
  intros st' deadline.
  assert (Hd : App.visionRetryAtRef (App.governor st') = deadline) by reflexivity.
  repeat split; try reflexivity.
  - intros now' dataUrl Hlt. apply classify_blocked. right; left. rewrite Hd. exact Hlt.
  - intros es Hes.
    apply (blocked_until_deadline deadline es (App.mkWorld st' [])); auto.
Qed.

Lemma rate_limit_backoff_witness :
  let frame := Js.lit "data:image/jpeg;base64,AAAA" in
  let st := App.classifyResumed streamingView
              (App.VisionResolved 429 (Some (App.mkVisionJson (Some 10000) None)))
              100000 busyStore in
  App.classifyGestureFromFrame 108000 frame st = None
  /\ App.requestsSent
       (App.store (App.run (App.mkWorld st [])
                     [App.Attempt streamingView 108000 frame;
                      App.Clock 109000;
                      App.Attempt streamingView 109999 frame]))
     = App.requestsSent st.
Proof.
  intros frame st.
  pose proof (rate_limit_backoff streamingView 100000 (Some 10000) None busyStore)
    as (_ & _ & _ & _ & _ & Hone & Hall).
  split.
  - apply Hone. reflexivity.
  - apply Hall. repeat constructor.
Defined.

(** Scenario B: a call made at 100000 is answered 429 with
    [retryAfterMs] 10000 at once.  At 108000 the cooldown alone would
    admit an attempt, the retry deadline does not; at 110000 an attempt
    is admitted. *)
Example scenario_B :
  let frame := Js.lit "data:image/jpeg;base64,AAAA" in
  let st := App.classifyResumed streamingView
              (App.VisionResolved 429 (Some (App.mkVisionJson (Some 10000) None)))
              100000 busyStore in
  App.lastGeminiAtRef (App.governor st) = 100000
  /\ App.visionRetryAtRef (App.governor st) = 110000
  /\ App.classifyGestureFromFrame 108000 frame st = None
  /\ App.classifyGestureFromFrame 109999 frame st = None
  /\ App.requestsSent st = 1%nat
  /\ (exists st', App.classifyGestureFromFrame 110000 frame st = Some st'
                  /\ App.requestsSent st' = 2%nat).
Proof.
  intros frame st. repeat split.
  eexists. split; [vm_compute; reflexivity | reflexivity].
Qed.

(* ------------------------------------------------------------------ *)
(** ** Classification results and the debounce state *)

Lemma gesture_label_cases (l : Js.str) :
  In l App.GestureLabel ->
  l = App.hello \/ l = App.thumbs_up \/ l = App.victory \/ l = App.namaste.
Proof. simpl. intuition auto. Qed.

(** A label that is neither a gesture nor an inherited property name is
    not a key of [GESTURE_PROMPTS]. *)
Lemma unknown_label_undefined (l : Js.str) :
  ~ In l App.GestureLabel ->
  ~ In l App.Object_prototype ->
  App.GESTURE_PROMPTS l = Js.Undefined.
Proof.
  intros Hg Hp. unfold App.GESTURE_PROMPTS.
  assert (E : forall g, In g App.GestureLabel -> Js.eqb l g = false).
  { intros g Hin. apply js_eqb_neq. intros ->. now apply Hg. }
  rewrite !E by (simpl; auto).
  destruct (Js.mem l App.Object_prototype) eqn:M; [|reflexivity].
  apply js_mem_In in M. contradiction.
Qed.

Lemma observe_unknown (v : App.View) (l : Js.str) (now : Z) (st : App.Store) :
  ~ In l App.GestureLabel ->
  ~ In l App.Object_prototype ->
  App.observe v (Some l) now st = st.
Proof.
  intros Hg Hp. unfold App.observe.
  rewrite (unknown_label_undefined l Hg Hp). simpl. now rewrite andb_false_r.
Qed.

(** An inherited name passes the client's check: the endpoints never
    answer with one (see [delivered_known]). *)
Example inherited_name_is_scheduled :
  App.pendingGestureRef
    (App.debounce (App.observe streamingView (Some (Js.lit "constructor")) 100500 busyStore))
  = Some (Js.lit "constructor").
Proof. reflexivity. Qed.

(** The endpoints answer with a gesture label or with ['none']. *)
Lemma delivered_known (toLowerCase : Js.str -> Js.str) (l : Js.str) :
  Inv.Delivered toLowerCase l -> In l App.GestureLabel \/ l = Boundary.none.
Proof.
  intros [text ->]. unfold Boundary.labelOf.
  match goal with
  | |- context [Js.mem ?t Boundary.knownLabels] =>
      destruct (Js.mem t Boundary.knownLabels) eqn:M; [|now right];
      apply js_mem_In in M; generalize dependent t
  end.
  intros t M. simpl in M. simpl.
  unfold App.hello, App.thumbs_up, App.victory, App.namaste.
  intuition auto.
Qed.

Lemma none_not_gesture : ~ In Boundary.none App.GestureLabel.
Proof. simpl. intuition discriminate. Qed.

Lemma none_not_inherited : ~ In Boundary.none App.Object_prototype.
Proof. simpl. intuition discriminate. Qed.

Lemma observe_delivered (toLowerCase : Js.str -> Js.str) (v : App.View) (l : Js.str)
  (now : Z) (st : App.Store) :
  Inv.Delivered toLowerCase l ->
  ~ In l App.GestureLabel ->
  App.observe v (Some l) now st = st.
Proof.
  intros Hd Hg. destruct (delivered_known toLowerCase l Hd) as [Hin| ->];
    [contradiction|].
  apply observe_unknown; [exact none_not_gesture | exact none_not_inherited].
Qed.

Lemma classifyResumed_ok (v : App.View) (data : App.VisionJson) (now : Z)
  (st : App.Store) :
  App.classifyResumed v (App.VisionResolved 200 (Some data)) now st
  = App.setVisionInFlight false (App.observe v (App.label data) now st).
Proof. reflexivity. Qed.

(* ------------------------------------------------------------------ *)
(** ** Debounce *)

Lemma filter_handle_all (h : Z) (ts : list App.Timeout) :
  (forall t, In t ts -> App.handle t = h) ->
  filter (fun t => negb (App.handle t =? h)) ts = [].
Proof.
  induction ts as [|t ts IH]; intros H; simpl; [reflexivity|].
  rewrite (H t (or_introl eq_refl)), Z.eqb_refl. simpl.
  apply IH. intros t' Hin. apply H. now right.
Qed.

Lemma timer_owned_none (st : App.Store) :
  Inv.TimerOwned st ->
  App.pendingTimerRef (App.debounce st) = None ->
  App.timeouts (App.window st) = [].
Proof.
  intros (Hown & _) Hnone.
  destruct (App.timeouts (App.window st)) as [|t ts]; [reflexivity|].
  specialize (Hown t (or_introl eq_refl)). congruence.
Qed.

(** Scheduling leaves exactly one timeout armed: the new one. *)
Lemma schedule_owned (v : App.View) (l : Js.str) (now : Z) (st : App.Store) :
  Inv.TimerOwned st ->
  let st' := App.scheduleGesturePrompt v l now st in
  App.pendingGestureRef (App.debounce st') = Some l
  /\ App.pendingTimerRef (App.debounce st') = Some (App.nextTimeout (App.window st))
  /\ App.timeouts (App.window st')
     = [App.mkTimeout (App.nextTimeout (App.window st)) (now + 1200) l v]
  /\ App.nextTimeout (App.window st') = App.nextTimeout (App.window st) + 1
  /\ Inv.TimerOwned st'.
Proof.
  intros Hinv.
  assert (Hcore :
    let st' := App.scheduleGesturePrompt v l now st in
    App.pendingGestureRef (App.debounce st') = Some l
    /\ App.pendingTimerRef (App.debounce st') = Some (App.nextTimeout (App.window st))
    /\ App.timeouts (App.window st')
       = [App.mkTimeout (App.nextTimeout (App.window st)) (now + 1200) l v]
    /\ App.nextTimeout (App.window st') = App.nextTimeout (App.window st) + 1).
  { unfold App.scheduleGesturePrompt. simpl.
    destruct (App.pendingTimerRef (App.debounce st)) as [h|] eqn:P; simpl.
    - destruct Hinv as (Hown & Hfresh & _).
      destruct (Hfresh h P) as [Hpos _].
      replace (h =? 0) with false by (symmetry; apply Z.eqb_neq; lia).
      simpl. rewrite filter_handle_all; [simpl; auto|].
      intros t Hin. specialize (Hown t Hin). congruence.
    - rewrite (timer_owned_none st Hinv P). simpl. auto. }
  destruct Hcore as (Hg & Ht & Hq & Hn).
  repeat split; try assumption.
  - intros t Hin. rewrite Hq in Hin. destruct Hin as [<-|[]]. simpl. exact Ht.
  - rewrite Ht in H. injection H as <-. destruct Hinv as (_ & _ & Hpos). lia.
  - rewrite Ht in H. injection H as <-. rewrite Hn. lia.
  - rewrite Hn. destruct Hinv as (_ & _ & Hpos). lia.
Qed.

Lemma gesture_label_passes (l : Js.str) :
  In l App.GestureLabel ->
  Js.truthy l && Js.valueTruthy (App.GESTURE_PROMPTS l) = true.
Proof.
  intros H. apply gesture_label_cases in H.
  destruct H as [->|[->|[->| ->]]]; reflexivity.
Qed.

Lemma observe_gesture (v : App.View) (l : Js.str) (now : Z) (st : App.Store) :
  In l App.GestureLabel ->
  App.observe v (Some l) now st
  = App.scheduleGesturePrompt v l now
      (App.setGestureLatency (Some (now - App.lastCaptureAtRef (App.capture st))) st).
Proof.
  intros H. unfold App.observe. now rewrite (gesture_label_passes l H).
Qed.

Lemma interactions_call (p : Js.str) (st : App.Store) :
  App.interactions (App.call (App.Interact p) st) = App.interactions st ++ [p].
Proof.
  unfold App.interactions, App.call. simpl. now rewrite flat_map_app.
Qed.

(** With a single timeout armed for the pending label, the clock has no
    effect before it is due; once it is due the timeout fires, the
    prompt of the label is dispatched, and nothing stays armed or
    pending. *)
Lemma single_timeout_fires (v : App.View) (l p : Js.str) (h deadline : Z)
  (st : App.Store) :
  App.timeouts (App.window st) = [App.mkTimeout h deadline l v] ->
  App.pendingGestureRef (App.debounce st) = Some l ->
  App.GESTURE_PROMPTS l = Js.Str p ->
  Js.blank p = false ->
  App.serviceRef (App.session st) = true ->
  App.seenStreamingReady v = true ->
  (forall t, t < deadline -> App.advanceTo t st = st)
  /\ (forall t, deadline <= t ->
        let st' := App.advanceTo t st in
        App.interactions st' = App.interactions st ++ [Js.trim p]
        /\ App.timeouts (App.window st') = []
        /\ App.pendingGestureRef (App.debounce st') = None).
Proof.
  intros Hq Hp Hl Hb Hs Hr. split.
  - intros t Ht. unfold App.advanceTo, App.dueAt. rewrite Hq. simpl.
    replace (deadline <=? t) with false by (symmetry; apply Z.leb_gt; lia).
    reflexivity.
  - intros t Ht. unfold App.advanceTo, App.dueAt. rewrite Hq. simpl.
    replace (deadline <=? t) with true by (symmetry; apply Z.leb_le; lia).
    simpl. unfold App.fire, App.gestureTimerCallback. simpl.
    rewrite Hp. simpl. rewrite js_eqb_refl. simpl.
    unfold App.handleInteract. simpl. rewrite Hs, Hr, Hl. simpl.
    rewrite truthy_trim, Hb. simpl.
    rewrite Hq. simpl. rewrite Z.eqb_refl. simpl.
    repeat split.
    unfold App.interactions. simpl. now rewrite flat_map_app.
Qed.

Lemma gesture_prompt (l : Js.str) :
  In l App.GestureLabel ->
  exists p, App.GESTURE_PROMPTS l = Js.Str p /\ Js.blank p = false /\ Js.trim p = p.
Proof.
  intros H. apply gesture_label_cases in H.
  destruct H as [->|[->|[->| ->]]]; eexists; repeat split.
Qed.

Lemma fire_timers (t : App.Timeout) (st : App.Store) :
  let st' := App.fire t st in
  App.timeouts (App.window st')
  = filter (fun x => negb (App.handle x =? App.handle t)) (App.timeouts (App.window st))
  /\ App.nextTimeout (App.window st') = App.nextTimeout (App.window st)
  /\ App.pendingTimerRef (App.debounce st') = App.pendingTimerRef (App.debounce st).
Proof.
  unfold App.fire, App.gestureTimerCallback.
  set (st0 := App.clearTimeout (App.handle t) st).
  destruct (App.pendingDiffers (App.pendingGestureRef (App.debounce st0)) (App.armedLabel t));
    [simpl; auto|].
  destruct (handleInteract_frame (App.armedView t)
              (App.GESTURE_PROMPTS (App.armedLabel t)) st0)
    as (_ & _ & Hd & _ & Hw & _).
  destruct (App.handleInteract (App.armedView t)
              (App.GESTURE_PROMPTS (App.armedLabel t)) st0) as [st1|st1];
    simpl in *; rewrite ?Hw, ?Hd; simpl; auto.
Qed.

Lemma fire_owned (t : App.Timeout) (st : App.Store) :
  Inv.TimerOwned st -> Inv.TimerOwned (App.fire t st).
Proof.
  intros (Hown & Hfresh & Hpos).
  destruct (fire_timers t st) as (Hq & Hn & Hp). simpl in *.
  unfold Inv.TimerOwned. rewrite Hq, Hn, Hp.
  repeat split; try assumption; try (apply Hfresh; assumption).
  intros x Hin. apply filter_In in Hin as [Hin _]. now apply Hown.
Qed.

Lemma advanceTo_owned (now : Z) (st : App.Store) :
  Inv.TimerOwned st -> Inv.TimerOwned (App.advanceTo now st).
Proof.
  unfold App.advanceTo. generalize (App.dueAt now st). intros ts. revert st.
  induction ts as [|t ts IH]; intros st H; simpl; [exact H|].
  apply IH, fire_owned, H.
Qed.

Lemma observe_owned (v : App.View) (l : option Js.str) (now : Z) (st : App.Store) :
  Inv.TimerOwned st -> Inv.TimerOwned (App.observe v l now st).
Proof.
  intros H. unfold App.observe.
  destruct l as [l|]; [|exact H].
  destruct (Js.truthy l && Js.valueTruthy (App.GESTURE_PROMPTS l)); [|exact H].
  apply schedule_owned. exact H.
Qed.

Lemma classifyResumed_owned (v : App.View) (fetched : App.VisionFetched) (now : Z)
  (st : App.Store) :
  Inv.TimerOwned st -> Inv.TimerOwned (App.classifyResumed v fetched now st).
Proof.
  intros H. unfold App.classifyResumed.
  destruct fetched as [|status json]; [exact H|].
  destruct (status =? 429); [destruct json; exact H|].
  destruct (negb (Odyssey.responseOk status)); [exact H|].
  destruct json as [data|]; [|exact H].
  exact (observe_owned v (App.label data) now st H).
Qed.

(** Through every series of events, the armed timeouts are the single
    one the debounce state points to, if any. *)
Lemma run_owned (es : list App.Event) (w : App.World) :
  Inv.TimerOwned (App.store w) -> Inv.TimerOwned (App.store (App.run w es)).
Proof.
  revert w. induction es as [|e es IH]; intros w H; simpl; [exact H|].
  apply IH. destruct e as [v now dataUrl|now fetched|now]; simpl.
  - rewrite classify_admitted. destruct (App.admitted now (App.governor (App.store w)));
      exact H.
  - destruct (App.awaiting w); [exact H|]. now apply classifyResumed_owned.
  - now apply advanceTo_owned.
Qed.

Lemma mounted_owned : Inv.TimerOwned App.mounted.
Proof. repeat split; simpl; intros; try contradiction; try discriminate; lia. Qed.

Lemma streaming_owned : Inv.TimerOwned streamingStore.
Proof. repeat split; simpl; intros; try contradiction; try discriminate; lia. Qed.

(** Observing the label that is pending re-arms the timer: thumbs_up
    observed at 0 arms timeout 1, due at 1200; observed again at 400 it
    replaces it by timeout 2, due at 1600; after a third observation at
    800 nothing is confirmed at 1200, the deadline of the first
    observation, nor at 1999; the one confirmation comes at 2000. *)
Lemma matching_label_resets_deadline :
  let st1 := App.observe streamingView (Some App.thumbs_up) 0 streamingStore in
  let st2 := App.observe streamingView (Some App.thumbs_up) 400 st1 in
  let st3 := App.observe streamingView (Some App.thumbs_up) 800 st2 in
  (App.pendingGestureRef (App.debounce st1) = Some App.thumbs_up
   /\ App.pendingTimerRef (App.debounce st1) = Some 1
   /\ map App.due (App.timeouts (App.window st1)) = [1200])
  /\ (App.pendingTimerRef (App.debounce st2) = Some 2
      /\ map App.handle (App.timeouts (App.window st2)) = [2]
      /\ map App.due (App.timeouts (App.window st2)) = [1600])
  /\ map App.due (App.timeouts (App.window st3)) = [2000]
  /\ App.interactions (App.advanceTo 1200 st3) = []
  /\ App.interactions (App.advanceTo 1999 st3) = []
  /\ App.interactions (App.advanceTo 2000 st3) = [Js.lit "do thumbs up"].
Proof. vm_compute. repeat split. Qed.

(** C1, as amended.  Observing a gesture label always re-arms the
    confirmation timer, also when it is the label already pending:
    whatever was pending and armed before, afterwards the observed label
    is pending and exactly one timeout is armed, a new one, due
    [DEBOUNCE_MS = 1200] after this observation.  Nothing is confirmed
    before that deadline; when it is reached, with the session
    streaming-ready, exactly one confirmed gesture is dispatched (the
    prompt of the label), and nothing stays armed or pending.  So a
    label observed repeatedly is confirmed once, 1200 ms after its last
    observation. *)
Theorem observation_rearms_timer (v : App.View) (l : Js.str) (now : Z) (st : App.Store) :
  Inv.TimerOwned st ->
  In l App.GestureLabel ->
  let st' := App.observe v (Some l) now st in
  App.pendingGestureRef (App.debounce st') = Some l
  /\ App.pendingTimerRef (App.debounce st') = Some (App.nextTimeout (App.window st))
  /\ App.timeouts (App.window st')
     = [App.mkTimeout (App.nextTimeout (App.window st)) (now + 1200) l v]
  /\ Inv.TimerOwned st'
  /\ App.interactions st' = App.interactions st
  /\ (forall t, t < now + 1200 -> App.advanceTo t st' = st')
  /\ (App.serviceRef (App.session st) = true ->
      App.seenStreamingReady v = true ->
      forall t, now + 1200 <= t ->
        (exists p, App.GESTURE_PROMPTS l = Js.Str p
                   /\ App.interactions (App.advanceTo t st') = App.interactions st ++ [p])
        /\ App.timeouts (App.window (App.advanceTo t st')) = []
        /\ App.pendingGestureRef (App.debounce (App.advanceTo t st')) = None).
Proof.
  intros Hinv Hl. cbv zeta.
  rewrite (observe_gesture v l now st Hl).
  pose (st0 := App.setGestureLatency
                 (Some (now - App.lastCaptureAtRef (App.capture st))) st).
  assert (Hinv0 : Inv.TimerOwned st0) by exact Hinv.
  pose proof (schedule_owned v l now st0 Hinv0) as Hsched.
  pose proof (schedule_frame v l now st0) as Hframe.
  cbv zeta in Hsched, Hframe.
  change (App.setGestureLatency
            (Some (now - App.lastCaptureAtRef (App.capture st))) st) with st0.
  remember (App.scheduleGesturePrompt v l now st0) as st' eqn:E. clear E.
  destruct Hsched as (Hp & Ht & Hq & _ & Hown).
  destruct Hframe as (_ & Hs & _ & Hc).
  change (App.nextTimeout (App.window st0)) with (App.nextTimeout (App.window st))
    in Ht, Hq.
  change (App.session st0) with (App.session st) in Hs.
  change (App.calls st0) with (App.calls st) in Hc.
  assert (Hi : App.interactions st' = App.interactions st)
    by (unfold App.interactions; now rewrite Hc).
  destruct (gesture_prompt l Hl) as (p & Hgp & Hb & Htrim).
  split; [exact Hp|]. split; [exact Ht|]. split; [exact Hq|].
  split; [exact Hown|]. split; [exact Hi|]. split.
  - intros t Hlt. unfold App.advanceTo, App.dueAt. rewrite Hq. simpl.
    replace (now + 1200 <=? t) with false by (symmetry; apply Z.leb_gt; lia).
    reflexivity.
  - intros Hsvc Hready t Hdue.
    destruct (single_timeout_fires v l p _ _ st' Hq Hp Hgp Hb) as (_ & Hfire);
      [now rewrite Hs | exact Hready |].
    destruct (Hfire t Hdue) as (Hint & Hnone & Hclear).
    split; [|split; assumption].
    exists p. split; [exact Hgp|]. rewrite Hint, Hi, Htrim. reflexivity.
Qed.

Lemma observation_rearms_timer_witness :
  let st1 := App.observe streamingView (Some App.thumbs_up) 0 streamingStore in
  let st2 := App.observe streamingView (Some App.thumbs_up) 400 st1 in
  App.pendingTimerRef (App.debounce st2) = Some 2
  /\ App.timeouts (App.window st2) = [App.mkTimeout 2 1600 App.thumbs_up streamingView]
  /\ App.advanceTo 1200 st2 = st2
  /\ App.timeouts (App.window (App.advanceTo 1600 st2)) = [].
Proof.
  intros st1 st2.
  assert (H1 : Inv.TimerOwned st1) by (apply observe_owned, streaming_owned).
  assert (Hl : In App.thumbs_up App.GestureLabel) by (simpl; auto).
  destruct (observation_rearms_timer streamingView App.thumbs_up 400 st1 H1 Hl)
    as (_ & Ht & Hq & _ & _ & Hquiet & Hfire).
  split; [exact Ht | split; [exact Hq | split]].
  - apply Hquiet. lia.
  - apply (Hfire eq_refl eq_refl 1600). lia.
Defined.

(* ------------------------------------------------------------------ *)
(** ** Disabling gesture detection *)

(** With a gesture stabilising, [disableGestures] leaves the debounce
    timeout armed and the pending gesture and the governor as they
    were, not as at the start; the timeout still fires and dispatches
    after the loop was disabled. *)
Lemma disable_keeps_debounce_and_governor :
  let st := App.disableGestures busyStore in
  App.timeouts (App.window st)
    = [App.mkTimeout 1 101500 App.thumbs_up streamingView]
  /\ App.debounce st = App.mkDebounce (Some App.thumbs_up) (Some 1)
  /\ App.debounce st <> App.debounce App.mounted
  /\ App.governor st = App.mkGovernor 100000 false 0
  /\ App.governor st <> App.governor App.mounted
  /\ App.interactions (App.advanceTo 101500 st) = [Js.lit "do thumbs up"].
Proof.
  vm_compute. repeat split; discriminate.
Qed.

Lemma not_in_cancelled (h : Z) (l : list Z) :
  ~ In h (filter (fun f => negb (f =? h)) l).
Proof.
  intros Hin. apply filter_In in Hin as [_ Hne].
  now rewrite Z.eqb_refl in Hne.
Qed.

Lemma not_in_stopped (t : Z) (tracks l : list Z) :
  In t tracks -> ~ In t (filter (fun x => negb (existsb (Z.eqb x) tracks)) l).
Proof.
  intros Ht Hin. apply filter_In in Hin as [_ Hne].
  apply negb_true_iff in Hne.
  assert (existsb (Z.eqb t) tracks = true)
    by (apply existsb_exists; exists t; split; [assumption | apply Z.eqb_refl]).
  congruence.
Qed.

(** C4, as amended.  [disableGestures] turns the loop off: the flag is
    cleared and the status says so; the animation-frame callback that
    [detectFrameRef] holds is cancelled and the ref is cleared; the
    camera's tracks are stopped and its source is cleared.  It is safe
    with nothing pending: with no frame requested and no camera source
    it changes nothing in the browser.  The debounce state (pending
    gesture, timer handle, armed timeouts), the governor state, the
    session and the calls are left exactly as they were. *)
Theorem disableGestures_effect (st : App.Store) :
  let st' := App.disableGestures st in
  App.gesturesEnabled (App.capture st') = false
  /\ App.gestureStatus (App.capture st') = Js.lit "Gesture detection off"
  /\ (forall h,
        App.detectFrameRef (App.capture st) = Some h -> h <> 0 ->
        ~ In h (App.frames (App.window st'))
        /\ App.detectFrameRef (App.capture st') = None)
  /\ (forall tracks,
        App.cameraRef (App.capture st) = Some (Some tracks) ->
        App.cameraRef (App.capture st') = Some None
        /\ forall t, In t tracks -> ~ In t (App.liveTracks (App.window st')))
  /\ (App.detectFrameRef (App.capture st) = None ->
      App.cameraRef (App.capture st) <> None ->
      (forall tracks, App.cameraRef (App.capture st) <> Some (Some tracks)) ->
      App.window st' = App.window st
      /\ App.detectFrameRef (App.capture st') = None
      /\ App.cameraRef (App.capture st') = Some None)
  /\ App.debounce st' = App.debounce st
  /\ App.timeouts (App.window st') = App.timeouts (App.window st)
  /\ App.governor st' = App.governor st
  /\ App.session st' = App.session st
  /\ App.calls st' = App.calls st.
Proof.
  unfold App.disableGestures. simpl.
  destruct (App.detectFrameRef (App.capture st)) as [h|] eqn:F; simpl;
    [destruct (h =? 0) eqn:Z0; simpl|];
    (destruct (App.cameraRef (App.capture st)) as [[tracks|]|] eqn:C; simpl);
    repeat match goal with |- _ /\ _ => split end;
    try reflexivity.
  all: try (intros h' [= <-] Hne; apply Z.eqb_eq in Z0; contradiction).
  all: try (intros h' [= <-] Hne; split; [apply not_in_cancelled | reflexivity]).
  all: try (intros tr [= <-]; split;
            [reflexivity | intros t Ht; now apply not_in_stopped]).
  all: try (intros ? ?; discriminate).
  all: try (intros ? ? ?; discriminate).
  all: try (intros _ _ Hno; now destruct (Hno tracks)).
  all: try (intros _ Hno _; now destruct Hno).
  all: intros _ _ _; repeat split; assumption.
Qed.

Lemma disableGestures_effect_witness :
  let st' := App.disableGestures busyStore in
  App.frames (App.window st') = []
  /\ ~ In 1 (App.frames (App.window st'))
  /\ App.cameraRef (App.capture st') = Some None
  /\ ~ In 10 (App.liveTracks (App.window st'))
  /\ App.window (App.disableGestures streamingStore) = App.window streamingStore.
Proof.
  intros st'.
  pose proof (disableGestures_effect busyStore)
    as (_ & _ & Hframe & Hcam & _).
  pose proof (disableGestures_effect streamingStore)
    as (_ & _ & _ & _ & Hidle & _).
  split; [reflexivity|].
  split; [apply (Hframe 1 eq_refl); lia|].
  destruct (Hcam [10] eq_refl) as (Hsrc & Hstop).
  split; [exact Hsrc|].
  split; [apply Hstop; simpl; auto|].
  apply Hidle; [reflexivity | discriminate | discriminate].
Defined.

(* ------------------------------------------------------------------ *)
(** ** Token guard *)

Lemma streamsStarted_call (c : App.Call) (st : App.Store) :
  App.streamsStarted (App.call c st)
  = (App.streamsStarted st + if App.isStartStream c then 1 else 0)%nat.
Proof.
  unfold App.streamsStarted, App.call. simpl.
  rewrite filter_app, length_app. simpl. now destruct (App.isStartStream c).
Qed.

Lemma runRejected_stale (k : App.Run) (err : Js.thrown) (st : App.Store) :
  App.requestIdRef (App.session st) <> App.requestId k ->
  App.runRejected k err st = st.
Proof.
  intros H. unfold App.runRejected.
  now replace (App.requestIdRef (App.session st) =? App.requestId k) with false
    by (symmetry; apply Z.eqb_neq; exact H).
Qed.

(** A run whose token is not the current one: resuming it, whatever it
    awaits and whatever that settled to, neither touches the session nor
    starts a stream. *)
Lemma resume_stale (k : App.Run) (o : App.Settled) (st : App.Store) :
  App.requestIdRef (App.session st) <> App.requestId k ->
  App.session (fst (App.resume k o st)) = App.session st
  /\ App.streamsStarted (fst (App.resume k o st)) = App.streamsStarted st
  /\ (forall k', snd (App.resume k o st) = Some k' -> App.requestId k' = App.requestId k).
Proof.
  intros H. unfold App.resume.
  assert (E : (App.requestIdRef (App.session st) =? App.requestId k) = false)
    by (apply Z.eqb_neq; exact H).
  destruct (App.phase k), o as [|fetched|[err|]]; simpl;
    try (repeat split; intros k' [= <-]; reflexivity).
  - rewrite streamsStarted_call. simpl.
    repeat split; [lia | intros k' [= <-]; reflexivity].
  - destruct (Odyssey.loadImageFile fetched _) as [err|file]; simpl.
    + rewrite (runRejected_stale k err st H). repeat split. discriminate.
    + rewrite E. simpl. repeat split. discriminate.
  - rewrite (runRejected_stale k err st H). repeat split. discriminate.
Qed.

Lemma resumeAll_stale (os : list App.Settled) (k : App.Run) (st : App.Store) :
  App.requestIdRef (App.session st) <> App.requestId k ->
  App.session (App.resumeAll k os st) = App.session st
  /\ App.streamsStarted (App.resumeAll k os st) = App.streamsStarted st.
Proof.
  revert k st. induction os as [|o os IH]; intros k st H; simpl; [auto|].
  destruct (resume_stale k o st H) as (Hs & Hc & Hk).
  destruct (App.resume k o st) as [st' [k'|]]; simpl in *; [|auto].
  destruct (IH k' st') as (Hs' & Hc'); [rewrite Hs, (Hk k' eq_refl); exact H|].
  split; congruence.
Qed.

Lemma settle_stale (token : Z) (o : App.Settled) (runs : list App.Run) (st : App.Store) :
  App.requestIdRef (App.session st) <> token ->
  App.session (fst (SessionLoop.settle token o runs st)) = App.session st
  /\ App.streamsStarted (fst (SessionLoop.settle token o runs st)) = App.streamsStarted st.
Proof.
  intros H. induction runs as [|k rest IH]; simpl; [auto|].
  destruct (App.requestId k =? token) eqn:E.
  - apply Z.eqb_eq in E. subst token.
    destruct (resume_stale k o st H) as (Hs & Hc & _).
    destruct (App.resume k o st) as [st' [k'|]]; simpl in *; auto.
  - destruct (SessionLoop.settle token o rest st) as [st' rest']. simpl in *. exact IH.
Qed.

(** Resuming a run never changes the current token. *)
Lemma resume_token (k : App.Run) (o : App.Settled) (st : App.Store) :
  App.requestIdRef (App.session (fst (App.resume k o st)))
  = App.requestIdRef (App.session st).
Proof.
  unfold App.resume, App.runRejected.
  destruct (App.phase k), o as [|fetched|[err|]]; simpl; try reflexivity.
  - destruct (Odyssey.loadImageFile fetched _) as [err|file]; simpl;
      destruct (negb (App.requestIdRef (App.session st) =? App.requestId k));
      reflexivity.
  - destruct (negb (App.requestIdRef (App.session st) =? App.requestId k));
      reflexivity.
Qed.

Lemma settle_token (token : Z) (o : App.Settled) (runs : list App.Run) (st : App.Store) :
  App.requestIdRef (App.session (fst (SessionLoop.settle token o runs st)))
  = App.requestIdRef (App.session st).
Proof.
  induction runs as [|k rest IH]; simpl; [reflexivity|].
  destruct (App.requestId k =? token).
  - pose proof (resume_token k o st) as H.
    destruct (App.resume k o st) as [st' [k'|]]; exact H.
  - destruct (SessionLoop.settle token o rest st) as [st' rest']. exact IH.
Qed.

(** The slide effect mints the next token, or does nothing. *)
Lemma slideEffect_mints (sl : App.Slide) (st st' : App.Store) (k : App.Run) :
  App.slideEffect sl st = (st', Some k) ->
  App.requestId k = App.requestIdRef (App.session st) + 1
  /\ App.requestIdRef (App.session st') = App.requestId k
  /\ App.phase k = App.AwaitEndStream.
Proof.
  unfold App.slideEffect.
  destruct (negb (App.serviceRef (App.session st))
            || negb (ConnectionStatus.eqb (App.connectionStatus (App.session st))
                                          ConnectionStatus.connected));
    [discriminate|].
  intros [= <- <-]. simpl. auto.
Qed.

Lemma slideEffect_token (sl : App.Slide) (st : App.Store) :
  App.requestIdRef (App.session st)
  <= App.requestIdRef (App.session (fst (App.slideEffect sl st))).
Proof.
  unfold App.slideEffect.
  destruct (negb (App.serviceRef (App.session st))
            || negb (ConnectionStatus.eqb (App.connectionStatus (App.session st))
                                          ConnectionStatus.connected));
    simpl; lia.
Qed.

(** Tokens never decrease. *)
Lemma step_token (w : SessionLoop.World) (e : SessionLoop.Event) :
  App.requestIdRef (App.session (SessionLoop.store w))
  <= App.requestIdRef (App.session (SessionLoop.store (SessionLoop.step w e))).
Proof.
  destruct e as [sl|status| | |reason message|message|token o|v p|err]; simpl;
    try lia.
  - pose proof (slideEffect_token sl (SessionLoop.store w)) as H.
    destruct (App.slideEffect sl (SessionLoop.store w)) as [st [k|]]; exact H.
  - pose proof (settle_token token o (SessionLoop.suspended w) (SessionLoop.store w)) as H.
    destruct (SessionLoop.settle token o (SessionLoop.suspended w) (SessionLoop.store w))
      as [st runs].
    simpl in *. lia.
  - destruct (handleInteract_frame v p (SessionLoop.store w)) as (_ & Hs & _).
    simpl in Hs. rewrite Hs. lia.
Qed.

Lemma run_token (es : list SessionLoop.Event) (w : SessionLoop.World) :
  App.requestIdRef (App.session (SessionLoop.store w))
  <= App.requestIdRef (App.session (SessionLoop.store (SessionLoop.run w es))).
Proof.
  revert w. induction es as [|e es IH]; intros w; simpl; [lia|].
  pose proof (step_token w e). pose proof (IH (SessionLoop.step w e)). lia.
Qed.

Lemma step_settle_store (w : SessionLoop.World) (token : Z) (o : App.Settled) :
  SessionLoop.store (SessionLoop.step w (SessionLoop.Settle token o))
  = fst (SessionLoop.settle token o (SessionLoop.suspended w) (SessionLoop.store w)).
Proof.
  simpl.
  now destruct (SessionLoop.settle token o (SessionLoop.suspended w) (SessionLoop.store w)).
Qed.

(** C2. Token guard.  Let a run have been captured under token T1, in
    whatever phase it is suspended (awaiting the end of the prior
    stream, the image load, or the stream start), and let a newer token
    T2 be minted by a slide change.  From then on T1's continuation
    never calls [startStream] and never changes the session (stream
    state, streaming-ready flag, error, connection status): not when it
    is resumed next, whatever its awaited operation settled to, success
    or failure; not through all its remaining resumptions; and not at
    any later time, whatever events (further slide changes, service
    callbacks, dispatches, settlements of other runs) happen in
    between.  The stale result is dropped without a trace. *)
Theorem token_guard
  (w0 : SessionLoop.World) (sl : App.Slide) (k1 k2 : App.Run) (st : App.Store) :
  App.requestId k1 <= App.requestIdRef (App.session (SessionLoop.store w0)) ->
  App.slideEffect sl (SessionLoop.store w0) = (st, Some k2) ->
  App.requestId k1 < App.requestId k2
  /\ SessionLoop.store (SessionLoop.step w0 (SessionLoop.Navigate sl)) = st
  /\ (forall o,
        App.session (fst (App.resume k1 o st)) = App.session st
        /\ App.streamsStarted (fst (App.resume k1 o st)) = App.streamsStarted st)
  /\ (forall os,
        App.session (App.resumeAll k1 os st) = App.session st
        /\ App.streamsStarted (App.resumeAll k1 os st) = App.streamsStarted st)
  /\ (forall es o,
        let w' := SessionLoop.run (SessionLoop.step w0 (SessionLoop.Navigate sl)) es in
        let w'' := SessionLoop.step w' (SessionLoop.Settle (App.requestId k1) o) in
        App.session (SessionLoop.store w'') = App.session (SessionLoop.store w')
        /\ App.streamsStarted (SessionLoop.store w'')
           = App.streamsStarted (SessionLoop.store w')).
Proof.
  intros Hold Hmint.
  destruct (slideEffect_mints sl _ st k2 Hmint) as (Hk2 & Hcur & _).
  assert (Hstale : App.requestIdRef (App.session st) <> App.requestId k1) by lia.
  assert (Hstore : SessionLoop.store (SessionLoop.step w0 (SessionLoop.Navigate sl)) = st)
    by (simpl; now rewrite Hmint).
  split; [lia|]. split; [exact Hstore|]. split; [|split].
  - intros o. destruct (resume_stale k1 o st Hstale) as (Hs & Hc & _). auto.
  - intros os. apply resumeAll_stale. exact Hstale.
  - intros es o w' w''. unfold w''. rewrite step_settle_store.
    apply settle_stale.
    pose proof (run_token es (SessionLoop.step w0 (SessionLoop.Navigate sl))) as Hmono.
    fold w' in Hmono. rewrite Hstore in Hmono. lia.
Qed.

(** Two slide changes in a row on a connected session: the first run is
    still awaiting the end of the prior stream when the second token is
    minted. *)
Lemma token_guard_witness :
  let w0 := SessionLoop.step (SessionLoop.mkWorld connectedStore [])
                             (SessionLoop.Navigate demoSlide) in
  let k1 := App.mkRun 1 demoSlide App.AwaitEndStream in
  let w := SessionLoop.step w0 (SessionLoop.Navigate demoSlide2) in
  let image := Odyssey.FetchResolved
                 (Odyssey.mkHttpResponse 200 (Js.lit "OK")
                    (inr (Odyssey.mkBlob [Byte.x89] (Js.lit "image/png")))) in
  App.requestIdRef (App.session (SessionLoop.store w)) = 2
  /\ App.streamsStarted
       (App.resumeAll k1 [App.EndStreamSettled; App.ImageSettled image]
                      (SessionLoop.store w)) = 0%nat
  /\ App.session
       (SessionLoop.store
          (SessionLoop.step
             (SessionLoop.run w [SessionLoop.Settle 1 App.EndStreamSettled;
                                 SessionLoop.StreamStarted])
             (SessionLoop.Settle 1 (App.ImageSettled image))))
     = App.session
         (SessionLoop.store
            (SessionLoop.run w [SessionLoop.Settle 1 App.EndStreamSettled;
                                SessionLoop.StreamStarted])).
Proof.
  intros w0 k1 w image.
  assert (Hold : App.requestId k1 <= App.requestIdRef (App.session (SessionLoop.store w0)))
    by (vm_compute; discriminate).
  destruct (token_guard w0 demoSlide2 k1 (App.mkRun 2 demoSlide2 App.AwaitEndStream)
              (SessionLoop.store w) Hold eq_refl)
    as (_ & _ & _ & Hall & Hlater).
  split; [reflexivity|]. split.
  - destruct (Hall [App.EndStreamSettled; App.ImageSettled image]) as (_ & Hc).
    rewrite Hc. reflexivity.
  - apply (Hlater [SessionLoop.Settle 1 App.EndStreamSettled; SessionLoop.StreamStarted]
                  (App.ImageSettled image)).
Defined.

(** When the newer token is minted while T1's stream start is already
    in flight, the [startStream] call T1 made before stands; the
    rejection of that call is then dropped, the session stays as the
    newer sequence set it. *)
Example newer_token_during_stream_start :
  let image := Odyssey.FetchResolved
                 (Odyssey.mkHttpResponse 200 (Js.lit "OK")
                    (inr (Odyssey.mkBlob [Byte.x89] (Js.lit "image/png")))) in
  let w1 := SessionLoop.run (SessionLoop.mkWorld connectedStore [])
              [SessionLoop.Navigate demoSlide;
               SessionLoop.Settle 1 App.EndStreamSettled;
               SessionLoop.Settle 1 (App.ImageSettled image)] in
  let w2 := SessionLoop.step w1 (SessionLoop.Navigate demoSlide2) in
  let w3 := SessionLoop.step w2
              (SessionLoop.Settle 1
                 (App.StartStreamSettled (Some (Js.ErrorObject (Js.lit "aborted"))))) in
  map App.phase (SessionLoop.suspended w1) = [App.AwaitStartStream]
  /\ App.streamsStarted (SessionLoop.store w1) = 1%nat
  /\ App.streamsStarted (SessionLoop.store w3) = 1%nat
  /\ App.session (SessionLoop.store w3) = App.session (SessionLoop.store w2)
  /\ App.streamState (App.session (SessionLoop.store w3)) = StreamState.starting
  /\ App.error (App.session (SessionLoop.store w3)) = None.
Proof. vm_compute. repeat split. Qed.

(* ------------------------------------------------------------------ *)
(** ** The classification endpoint and the client, end to end *)

(** Whatever the endpoint replies, unless the reply carries a gesture
    label the client's debounce state, browser state and calls are as
    before. *)
Lemma reply_without_gesture_keeps_debounce
  (toLowerCase : Js.str -> Js.str) (model : Js.str -> Js.str -> Boundary.Generated)
  (apiKey : option Js.str) (method : Js.str) (image mimeType : option Js.str)
  (v : App.View) (now : Z) (st : App.Store) :
  let reply :=
    Boundary.gestureVisionHandler toLowerCase model apiKey method image mimeType in
  (forall l, Boundary.body reply = Boundary.LabelBody l -> ~ In l App.GestureLabel) ->
  let st' := App.classifyResumed v (Boundary.asFetched reply) now st in
  App.debounce st' = App.debounce st
  /\ App.window st' = App.window st
  /\ App.calls st' = App.calls st.
Proof.
  unfold Boundary.gestureVisionHandler.
  destruct (negb (Js.eqb method (Js.lit "POST"))); [simpl; auto|].
  destruct (negb (Boundary.keyPresent apiKey)); [simpl; auto|].
  destruct (negb (Js.truthy (Boundary.field image []))); [simpl; auto|].
  unfold Boundary.classify.
  destruct (model _ _) as [[[|code|]|]|text]; try (simpl; auto; fail).
  - destruct code as [c|c|]; try (simpl; auto; fail);
      repeat (destruct c as [c|c|]; try (simpl; auto; fail)).
  - intros Hno. specialize (Hno _ eq_refl).
    unfold Boundary.asFetched. cbn [Boundary.status Boundary.body].
    rewrite classifyResumed_ok. cbn [App.label].
    rewrite (observe_delivered toLowerCase v _ now st); [simpl; auto| |exact Hno].
    now exists text.
Qed.

(** The endpoint's 429 reply makes the client wait 10000 ms. *)
Lemma rate_limited_reply_backs_off
  (toLowerCase : Js.str -> Js.str) (model : Js.str -> Js.str -> Boundary.Generated)
  (mimeType image : Js.str) (v : App.View) (now : Z) (st : App.Store) :
  model mimeType image = Boundary.GenerateRejected (Some 429) ->
  App.visionRetryAtRef
    (App.governor
       (App.classifyResumed v
          (Boundary.asFetched (Boundary.classify toLowerCase model mimeType image))
          now st))
  = now + 10000.
Proof.
  intros H. unfold Boundary.classify. rewrite H. reflexivity.
Qed.

(* ================================================================== *)
(** * Further properties *)

(* ------------------------------------------------------------------ *)
(** ** Trimming *)

Lemma trimStart_headClean (s : Js.str) : Trace.headClean (Js.trimStart s).
Proof.
  induction s as [|c r IH]; simpl; [exact I|].
  destruct (Js.isWhiteSpace c) eqn:E; [exact IH | exact E].
Qed.

Lemma trimStart_fixed (s : Js.str) : Trace.headClean s -> Js.trimStart s = s.
Proof. destruct s as [|c r]; simpl; [reflexivity|]. now intros ->. Qed.

Lemma trimStart_suffix (s : Js.str) : exists p, s = p ++ Js.trimStart s.
Proof.
  induction s as [|c r [p IH]]; simpl; [now exists []|].
  destruct (Js.isWhiteSpace c).
  - exists (c :: p). simpl. now rewrite <- IH.
  - now exists [].
Qed.

Lemma trimEnd_prefix (s : Js.str) : exists q, s = Js.trimEnd s ++ q.
Proof.
  unfold Js.trimEnd. destruct (trimStart_suffix (rev s)) as [p H].
  exists (rev p). apply (f_equal (@rev N)) in H.
  now rewrite rev_involutive, rev_app_distr in H.
Qed.

Lemma trimEnd_headClean (s : Js.str) : Trace.headClean s -> Trace.headClean (Js.trimEnd s).
Proof.
  intros H. destruct (trimEnd_prefix s) as [q E].
  destruct (Js.trimEnd s) as [|c r]; [exact I|].
  rewrite E in H. exact H.
Qed.

Lemma trim_fixed (s : Js.str) :
  Trace.headClean s -> Trace.headClean (rev s) -> Js.trim s = s.
Proof.
  intros Hh Ht. unfold Js.trim, Js.trimEnd.
  rewrite (trimStart_fixed s Hh), (trimStart_fixed (rev s) Ht).
  apply rev_involutive.
Qed.

Lemma trim_clean (s : Js.str) : Trace.headClean (Js.trim s) /\ Trace.headClean (rev (Js.trim s)).
Proof.
  split.
  - apply trimEnd_headClean, trimStart_headClean.
  - unfold Js.trim, Js.trimEnd. rewrite rev_involutive. apply trimStart_headClean.
Qed.

(** [trim] is idempotent, and what it returns neither starts nor ends
    with a whitespace code unit. *)
Lemma trim_idempotent (s : Js.str) :
  Js.trim (Js.trim s) = Js.trim s
  /\ (forall c r, Js.trim s = c :: r -> Js.isWhiteSpace c = false)
  /\ (forall c r, Js.trim s = r ++ [c] -> Js.isWhiteSpace c = false).
Proof.
  destruct (trim_clean s) as [Hh Ht].
  split; [now apply trim_fixed|]. split.
  - intros c r E. rewrite E in Hh. exact Hh.
  - intros c r E. rewrite E, rev_app_distr in Ht. exact Ht.
Qed.

(* ------------------------------------------------------------------ *)
(** ** Slide navigation *)

Lemma handleNext_mod (n i : Z) :
  0 < n -> 0 <= i -> Nav.handleNext n i = (i + 1) mod n.
Proof. intros Hn Hi. unfold Nav.handleNext. apply Z.rem_mod_nonneg; lia. Qed.

Lemma handlePrev_mod (n i : Z) :
  0 < n -> 0 <= i -> Nav.handlePrev n i = (i - 1 + n) mod n.
Proof. intros Hn Hi. unfold Nav.handlePrev. apply Z.rem_mod_nonneg; lia. Qed.

(** X1. Slide navigation stays on the deck and is invertible: with at
    least one slide and the index on the deck, [handleNext] and
    [handlePrev] give an index on the deck (the last slide's next is the
    first, the first slide's previous the last), and each undoes the
    other. *)
Theorem navigation_in_range (slideCount index : Z) :
  0 < slideCount ->
  0 <= index < slideCount ->
  0 <= Nav.handleNext slideCount index < slideCount
  /\ 0 <= Nav.handlePrev slideCount index < slideCount
  /\ Nav.handleNext slideCount index
     = (if index =? slideCount - 1 then 0 else index + 1)
  /\ Nav.handlePrev slideCount index
     = (if index =? 0 then slideCount - 1 else index - 1)
  /\ Nav.handlePrev slideCount (Nav.handleNext slideCount index) = index
  /\ Nav.handleNext slideCount (Nav.handlePrev slideCount index) = index.
Proof.
  intros Hn Hi.
  assert (Hnext : Nav.handleNext slideCount index
                  = if index =? slideCount - 1 then 0 else index + 1).
  { rewrite handleNext_mod by lia.
    destruct (index =? slideCount - 1) eqn:E.
    - apply Z.eqb_eq in E. replace (index + 1) with slideCount by lia.
      apply Z.mod_same. lia.
    - apply Z.eqb_neq in E. apply Z.mod_small. lia. }
  assert (Hprev : Nav.handlePrev slideCount index
                  = if index =? 0 then slideCount - 1 else index - 1).
  { rewrite handlePrev_mod by lia.
    destruct (index =? 0) eqn:E.
    - apply Z.eqb_eq in E. subst index.
      replace (0 - 1 + slideCount) with (slideCount - 1) by lia.
      apply Z.mod_small. lia.
    - apply Z.eqb_neq in E.
      replace (index - 1 + slideCount) with (index - 1 + 1 * slideCount) by lia.
      rewrite Z.mod_add by lia. apply Z.mod_small. lia. }
  assert (Hnr : 0 <= Nav.handleNext slideCount index < slideCount)
    by (rewrite Hnext; destruct (index =? slideCount - 1) eqn:E;
        [|apply Z.eqb_neq in E]; lia).
  assert (Hpr : 0 <= Nav.handlePrev slideCount index < slideCount)
    by (rewrite Hprev; destruct (index =? 0) eqn:E;
        [|apply Z.eqb_neq in E]; lia).
  repeat split; try lia; try assumption.
  - rewrite Hnext. destruct (index =? slideCount - 1) eqn:E.
    + apply Z.eqb_eq in E. rewrite handlePrev_mod by lia.
      replace (0 - 1 + slideCount) with index by lia. apply Z.mod_small. lia.
    + apply Z.eqb_neq in E. rewrite handlePrev_mod by lia.
      replace (index + 1 - 1 + slideCount) with (index + 1 * slideCount) by lia.
      rewrite Z.mod_add by lia. apply Z.mod_small. lia.
  - rewrite Hprev. destruct (index =? 0) eqn:E.
    + apply Z.eqb_eq in E. subst index. rewrite handleNext_mod by lia.
      replace (slideCount - 1 + 1) with slideCount by lia. apply Z.mod_same. lia.
    + apply Z.eqb_neq in E. rewrite handleNext_mod by lia.
      replace (index - 1 + 1) with index by lia. apply Z.mod_small. lia.
Qed.

Lemma navigation_in_range_witness :
  Nav.handleNext 5 4 = 0 /\ Nav.handlePrev 5 0 = 4
  /\ Nav.handlePrev 5 (Nav.handleNext 5 4) = 4.
Proof.
  destruct (navigation_in_range 5 4 ltac:(lia) ltac:(lia))
    as (_ & _ & Hn & _ & Hpn & _).
  destruct (navigation_in_range 5 0 ltac:(lia) ltac:(lia))
    as (_ & _ & _ & Hp & _ & _).
  split; [exact Hn | split; [exact Hp | exact Hpn]].
Defined.

Lemma nextTimes_mod (k : nat) (n i : Z) :
  0 < n -> 0 <= i -> Nav.nextTimes k n i = (i + Z.of_nat k) mod n \/ k = O.
Proof.
  intros Hn. revert i. induction k as [|k IH]; intros i Hi; [now right|].
  left. simpl Nav.nextTimes.
  assert (Hh : 0 <= Nav.handleNext n i).
  { rewrite handleNext_mod by lia. apply Z.mod_pos_bound. lia. }
  destruct (IH (Nav.handleNext n i) Hh) as [E| ->].
  - rewrite E, handleNext_mod by lia.
    rewrite Zplus_mod_idemp_l. f_equal. lia.
  - simpl. rewrite handleNext_mod by lia. f_equal.
Qed.

(** X2. Going forward through the whole deck comes back to the slide
    one started from: [handleNext] pressed [slideCount] times is the
    identity on the deck. *)
Theorem navigation_full_circle (slideCount index : Z) :
  0 < slideCount ->
  0 <= index < slideCount ->
  Nav.nextTimes (Z.to_nat slideCount) slideCount index = index.
Proof.
  intros Hn Hi.
  destruct (nextTimes_mod (Z.to_nat slideCount) slideCount index Hn) as [E|E]; [lia| |lia].
  rewrite E, Z2Nat.id by lia.
  replace (index + slideCount) with (index + 1 * slideCount) by lia.
  rewrite Z.mod_add by lia. apply Z.mod_small. lia.
Qed.

Lemma navigation_full_circle_witness : Nav.nextTimes (Z.to_nat 3) 3 1 = 1.
Proof. apply navigation_full_circle; lia. Defined.

(* ------------------------------------------------------------------ *)
(** ** The typed prompt *)

Lemma handleInteract_string (v : App.View) (p : Js.str) (st : App.Store) :
  App.handleInteract v (Js.Str p) st
  = App.Normal
      (if App.serviceRef (App.session st) && App.seenStreamingReady v
          && negb (Js.blank p)
       then App.call (App.Interact (Js.trim p)) st
       else st).
Proof.
  unfold App.handleInteract. simpl.
  destruct (App.serviceRef (App.session st)); simpl; [|reflexivity].
  destruct (App.seenStreamingReady v); simpl; [|reflexivity].
  rewrite truthy_trim. now destruct (Js.blank p).
Qed.

Lemma blank_trim (s : Js.str) : Js.blank (Js.trim s) = Js.blank s.
Proof.
  destruct (Js.blank s) eqn:E.
  - apply trim_nil_iff in E. now rewrite E.
  - destruct (Js.blank (Js.trim s)) eqn:T; [|reflexivity].
    apply trim_nil_iff in T. rewrite (proj1 (trim_idempotent s)) in T.
    apply trim_nil_iff in T. congruence.
Qed.

(** X3. Submitting the typed prompt: a blank text changes nothing and
    stays in the input; any other text is cleared from the input, and
    exactly its trimmed form is forwarded to [interact] when the service
    exists and the handler sees the session streaming-ready;
    otherwise the text is cleared all the same and nothing is sent. *)
Theorem text_prompt_submit (v : App.View) (text : Js.str) (st : App.Store) :
  (Js.blank text = true ->
     Prompt.handleTextPromptSubmit v text st = (text, st))
  /\ (Js.blank text = false ->
      App.serviceRef (App.session st) && App.seenStreamingReady v = true ->
     Prompt.handleTextPromptSubmit v text st
       = ([], App.call (App.Interact (Js.trim text)) st))
  /\ (Js.blank text = false ->
      App.serviceRef (App.session st) && App.seenStreamingReady v = false ->
     Prompt.handleTextPromptSubmit v text st = ([], st)).
Proof.
  unfold Prompt.handleTextPromptSubmit.
  rewrite truthy_trim, handleInteract_string, blank_trim,
    (proj1 (trim_idempotent text)).
  repeat split; intros Hb; rewrite Hb; simpl; [reflexivity| |];
    intros ->; reflexivity.
Qed.

Lemma text_prompt_submit_witness :
  Prompt.handleTextPromptSubmit streamingView (Js.lit "  ") streamingStore
    = (Js.lit "  ", streamingStore)
  /\ Prompt.handleTextPromptSubmit streamingView (Js.lit " snow ") streamingStore
    = ([], App.call (App.Interact (Js.trim (Js.lit " snow "))) streamingStore)
  /\ Prompt.handleTextPromptSubmit (App.viewOf demoSlide connectedStore)
       (Js.lit " snow ") connectedStore
    = ([], connectedStore).
Proof.
  split; [|split].
  - apply (proj1 (text_prompt_submit streamingView (Js.lit "  ") streamingStore)).
    reflexivity.
  - apply (proj1 (proj2 (text_prompt_submit streamingView (Js.lit " snow ")
                                            streamingStore))); reflexivity.
  - apply (proj2 (proj2 (text_prompt_submit (App.viewOf demoSlide connectedStore)
                                            (Js.lit " snow ") connectedStore)));
      reflexivity.
Defined.

(* ------------------------------------------------------------------ *)
(** ** The API key *)

(** X4. Saving the API key.  A blank input stores nothing: key and
    storage are as before and an error is shown.  Any other input is
    stored trimmed, becomes the key, empties the input and clears the
    error, and the connect effect that follows creates the service and
    calls [connect] with no error shown.  On a later mount without a key
    from the environment the storage effect restores exactly that key
    and the service connects with it; but the connect effect has first
    run in the render without key and reported the missing key, and
    that message stays until the slide effect clears it once the
    connection is up. *)
Theorem save_key_round_trip (k : Setup.Keys) (st : App.Store) :
  (Js.blank (Setup.keyInput k) = true ->
     Setup.handleSaveKey k st
     = (k, App.setError (Some (Js.lit "Please enter a valid Odyssey API key.")) st))
  /\ (Js.blank (Setup.keyInput k) = false ->
      let key := Js.trim (Setup.keyInput k) in
      let k' := fst (Setup.handleSaveKey k st) in
      let st' := snd (Setup.handleSaveKey k st) in
      let connecting := App.connectEffect (Setup.apiKey k') st' in
      k' = Setup.mkKeys (Some key) [] (Some key)
      /\ App.error (App.session st') = None
      /\ App.serviceRef (App.session connecting) = true
      /\ App.calls connecting = App.calls st ++ [App.Connect]
      /\ App.error (App.session connecting) = None
      /\ forall st0,
           let later := Setup.mount None (Setup.storedItem k') st0 in
           Setup.apiKey (fst later) = Some key
           /\ App.serviceRef (App.session (snd later)) = true
           /\ App.calls (snd later) = App.calls st0 ++ [App.Connect]
           /\ App.error (App.session (snd later))
              = Some (Js.lit "Missing Odyssey API key. Add it in the overlay or set VITE_ODYSSEY_API_KEY in .env.")
           /\ forall sl,
                App.error
                  (App.session
                     (fst (App.slideEffect sl
                             (App.onStatusChange ConnectionStatus.connected (snd later)))))
                = None).
Proof.
  unfold Setup.handleSaveKey. rewrite truthy_trim.
  split; intros Hb; rewrite Hb; simpl; [reflexivity|].
  assert (Ht : Js.truthy (Js.trim (Setup.keyInput k)) = true)
    by (now rewrite truthy_trim, Hb).
  unfold Setup.mount, Setup.storedKeyEffect. simpl. rewrite Ht. simpl.
  destruct (Js.trim (Setup.keyInput k)) as [|c key]; [discriminate|].
  repeat split.
Qed.

Lemma save_key_round_trip_witness :
  let saved := Setup.handleSaveKey (Setup.mkKeys None (Js.lit " ody_1 ") None) App.mounted in
  let later := Setup.mount None (Setup.storedItem (fst saved)) App.mounted in
  Setup.storedItem
    (fst (Setup.handleSaveKey (Setup.mkKeys None (Js.lit "  ") None) App.mounted))
  = None
  /\ Setup.apiKey (fst later) = Some (Js.trim (Js.lit " ody_1 "))
  /\ App.calls (snd later) = [App.Connect]
  /\ App.error (App.session (snd later))
     = Some (Js.lit "Missing Odyssey API key. Add it in the overlay or set VITE_ODYSSEY_API_KEY in .env.").
Proof.
  intros saved later. split.
  - rewrite (proj1 (save_key_round_trip (Setup.mkKeys None (Js.lit "  ") None)
                                        App.mounted) eq_refl).
    reflexivity.
  - destruct (proj2 (save_key_round_trip (Setup.mkKeys None (Js.lit " ody_1 ") None)
                                         App.mounted) eq_refl)
      as (_ & _ & _ & _ & _ & Hlater).
    destruct (Hlater App.mounted) as (Hkey & _ & Hcalls & Herr & _).
    split; [exact Hkey | split; [exact Hcalls | exact Herr]].
Defined.

(* ------------------------------------------------------------------ *)
(** ** The classification endpoints *)

Lemma labelOf_known (toLowerCase : Js.str -> Js.str) (text : option Js.str) :
  In (Boundary.labelOf toLowerCase text) Boundary.knownLabels.
Proof.
  unfold Boundary.labelOf.
  match goal with
  | |- context [Js.mem ?t Boundary.knownLabels] =>
      destruct (Js.mem t Boundary.knownLabels) eqn:M
  end.
  - now apply js_mem_In in M.
  - simpl. auto 10.
Qed.

(** X5. The classification endpoints answer with a label of the closed
    set or ['none'], whatever the model returns and however the platform
    lower-cases it: a reply of the vision handler or of the feature
    route carries a label only with status 200, that label is one of
    the five, and every 200 reply carries one. *)
Theorem classification_labels_closed
  (toLowerCase : Js.str -> Js.str)
  (vision : Js.str -> Js.str -> Boundary.Generated)
  (features : Js.str -> Boundary.Generated)
  (apiKey : option Js.str) (method : Js.str) (image mimeType feature : option Js.str) :
  let reply := Boundary.gestureVisionHandler toLowerCase vision apiKey method
                 image mimeType in
  let reply' := Routes.gestureRoute toLowerCase features apiKey feature in
  (forall l, Boundary.body reply = Boundary.LabelBody l ->
             Boundary.status reply = 200 /\ In l Boundary.knownLabels)
  /\ (Boundary.status reply = 200 ->
      exists l, Boundary.body reply = Boundary.LabelBody l /\ In l Boundary.knownLabels)
  /\ (forall l, Boundary.body reply' = Boundary.LabelBody l ->
                Boundary.status reply' = 200 /\ In l Boundary.knownLabels)
  /\ (Boundary.status reply' = 200 ->
      exists l, Boundary.body reply' = Boundary.LabelBody l /\ In l Boundary.knownLabels).
Proof.
  cbv zeta. unfold Boundary.gestureVisionHandler, Routes.gestureRoute, Boundary.classify.
  split; [|split; [|split]].
  - destruct (negb (Js.eqb method (Js.lit "POST"))); [discriminate|].
    destruct (negb (Boundary.keyPresent apiKey)); [discriminate|].
    destruct (negb (Js.truthy (Boundary.field image []))); [discriminate|].
    destruct (vision _ _) as [[[|code|]|]|text]; try discriminate.
    + destruct code as [c|c|]; try discriminate;
        repeat (destruct c as [c|c|]; try discriminate).
    + intros l [= <-]. split; [reflexivity | apply labelOf_known].
  - destruct (negb (Js.eqb method (Js.lit "POST"))); [discriminate|].
    destruct (negb (Boundary.keyPresent apiKey)); [discriminate|].
    destruct (negb (Js.truthy (Boundary.field image []))); [discriminate|].
    destruct (vision _ _) as [[[|code|]|]|text]; try discriminate.
    + destruct code as [c|c|]; try discriminate;
        repeat (destruct c as [c|c|]; try discriminate).
    + intros _. eexists. split; [reflexivity | apply labelOf_known].
  - destruct (negb (Boundary.keyPresent apiKey)); [discriminate|].
    destruct (negb (Js.truthy (Boundary.field feature []))); [discriminate|].
    destruct (features _) as [s|text]; [discriminate|].
    intros l [= <-]. split; [reflexivity | apply labelOf_known].
  - destruct (negb (Boundary.keyPresent apiKey)); [discriminate|].
    destruct (negb (Js.truthy (Boundary.field feature []))); [discriminate|].
    destruct (features _) as [s|text]; [discriminate|].
    intros _. eexists. split; [reflexivity | apply labelOf_known].
Qed.

Lemma classification_labels_closed_witness :
  exists l,
    Boundary.body
      (Boundary.gestureVisionHandler (fun s => s)
         (fun _ _ => Boundary.GenerateResolved (Some (Js.lit " Fist ")))
         (Some (Js.lit "k")) (Js.lit "POST") (Some (Js.lit "AAAA")) None)
    = Boundary.LabelBody l
    /\ In l Boundary.knownLabels.
Proof.
  apply (proj1 (proj2 (classification_labels_closed (fun s => s)
           (fun _ _ => Boundary.GenerateResolved (Some (Js.lit " Fist ")))
           (fun _ => Boundary.GenerateRejected None)
           (Some (Js.lit "k")) (Js.lit "POST") (Some (Js.lit "AAAA")) None None))).
  reflexivity.
Defined.

Lemma field_truthy (x : option Js.str) :
  Js.truthy (Boundary.field x [])
  = negb (Js.blank (match x with Some s => s | None => [] end)).
Proof. unfold Boundary.field. apply truthy_trim. Qed.

(** X6. The guards of the vision handler come in a fixed order and
    none of them consults the model: any method but POST is answered
    405 with [Allow: POST], even without key or image; a POST without
    the server's key is answered 500; a POST with the key and a
    missing or blank image is answered 400. *)
Theorem vision_handler_guards
  (toLowerCase : Js.str -> Js.str) (model : Js.str -> Js.str -> Boundary.Generated)
  (apiKey : option Js.str) (method : Js.str) (image mimeType : option Js.str) :
  let reply := Boundary.gestureVisionHandler toLowerCase model apiKey method
                 image mimeType in
  (method <> Js.lit "POST" ->
     reply = Boundary.mkReply 405 (Some (Js.lit "POST"))
               (Boundary.ErrorBody (Js.lit "Method not allowed") None))
  /\ (method = Js.lit "POST" -> Boundary.keyPresent apiKey = false ->
     reply = Boundary.mkReply 500 None
               (Boundary.ErrorBody (Js.lit "Missing GEMINI_API_KEY on server.") None))
  /\ (method = Js.lit "POST" -> Boundary.keyPresent apiKey = true ->
      Js.blank (match image with Some s => s | None => [] end) = true ->
     reply = Boundary.mkReply 400 None
               (Boundary.ErrorBody (Js.lit "Missing image.") None)).
Proof.
  cbv zeta. unfold Boundary.gestureVisionHandler. split; [|split].
  - intros H. apply js_eqb_neq in H. now rewrite H.
  - intros -> ->. reflexivity.
  - intros -> -> Hb. rewrite field_truthy, Hb. reflexivity.
Qed.

Lemma vision_handler_guards_witness :
  let model := fun (_ _ : Js.str) => Boundary.GenerateResolved (Some (Js.lit "hello")) in
  Boundary.status
    (Boundary.gestureVisionHandler (fun s => s) model None (Js.lit "GET") None None)
  = 405
  /\ Boundary.status
       (Boundary.gestureVisionHandler (fun s => s) model None (Js.lit "POST")
          (Some (Js.lit "AAAA")) None)
     = 500
  /\ Boundary.status
       (Boundary.gestureVisionHandler (fun s => s) model (Some (Js.lit "k"))
          (Js.lit "POST") (Some (Js.lit "  ")) None)
     = 400.
Proof.
  intros model. split; [|split].
  - rewrite (proj1 (vision_handler_guards (fun s => s) model None (Js.lit "GET")
                                          None None)); [reflexivity | discriminate].
  - rewrite (proj1 (proj2 (vision_handler_guards (fun s => s) model None
                             (Js.lit "POST") (Some (Js.lit "AAAA")) None)));
      reflexivity.
  - rewrite (proj2 (proj2 (vision_handler_guards (fun s => s) model
                             (Some (Js.lit "k")) (Js.lit "POST")
                             (Some (Js.lit "  ")) None)));
      reflexivity.
Defined.



(** X8. Rate limiting end to end.  When the model rejects the vision
    call with status 429, the handler answers 429 with [retryAfterMs]
    10000, and the client, handling that answer at [now], will not send
    before [now + 10000]; any other rejection is answered 500 and leaves
    the client's retry deadline where it was.  The feature route
    answers every rejection, a 429 too, with 500. *)
Theorem rate_limit_end_to_end
  (toLowerCase : Js.str -> Js.str)
  (vision : Js.str -> Js.str -> Boundary.Generated)
  (features : Js.str -> Boundary.Generated)
  (apiKey : option Js.str) (image mimeType feature : option Js.str)
  (errorStatus : option Z) (v : App.View) (now : Z) (st : App.Store) :
  Boundary.keyPresent apiKey = true ->
  Js.blank (match image with Some s => s | None => [] end) = false ->
  vision (Boundary.field mimeType (Js.lit "image/jpeg")) (Boundary.field image [])
    = Boundary.GenerateRejected errorStatus ->
  let reply := Boundary.gestureVisionHandler toLowerCase vision apiKey (Js.lit "POST")
                 image mimeType in
  let st' := App.classifyResumed v (Boundary.asFetched reply) now st in
  (errorStatus = Some 429 ->
     reply = Boundary.mkReply 429 None
               (Boundary.ErrorBody (Js.lit "Rate limited") (Some 10000))
     /\ App.visionRetryAtRef (App.governor st') = now + 10000
     /\ forall now' dataUrl,
          now' < now + 10000 -> App.classifyGestureFromFrame now' dataUrl st' = None)
  /\ (errorStatus <> Some 429 ->
     reply = Boundary.mkReply 500 None
               (Boundary.ErrorBody (Js.lit "Gesture classification failed.") None)
     /\ App.visionRetryAtRef (App.governor st') = App.visionRetryAtRef (App.governor st)
     /\ App.debounce st' = App.debounce st)
  /\ (Js.blank (match feature with Some s => s | None => [] end) = false ->
      features (Boundary.field feature []) = Boundary.GenerateRejected errorStatus ->
      Routes.gestureRoute toLowerCase features apiKey feature
      = Boundary.mkReply 500 None
          (Boundary.ErrorBody (Js.lit "Gesture classification failed.") None)).
Proof.
  intros Hkey Himg Hmodel. cbv zeta.
  unfold Boundary.gestureVisionHandler, Boundary.classify. simpl (negb (Js.eqb _ _)).
  cbv iota. rewrite Hkey, field_truthy, Himg, Hmodel. simpl negb. cbv iota.
  split; [|split].
  - intros ->. split; [reflexivity|]. split; [reflexivity|].
    intros now' dataUrl Hlt. apply classify_blocked. right; left. exact Hlt.
  - intros Hne.
    assert (E : match errorStatus with
                | Some 429 =>
                    Boundary.mkReply 429 None
                      (Boundary.ErrorBody (Js.lit "Rate limited") (Some 10000))
                | _ =>
                    Boundary.mkReply 500 None
                      (Boundary.ErrorBody (Js.lit "Gesture classification failed.") None)
                end
                = Boundary.mkReply 500 None
                    (Boundary.ErrorBody (Js.lit "Gesture classification failed.") None)).
    { destruct errorStatus as [[|code|]|]; try reflexivity.
      destruct code as [c|c|]; try reflexivity;
        repeat (destruct c as [c|c|]; try reflexivity).
      now destruct Hne. }
    rewrite E. repeat split.
  - intros Hf Hm. unfold Routes.gestureRoute.
    rewrite Hkey, field_truthy, Hf, Hm. reflexivity.
Qed.

Lemma rate_limit_end_to_end_witness :
  let vision := fun (_ _ : Js.str) => Boundary.GenerateRejected (Some 429) in
  let reply := Boundary.gestureVisionHandler (fun s => s) vision (Some (Js.lit "k"))
                 (Js.lit "POST") (Some (Js.lit "AAAA")) None in
  Boundary.status reply = 429
  /\ App.classifyGestureFromFrame 109999 (Js.lit "data:,")
       (App.classifyResumed streamingView (Boundary.asFetched reply) 100000 busyStore)
     = None.
Proof.
  intros vision reply.
  destruct (rate_limit_end_to_end (fun s => s) vision
              (fun _ => Boundary.GenerateRejected None)
              (Some (Js.lit "k")) (Some (Js.lit "AAAA")) None None (Some 429)
              streamingView 100000 busyStore eq_refl eq_refl eq_refl)
    as (H429 & _ & _).
  destruct (H429 eq_refl) as (Hreply & _ & Hblock).
  split.
  - unfold reply. rewrite Hreply. reflexivity.
  - apply Hblock. lia.
Defined.

(** X9. How the vision handler reads its body.  A body the platform
    already parsed to an object is used as it is: the raw stream and
    [JSON.parse] play no part.  Otherwise an empty raw body, and one
    that [JSON.parse] rejects, count as the empty object: with POST and
    the key set the answer is 400 'Missing image.', not a 500. *)
Theorem vision_body_reading
  (toLowerCase : Js.str -> Js.str) (parse : Js.str -> option Routes.Json)
  (model : Js.str -> Js.str -> Boundary.Generated)
  (apiKey : option Js.str) (raw : Js.str) :
  (forall method image mimeType,
      method = Js.lit "POST" -> Boundary.keyPresent apiKey = true ->
      Routes.gestureVision toLowerCase parse model apiKey method
        (Some (Routes.JObject image mimeType)) raw
      = Some (Boundary.gestureVisionHandler toLowerCase model apiKey method
                image mimeType))
  /\ (forall reqBody,
        Boundary.keyPresent apiKey = true ->
        (forall image mimeType, reqBody <> Some (Routes.JObject image mimeType)) ->
        raw = [] \/ parse raw = None ->
        Routes.gestureVision toLowerCase parse model apiKey (Js.lit "POST") reqBody raw
        = Some (Boundary.mkReply 400 None
                  (Boundary.ErrorBody (Js.lit "Missing image.") None))).
Proof.
  split.
  - intros method image mimeType -> Hkey. unfold Routes.gestureVision.
    simpl (negb (Js.eqb _ _)). cbv iota. now rewrite Hkey.
  - intros reqBody Hkey Hno Hraw. unfold Routes.gestureVision.
    simpl (negb (Js.eqb _ _)). cbv iota. rewrite Hkey. simpl negb. cbv iota.
    assert (E : Routes.readJson parse reqBody raw = Routes.JObject None None).
    { unfold Routes.readJson.
      destruct reqBody as [[|image mimeType|]|];
        try (now destruct (Hno image mimeType));
        (destruct Hraw as [->|Hp]; [reflexivity|];
         rewrite Hp; now destruct (negb (Js.truthy raw))). }
    rewrite E. unfold Boundary.gestureVisionHandler.
    simpl (negb (Js.eqb _ _)). cbv iota. now rewrite Hkey.
Qed.

Lemma vision_body_reading_witness :
  Routes.gestureVision (fun s => s) (fun _ => None)
    (fun _ _ => Boundary.GenerateResolved (Some (Js.lit "hello")))
    (Some (Js.lit "k")) (Js.lit "POST") None (Js.lit "{oops")
  = Some (Boundary.mkReply 400 None (Boundary.ErrorBody (Js.lit "Missing image.") None)).
Proof.
  apply (proj2 (vision_body_reading (fun s => s) (fun _ => None)
                  (fun _ _ => Boundary.GenerateResolved (Some (Js.lit "hello")))
                  (Some (Js.lit "k")) (Js.lit "{oops"))).
  - reflexivity.
  - discriminate.
  - now right.
Defined.

(* ------------------------------------------------------------------ *)
(** ** The transcription boundary *)

Lemma transcriptOf_clean (text : option Js.str) :
  Js.trim (Boundary.transcriptOf text) = Boundary.transcriptOf text.
Proof.
  destruct text as [t|]; simpl; [apply trim_idempotent | reflexivity].
Qed.

(** X10. A transcript leaves the boundary trimmed: whenever the handler
    of api/stt.js or the route of server/index.js answers with a
    [text], it is the model's text without leading or trailing
    whitespace (the empty string when the model gave no text), so
    trimming it again changes nothing. *)
Theorem transcript_is_trimmed
  (model : Js.str -> list Byte.byte -> Boundary.Generated) (apiKey : option Js.str)
  (method : Js.str) (mp : Boundary.Multipart) (file : option Boundary.Upload)
  (t : Js.str) :
  (Boundary.body (Boundary.sttHandler model apiKey method mp) = Boundary.TextBody t ->
     Js.trim t = t
     /\ exists mimeType audio text,
          model mimeType audio = Boundary.GenerateResolved text
          /\ t = match text with Some s => Js.trim s | None => [] end)
  /\ (Boundary.body (Boundary.sttRoute model apiKey file) = Boundary.TextBody t ->
     Js.trim t = t
     /\ exists mimeType audio text,
          model mimeType audio = Boundary.GenerateResolved text
          /\ t = match text with Some s => Js.trim s | None => [] end).
Proof.
  split.
  - unfold Boundary.sttHandler.
    destruct (negb (Js.eqb method (Js.lit "POST"))); [discriminate|].
    destruct (negb (Boundary.keyPresent apiKey)); [discriminate|].
    destruct (Boundary.readMultipartAudio mp) as [[buffer mimeType]|]; [|discriminate].
    destruct buffer as [|b buffer]; [discriminate|].
    destruct (model mimeType (b :: buffer)) as [s|text] eqn:E; [discriminate|].
    intros [= <-]. split; [apply transcriptOf_clean|].
    exists mimeType, (b :: buffer), text. split; [exact E | reflexivity].
  - unfold Boundary.sttRoute.
    destruct (negb (Boundary.keyPresent apiKey)); [discriminate|].
    destruct file as [f|]; [|discriminate].
    match goal with |- context [model ?m ?a] => destruct (model m a) as [s|text] eqn:E end;
      [discriminate|].
    intros [= <-]. split; [apply transcriptOf_clean|].
    eexists _, _, text. split; [exact E | reflexivity].
Qed.

Lemma transcript_is_trimmed_witness :
  Js.trim (Js.lit "make it snow") = Js.lit "make it snow".
Proof.
  apply (proj1 (proj1 (transcript_is_trimmed
           (fun _ _ => Boundary.GenerateResolved (Some (Js.lit "  make it snow ")))
           (Some (Js.lit "k")) (Js.lit "POST")
           (Boundary.Parts [Boundary.mkFilePart None [Byte.x01]]) None
           (Js.lit "make it snow")) eq_refl)).
Defined.

Lemma cutAt_length (limit : Z) (data : list Byte.byte) :
  Z.of_nat (List.length (Boundary.cutAt limit data)) <= Z.max 0 limit.
Proof.
  revert limit. induction data as [|b rest IH]; intros limit; simpl; [lia|].
  destruct (limit <=? 0) eqn:E; simpl; [lia|].
  apply Z.leb_gt in E. specialize (IH (limit - 1)). lia.
Qed.

Lemma cutAt_all (limit : Z) (data : list Byte.byte) :
  Z.of_nat (List.length data) <= limit -> Boundary.cutAt limit data = data.
Proof.
  revert limit. induction data as [|b rest IH]; intros limit H; simpl; [reflexivity|].
  simpl in H. replace (limit <=? 0) with false by (symmetry; apply Z.leb_gt; lia).
  f_equal. apply IH. lia.
Qed.

Lemma readMultipartAudio_fold (files : list Boundary.FilePart)
  (acc r : list Byte.byte * Js.str) :
  Z.of_nat (List.length (fst acc)) <= Boundary.fileSizeLimit ->
  snd acc <> [] ->
  fold_left
    (fun acc part =>
       (Boundary.cutAt Boundary.fileSizeLimit (Boundary.partData part),
        match Boundary.partMime part with
        | Some (c :: m) => c :: m
        | _ => snd acc
        end))
    files acc = r ->
  Z.of_nat (List.length (fst r)) <= Boundary.fileSizeLimit
  /\ snd r <> []
  /\ ((forall part, In part files ->
         Boundary.partMime part = None \/ Boundary.partMime part = Some []) ->
      snd r = snd acc).
Proof.
  revert acc. induction files as [|part files IH]; intros acc Hl Hm; cbn [fold_left].
  - intros <-. auto.
  - intros E. apply IH in E; cbn [fst snd].
    + destruct E as (H1 & H2 & H3). split; [exact H1|]. split; [exact H2|].
      intros Hnone. rewrite H3 by (intros p Hp; apply Hnone; now right).
      cbn [snd]. destruct (Hnone part (or_introl eq_refl)) as [-> | ->]; reflexivity.
    + pose proof (cutAt_length Boundary.fileSizeLimit (Boundary.partData part)) as H.
      unfold Boundary.fileSizeLimit in *. lia.
    + destruct (Boundary.partMime part) as [[|c m]|]; [exact Hm | discriminate | exact Hm].
Qed.

(** X11. What [readMultipartAudio] hands on is bounded and typed: the
    buffer is never longer than 15 MiB, however large the parts of the
    upload, and the MIME type is never empty (['audio/webm'] when no
    part names one). *)
Theorem multipart_audio_bounded (files : list Boundary.FilePart)
  (buffer : list Byte.byte) (mimeType : Js.str) :
  Boundary.readMultipartAudio (Boundary.Parts files) = Some (buffer, mimeType) ->
  Z.of_nat (List.length buffer) <= 15 * 1024 * 1024
  /\ mimeType <> []
  /\ ((forall part, In part files ->
         Boundary.partMime part = None \/ Boundary.partMime part = Some []) ->
      mimeType = Js.lit "audio/webm").
Proof.
  unfold Boundary.readMultipartAudio. intros E.
  assert (E' : fold_left
                 (fun acc part =>
                    (Boundary.cutAt Boundary.fileSizeLimit (Boundary.partData part),
                     match Boundary.partMime part with
                     | Some (c :: m) => c :: m
                     | _ => snd acc
                     end))
                 files ([], Js.lit "audio/webm") = (buffer, mimeType))
    by (injection E as E; exact E).
  assert (H0 : Z.of_nat (List.length (@nil Byte.byte)) <= Boundary.fileSizeLimit)
    by (unfold Boundary.fileSizeLimit; simpl; lia).
  assert (H1 : Js.lit "audio/webm" <> []) by discriminate.
  exact (readMultipartAudio_fold files ([], Js.lit "audio/webm") (buffer, mimeType)
           H0 H1 E').
Qed.

Lemma multipart_audio_bounded_witness :
  Z.of_nat (List.length [Byte.x01; Byte.x02]) <= 15 * 1024 * 1024
  /\ Js.lit "audio/ogg" <> [].
Proof.
  destruct (multipart_audio_bounded
              [Boundary.mkFilePart (Some (Js.lit "audio/ogg")) [Byte.x01; Byte.x02]]
              [Byte.x01; Byte.x02] (Js.lit "audio/ogg") eq_refl) as (Hl & Hm & _).
  split; assumption.
Defined.

(** X12. The two transcription boundaries agree on a recording that has
    audio: for a blob that is not empty and within 15 MiB, the handler
    of api/stt.js on the client's form and the route of server/index.js
    on the same upload give the same reply, whatever the key, the model
    and the parser's reading of the part's content type. *)
Theorem stt_boundaries_agree
  (contentType : Js.str -> Js.str)
  (model : Js.str -> list Byte.byte -> Boundary.Generated) (apiKey : option Js.str)
  (blob : Odyssey.Blob) :
  Odyssey.blobBytes blob <> [] ->
  Odyssey.blobSize blob <= 15 * 1024 * 1024 ->
  Boundary.sttHandler model apiKey (Js.lit "POST") (Routes.formOf contentType blob)
  = Boundary.sttRoute model apiKey (Some (Routes.uploadOf contentType blob)).
Proof.
  intros Hne Hsize. unfold Boundary.sttHandler, Boundary.sttRoute.
  simpl (negb (Js.eqb _ _)). cbv iota.
  destruct (negb (Boundary.keyPresent apiKey)); [reflexivity|].
  unfold Routes.formOf, Routes.uploadOf, Boundary.readMultipartAudio.
  cbn [fold_left Boundary.partData Boundary.partMime Boundary.buffer
         Boundary.mimetype snd].
  rewrite cutAt_all by (unfold Boundary.fileSizeLimit; exact Hsize).
  destruct (Odyssey.blobBytes blob) as [|b rest]; [now destruct Hne|].
  destruct (contentType (Routes.partType blob)) as [|c m]; reflexivity.
Qed.

Lemma stt_boundaries_agree_witness :
  let model := fun (_ : Js.str) (_ : list Byte.byte) =>
                 Boundary.GenerateResolved (Some (Js.lit " hi ")) in
  let blob := Odyssey.mkBlob [Byte.x01] (Js.lit "audio/webm") in
  Boundary.sttHandler model (Some (Js.lit "k")) (Js.lit "POST")
    (Routes.formOf (fun s => s) blob)
  = Boundary.sttRoute model (Some (Js.lit "k")) (Some (Routes.uploadOf (fun s => s) blob)).
Proof.
  intros model blob. apply stt_boundaries_agree.
  - discriminate.
  - unfold Odyssey.blobSize. simpl. lia.
Defined.

(** X13. Where the two differ: an upload that is present but empty.
    With the key set, the handler of api/stt.js answers it 400 without
    consulting the model; the route of server/index.js sends the empty
    audio to the model and answers 200 or 500 with what the model
    does, never 400. *)
Theorem empty_upload_differs
  (contentType : Js.str -> Js.str)
  (model : Js.str -> list Byte.byte -> Boundary.Generated) (apiKey : option Js.str)
  (mimeType : Js.str) :
  Boundary.keyPresent apiKey = true ->
  let blob := Odyssey.mkBlob [] mimeType in
  Boundary.sttHandler model apiKey (Js.lit "POST") (Routes.formOf contentType blob)
  = Boundary.mkReply 400 None (Boundary.ErrorBody (Js.lit "Missing audio file.") None)
  /\ Boundary.sttRoute model apiKey (Some (Routes.uploadOf contentType blob))
     = match model (Routes.sentType contentType blob) [] with
       | Boundary.GenerateRejected _ =>
           Boundary.mkReply 500 None
             (Boundary.ErrorBody (Js.lit "Transcription failed.") None)
       | Boundary.GenerateResolved text =>
           Boundary.mkReply 200 None (Boundary.TextBody (Boundary.transcriptOf text))
       end
  /\ Boundary.status
       (Boundary.sttRoute model apiKey (Some (Routes.uploadOf contentType blob)))
     <> 400.
Proof.
  intros Hkey blob. unfold Boundary.sttHandler, Boundary.sttRoute.
  simpl (negb (Js.eqb _ _)). cbv iota. rewrite Hkey. simpl negb. cbv iota.
  split; [reflexivity|].
  unfold Routes.uploadOf, Routes.sentType.
  cbn [Boundary.buffer Boundary.mimetype Odyssey.blobBytes blob].
  split; [reflexivity|].
  match goal with |- context [model ?a []] => destruct (model a []) end;
    simpl; discriminate.
Qed.

Lemma empty_upload_differs_witness :
  Boundary.status
    (Boundary.sttRoute (fun _ _ => Boundary.GenerateRejected (Some 400))
       (Some (Js.lit "k"))
       (Some (Routes.uploadOf (fun s => s) (Odyssey.mkBlob [] (Js.lit "audio/webm")))))
  <> 400.
Proof.
  apply (proj2 (proj2 (empty_upload_differs (fun s => s)
           (fun _ _ => Boundary.GenerateRejected (Some 400))
           (Some (Js.lit "k")) (Js.lit "audio/webm") eq_refl))).
Defined.

(* ------------------------------------------------------------------ *)
(** ** Image loading and the slide change *)

(** X14. What [loadImageFile] returns and what it passes on.  A file
    is returned only for an ok response whose body was read; it is
    never larger than 25 MiB and its type is never empty.  A rejected
    fetch, and a rejected read of the body of an ok response, are thrown
    on unchanged. *)
Theorem loaded_file_bounded (fetched : Odyssey.Fetched) (name : option Js.str) :
  (forall file,
      Odyssey.loadImageFile fetched name = inr file ->
      Z.of_nat (List.length (Odyssey.fileBytes file)) <= 25 * 1024 * 1024
      /\ Odyssey.fileType file <> []
      /\ exists response blob,
           fetched = Odyssey.FetchResolved response
           /\ Odyssey.responseOk (Odyssey.httpStatus response) = true
           /\ Odyssey.blobRead response = inr blob
           /\ Odyssey.fileBytes file = Odyssey.blobBytes blob)
  /\ (forall err,
        fetched = Odyssey.FetchRejected err ->
        Odyssey.loadImageFile fetched name = inl err)
  /\ (forall response err,
        fetched = Odyssey.FetchResolved response ->
        Odyssey.responseOk (Odyssey.httpStatus response) = true ->
        Odyssey.blobRead response = inl err ->
        Odyssey.loadImageFile fetched name = inl err).
Proof.
  unfold Odyssey.loadImageFile. split; [|split].
  - intros file. destruct fetched as [err|response]; [discriminate|].
    destruct (Odyssey.responseOk (Odyssey.httpStatus response)) eqn:Hok;
      simpl; [|discriminate].
    destruct (Odyssey.blobRead response) as [err|blob] eqn:Hblob; [discriminate|].
    destruct (Odyssey.MAX_IMAGE_BYTES <? Odyssey.blobSize blob) eqn:Hsize;
      [discriminate|].
    intros [= <-]. simpl. apply Z.ltb_ge in Hsize.
    unfold Odyssey.MAX_IMAGE_BYTES, Odyssey.blobSize in Hsize.
    split; [exact Hsize|]. split.
    + destruct (Odyssey.blobType blob) eqn:T; simpl; discriminate.
    + exists response, blob. auto.
  - intros err ->. reflexivity.
  - intros response err -> -> ->. reflexivity.
Qed.

Lemma loaded_file_bounded_witness :
  Odyssey.loadImageFile (Odyssey.FetchRejected (Js.ErrorObject (Js.lit "offline"))) None
  = inl (Js.ErrorObject (Js.lit "offline")).
Proof.
  apply (proj1 (proj2 (loaded_file_bounded
           (Odyssey.FetchRejected (Js.ErrorObject (Js.lit "offline"))) None))).
  reflexivity.
Defined.

(** X15. The slide change of the current token, when its image load
    settles.  If the load throws (fetch rejected, response not ok, body
    too large), no stream is started and the session shows the failure:
    stream state [error], not streaming-ready, the error's message in
    the error cell.  If it returns a file, the session is untouched and
    exactly one [startStream] is called, with the slide's prompt and
    that file. *)
Theorem image_load_outcome (k : App.Run) (fetched : Odyssey.Fetched) (st : App.Store) :
  App.phase k = App.AwaitLoadImage ->
  App.requestIdRef (App.session st) = App.requestId k ->
  let loaded := Odyssey.loadImageFile fetched
                  (Some (App.id (App.slide k) ++ Js.lit ".png")) in
  let st' := fst (App.resume k (App.ImageSettled fetched) st) in
  (forall err, loaded = inl err ->
     App.streamState (App.session st') = StreamState.error
     /\ App.isStreamingReady (App.session st') = false
     /\ App.error (App.session st') = Some (Js.describe err)
     /\ App.calls st' = App.calls st
     /\ snd (App.resume k (App.ImageSettled fetched) st) = None)
  /\ (forall file, loaded = inr file ->
     App.session st' = App.session st
     /\ App.calls st' = App.calls st ++ [App.StartStream (App.prompt (App.slide k)) file]
     /\ snd (App.resume k (App.ImageSettled fetched) st)
        = Some (App.mkRun (App.requestId k) (App.slide k) App.AwaitStartStream))
  /\ (forall response,
        fetched = Odyssey.FetchResolved response ->
        Odyssey.responseOk (Odyssey.httpStatus response) = false ->
        App.streamState (App.session st') = StreamState.error
        /\ App.streamsStarted st' = App.streamsStarted st).
Proof.
  intros Hphase Htoken. cbv zeta. unfold App.resume. rewrite Hphase.
  split; [|split].
  - intros err ->. unfold App.runRejected. rewrite Htoken, Z.eqb_refl. simpl. auto.
  - intros file ->. rewrite Htoken, Z.eqb_refl. simpl. auto.
  - intros response -> Hok. unfold Odyssey.loadImageFile. rewrite Hok. simpl.
    unfold App.runRejected. rewrite Htoken, Z.eqb_refl. simpl. auto.
Qed.

Lemma image_load_outcome_witness :
  let k := App.mkRun 1 demoSlide App.AwaitLoadImage in
  let st := fst (App.slideEffect demoSlide connectedStore) in
  let gone := Odyssey.FetchResolved
                (Odyssey.mkHttpResponse 404 (Js.lit "Not Found")
                   (inr (Odyssey.mkBlob [] []))) in
  App.streamState (App.session (fst (App.resume k (App.ImageSettled gone) st)))
  = StreamState.error
  /\ App.streamsStarted (fst (App.resume k (App.ImageSettled gone) st))
     = App.streamsStarted st.
Proof.
  intros k st gone.
  apply (proj2 (proj2 (image_load_outcome k gone st eq_refl eq_refl))
           (Odyssey.mkHttpResponse 404 (Js.lit "Not Found") (inr (Odyssey.mkBlob [] []))));
    reflexivity.
Defined.

(* ------------------------------------------------------------------ *)
(** ** The session through its events *)

Lemma settle_starts (token : Z) (o : App.Settled) (runs : list App.Run) (st : App.Store) :
  App.streamsStarted (fst (SessionLoop.settle token o runs st)) <> App.streamsStarted st ->
  token = App.requestIdRef (App.session st).
Proof.
  intros H. destruct (Z.eq_dec (App.requestIdRef (App.session st)) token) as [E|E];
    [now symmetry|].
  destruct (settle_stale token o runs st E) as (_ & Hc). contradiction.
Qed.

(** X16. Only the slide change that holds the current token can start a
    stream.  Whatever the state of the session and its suspended runs,
    no event raises the number of [startStream] calls except the
    settlement of an operation awaited by the run whose token is the
    current one; slide changes, service callbacks, dispatches and the
    settlements of older runs never start a stream. *)
Theorem only_current_token_starts (w : SessionLoop.World) (e : SessionLoop.Event) :
  App.streamsStarted (SessionLoop.store (SessionLoop.step w e))
    <> App.streamsStarted (SessionLoop.store w) ->
  exists o, e = SessionLoop.Settle
                  (App.requestIdRef (App.session (SessionLoop.store w))) o.
Proof.
  destruct e as [sl|status| | |reason message|message|token o|v p|err];
    try (intros H; now destruct H).
  - simpl. unfold App.slideEffect.
    destruct (negb (App.serviceRef (App.session (SessionLoop.store w)))
              || negb (ConnectionStatus.eqb
                         (App.connectionStatus (App.session (SessionLoop.store w)))
                         ConnectionStatus.connected)); simpl;
      [intros H; now destruct H|].
    rewrite streamsStarted_call. simpl. intros H. exfalso. apply H.
    unfold App.streamsStarted. simpl. lia.
  - rewrite step_settle_store. intros H. apply settle_starts in H. subst token.
    now exists o.
  - simpl. intros H. exfalso. apply H. unfold App.handleInteract.
    destruct (negb (App.serviceRef (App.session (SessionLoop.store w)))
              || negb (App.seenStreamingReady v)); [reflexivity|].
    destruct (Js.nullish p (Js.Str (App.cta (App.seenSlide v)))) as [|q|];
      [reflexivity| |reflexivity].
    destruct (negb (Js.truthy (Js.trim q))); [reflexivity|].
    simpl. rewrite streamsStarted_call. simpl. lia.
Qed.

Lemma only_current_token_starts_witness :
  let image := Odyssey.FetchResolved
                 (Odyssey.mkHttpResponse 200 (Js.lit "OK")
                    (inr (Odyssey.mkBlob [Byte.x89] (Js.lit "image/png")))) in
  let w := SessionLoop.run (SessionLoop.mkWorld connectedStore [])
             [SessionLoop.Navigate demoSlide;
              SessionLoop.Settle 1 App.EndStreamSettled] in
  exists o, SessionLoop.Settle 1 (App.ImageSettled image)
            = SessionLoop.Settle (App.requestIdRef (App.session (SessionLoop.store w))) o.
Proof.
  intros image w.
  apply (only_current_token_starts w (SessionLoop.Settle 1 (App.ImageSettled image))).
  vm_compute. discriminate.
Defined.

Lemma resume_ready (k : App.Run) (o : App.Settled) (st : App.Store) :
  Trace.ReadyIsStreaming st -> Trace.ReadyIsStreaming (fst (App.resume k o st)).
Proof.
  unfold Trace.ReadyIsStreaming, App.resume, App.runRejected. intros H.
  destruct (App.phase k), o as [|fetched|[err|]]; simpl; try exact H.
  - destruct (Odyssey.loadImageFile fetched _) as [err|file]; simpl;
      destruct (negb (App.requestIdRef (App.session st) =? App.requestId k));
      simpl; try exact H; discriminate.
  - destruct (negb (App.requestIdRef (App.session st) =? App.requestId k));
      simpl; try exact H; discriminate.
Qed.

Lemma settle_ready (token : Z) (o : App.Settled) (runs : list App.Run) (st : App.Store) :
  Trace.ReadyIsStreaming st ->
  Trace.ReadyIsStreaming (fst (SessionLoop.settle token o runs st)).
Proof.
  intros H. induction runs as [|k rest IH]; simpl; [exact H|].
  destruct (App.requestId k =? token).
  - pose proof (resume_ready k o st H) as Hr.
    destruct (App.resume k o st) as [st' [k'|]]; exact Hr.
  - destruct (SessionLoop.settle token o rest st) as [st' rest']. exact IH.
Qed.

Lemma step_ready (w : SessionLoop.World) (e : SessionLoop.Event) :
  Trace.ReadyIsStreaming (SessionLoop.store w) ->
  Trace.ReadyIsStreaming (SessionLoop.store (SessionLoop.step w e)).
Proof.
  intros H.
  destruct e as [sl|status| | |reason message|message|token o|v p|err];
    try (unfold Trace.ReadyIsStreaming in *; simpl; first [exact H | discriminate | reflexivity]).
  - unfold Trace.ReadyIsStreaming in *. simpl. unfold App.slideEffect.
    destruct (negb (App.serviceRef (App.session (SessionLoop.store w)))
              || negb (ConnectionStatus.eqb
                         (App.connectionStatus (App.session (SessionLoop.store w)))
                         ConnectionStatus.connected)); simpl; [exact H | discriminate].
  - rewrite step_settle_store. now apply settle_ready.
  - unfold Trace.ReadyIsStreaming in *. simpl.
    destruct (handleInteract_frame v p (SessionLoop.store w)) as (_ & Hs & _).
    simpl in Hs. now rewrite Hs.
Qed.

(** X17. The streaming-ready flag is on only while the stream state is
    [streaming]: through every series of slide changes, status changes,
    stream callbacks, settlements of runs, dispatches and interact
    rejections.  So the handlers of the latest render forward a prompt
    only in stream state [streaming]. *)
Theorem ready_only_while_streaming (w : SessionLoop.World) (es : list SessionLoop.Event) :
  Trace.ReadyIsStreaming (SessionLoop.store w) ->
  let st := SessionLoop.store (SessionLoop.run w es) in
  (App.isStreamingReady (App.session st) = true ->
     App.streamState (App.session st) = StreamState.streaming)
  /\ (forall sl p,
        App.calls (App.storeOf (App.handleInteract (App.viewOf sl st) p st))
          <> App.calls st ->
        App.streamState (App.session st) = StreamState.streaming).
Proof.
  intros H.
  assert (Hinv : Trace.ReadyIsStreaming (SessionLoop.store (SessionLoop.run w es))).
  { revert w H. induction es as [|e es IH]; intros w H; simpl; [exact H|].
    apply IH, step_ready, H. }
  cbv zeta. split; [exact Hinv|].
  intros sl p Hcall. apply Hinv.
  destruct (App.isStreamingReady
              (App.session (SessionLoop.store (SessionLoop.run w es)))) eqn:R;
    [reflexivity|].
  exfalso. apply Hcall. unfold App.handleInteract. simpl. rewrite R.
  now rewrite orb_true_r.
Qed.

Lemma ready_only_while_streaming_witness :
  App.streamState
    (App.session
       (SessionLoop.store
          (SessionLoop.run (SessionLoop.mkWorld connectedStore [])
             [SessionLoop.Navigate demoSlide; SessionLoop.StreamStarted;
              SessionLoop.InteractRejected (Js.ErrorObject (Js.lit "busy"))])))
  = StreamState.streaming.
Proof.
  apply (proj1 (ready_only_while_streaming (SessionLoop.mkWorld connectedStore [])
                  [SessionLoop.Navigate demoSlide; SessionLoop.StreamStarted;
                   SessionLoop.InteractRejected (Js.ErrorObject (Js.lit "busy"))]
                  ltac:(intros H; discriminate H))).
  reflexivity.
Defined.

Lemma resume_keeps_token (k k' : App.Run) (o : App.Settled) (st : App.Store) :
  snd (App.resume k o st) = Some k' -> App.requestId k' = App.requestId k.
Proof.
  unfold App.resume.
  destruct (App.phase k), o as [|fetched|[err|]]; simpl;
    try (intros [= <-]; reflexivity); try discriminate.
  destruct (Odyssey.loadImageFile fetched _) as [err|file]; simpl; [discriminate|].
  destruct (negb (App.requestIdRef (App.session st) =? App.requestId k)); simpl;
    [discriminate | intros [= <-]; reflexivity].
Qed.

Lemma tokens_weaken (b b' : Z) (runs : list App.Run) :
  b <= b' -> Trace.TokensSorted b runs -> Trace.TokensSorted b' runs.
Proof.
  intros Hb. induction runs as [|k rest IH]; simpl; [auto|].
  intros (H1 & H2 & H3). repeat split; [lia | exact H2 | now apply IH].
Qed.

Lemma tokens_bound (b : Z) (runs : list App.Run) (k : App.Run) :
  Trace.TokensSorted b runs -> In k runs -> App.requestId k <= b.
Proof.
  induction runs as [|k0 rest IH]; simpl; [contradiction|].
  intros (H1 & _ & H3) [<-|Hin]; [exact H1 | now apply IH].
Qed.

Lemma tokens_append (b : Z) (runs : list App.Run) (k : App.Run) :
  Trace.TokensSorted b runs -> b < App.requestId k ->
  Trace.TokensSorted (App.requestId k) (runs ++ [k]).
Proof.
  intros Hs Hk. induction runs as [|k0 rest IH]; simpl.
  - repeat split; [lia | contradiction].
  - destruct Hs as (H1 & H2 & H3). repeat split; [lia | | now apply IH].
    intros k' Hin. apply in_app_or in Hin as [Hin|[<-|[]]]; [now apply H2 | lia].
Qed.

Lemma settle_tokens (token : Z) (o : App.Settled) (runs : list App.Run) (st : App.Store) :
  forall k', In k' (snd (SessionLoop.settle token o runs st)) ->
             exists k, In k runs /\ App.requestId k' = App.requestId k.
Proof.
  induction runs as [|k rest IH]; simpl; [contradiction|].
  destruct (App.requestId k =? token).
  - pose proof (fun k' => resume_keeps_token k k' o st) as Hk.
    destruct (App.resume k o st) as [st' [k1|]]; simpl in *.
    + intros k' [<-|Hin]; [exists k; split; [now left | now apply Hk]|].
      exists k'. split; [now right | reflexivity].
    + intros k' Hin. exists k'. split; [now right | reflexivity].
  - destruct (SessionLoop.settle token o rest st) as [st' rest']. simpl in *.
    intros k' [<-|Hin]; [exists k; split; [now left | reflexivity]|].
    destruct (IH k' Hin) as (k0 & Hin0 & E). exists k0. split; [now right | exact E].
Qed.

Lemma settle_sorted (b token : Z) (o : App.Settled) (runs : list App.Run) (st : App.Store) :
  Trace.TokensSorted b runs ->
  Trace.TokensSorted b (snd (SessionLoop.settle token o runs st)).
Proof.
  induction runs as [|k rest IH]; simpl; [auto|].
  intros (H1 & H2 & H3).
  destruct (App.requestId k =? token).
  - pose proof (fun k' => resume_keeps_token k k' o st) as Hk.
    destruct (App.resume k o st) as [st' [k1|]]; simpl in *; [|exact H3].
    rewrite (Hk k1 eq_refl). repeat split; assumption.
  - pose proof (settle_tokens token o rest st) as Hsub.
    destruct (SessionLoop.settle token o rest st) as [st' rest']. simpl in *.
    repeat split; [exact H1 | | now apply IH].
    intros k' Hin. destruct (Hsub k' Hin) as (k0 & Hin0 & ->). now apply H2.
Qed.

Lemma step_sorted (w : SessionLoop.World) (e : SessionLoop.Event) :
  Trace.TokensSorted (App.requestIdRef (App.session (SessionLoop.store w)))
                     (SessionLoop.suspended w) ->
  Trace.TokensSorted
    (App.requestIdRef (App.session (SessionLoop.store (SessionLoop.step w e))))
    (SessionLoop.suspended (SessionLoop.step w e)).
Proof.
  intros H.
  destruct e as [sl|status| | |reason message|message|token o|v p|err];
    try exact H.
  - simpl. pose proof (slideEffect_mints sl (SessionLoop.store w)) as Hm.
    pose proof (slideEffect_token sl (SessionLoop.store w)) as Ht.
    destruct (App.slideEffect sl (SessionLoop.store w)) as [st [k|]]; simpl in *.
    + destruct (Hm st k eq_refl) as (Hk & Hcur & _). rewrite Hcur.
      apply (tokens_append _ _ _ H). lia.
    + revert H. apply tokens_weaken. exact Ht.
  - pose proof (settle_token token o (SessionLoop.suspended w) (SessionLoop.store w)) as Ht.
    pose proof (settle_sorted _ token o (SessionLoop.suspended w) (SessionLoop.store w) H)
      as Hs.
    simpl.
    destruct (SessionLoop.settle token o (SessionLoop.suspended w) (SessionLoop.store w))
      as [st runs].
    simpl in *. now rewrite Ht.
  - simpl. destruct (handleInteract_frame v p (SessionLoop.store w)) as (_ & Hs & _).
    simpl in Hs. now rewrite Hs.
Qed.

Lemma sorted_nodup (b : Z) (runs : list App.Run) :
  Trace.TokensSorted b runs -> NoDup (map App.requestId runs).
Proof.
  induction runs as [|k rest IH]; simpl; [constructor|].
  intros (_ & H2 & H3). constructor; [|now apply IH].
  intros Hin. apply in_map_iff in Hin as (k' & E & Hin).
  specialize (H2 k' Hin). lia.
Qed.

(** X18. At most one run is current.  Through every series of session
    events, the runs of slide changes that are still suspended carry
    pairwise different tokens, in the order they were minted, and none
    carries a token past the current one: so at most one of them passes
    the token guard, the one minted last. *)
Theorem one_current_run (w : SessionLoop.World) (es : list SessionLoop.Event) :
  Trace.TokensSorted (App.requestIdRef (App.session (SessionLoop.store w)))
                     (SessionLoop.suspended w) ->
  let w' := SessionLoop.run w es in
  let current := App.requestIdRef (App.session (SessionLoop.store w')) in
  NoDup (map App.requestId (SessionLoop.suspended w'))
  /\ (forall k, In k (SessionLoop.suspended w') -> App.requestId k <= current)
  /\ (forall k1 k2 rest,
        SessionLoop.suspended w' = k1 :: rest -> In k2 rest ->
        App.requestId k1 <> current).
Proof.
  intros H.
  assert (Hinv : Trace.TokensSorted
                   (App.requestIdRef (App.session (SessionLoop.store (SessionLoop.run w es))))
                   (SessionLoop.suspended (SessionLoop.run w es))).
  { revert w H. induction es as [|e es IH]; intros w H; simpl; [exact H|].
    apply IH, step_sorted, H. }
  cbv zeta. split; [exact (sorted_nodup _ _ Hinv)|]. split.
  - intros k Hin. exact (tokens_bound _ _ k Hinv Hin).
  - intros k1 k2 rest E Hin. rewrite E in Hinv. simpl in Hinv.
    destruct Hinv as (_ & H2 & H3).
    pose proof (H2 k2 Hin). pose proof (tokens_bound _ _ k2 H3 Hin). lia.
Qed.

Lemma one_current_run_witness :
  NoDup (map App.requestId
           (SessionLoop.suspended
              (SessionLoop.run (SessionLoop.mkWorld connectedStore [])
                 [SessionLoop.Navigate demoSlide;
                  SessionLoop.Settle 1 App.EndStreamSettled;
                  SessionLoop.Navigate demoSlide2]))).
Proof.
  apply (proj1 (one_current_run (SessionLoop.mkWorld connectedStore [])
                  [SessionLoop.Navigate demoSlide;
                   SessionLoop.Settle 1 App.EndStreamSettled;
                   SessionLoop.Navigate demoSlide2] I)).
Defined.

(* ------------------------------------------------------------------ *)
(** ** The gesture pipeline through its events *)

Lemma classifyResumed_governor (v : App.View) (fetched : App.VisionFetched) (now : Z)
  (st : App.Store) :
  App.lastGeminiAtRef (App.governor (App.classifyResumed v fetched now st))
  = App.lastGeminiAtRef (App.governor st)
  /\ App.requestsSent (App.classifyResumed v fetched now st) = App.requestsSent st.
Proof.
  unfold App.classifyResumed.
  destruct fetched as [|status json]; [simpl; auto|].
  destruct (status =? 429); [destruct json; simpl; auto|].
  destruct (negb (Odyssey.responseOk status)); [simpl; auto|].
  destruct json as [data|]; [|simpl; auto].
  destruct (observe_frame v (App.label data) now st) as (Hg & _ & Hc).
  simpl in *. unfold App.requestsSent. simpl. rewrite Hg, Hc. auto.
Qed.

Lemma requestsSent_sent (dataUrl : Js.str) (st : App.Store) :
  App.requestsSent (App.call (App.FetchGestureVision dataUrl) st)
  = S (App.requestsSent st).
Proof.
  unfold App.requestsSent, App.call. simpl.
  rewrite filter_app, length_app. simpl. lia.
Qed.

(** X19. The governor spaces the requests.  Through every series of
    attempts, responses and timer firings, from any state: each
    classification request is sent at least 8000 ms after the one
    before (and after [lastCallAt] of the starting state), and the
    requests sent are exactly the attempts that were admitted. *)
Theorem requests_are_spaced (w : App.World) (es : list App.Event) :
  Trace.spaced 8000 (App.lastGeminiAtRef (App.governor (App.store w)))
               (Trace.sendTimes w es)
  /\ App.requestsSent (App.store (App.run w es))
     = (App.requestsSent (App.store w) + List.length (Trace.sendTimes w es))%nat.
Proof.
  revert w. induction es as [|e es IH]; intros w.
  - split; [exact I|]. cbn [App.run fold_left Trace.sendTimes List.length].
    now rewrite Nat.add_0_r.
  - destruct (IH (App.step w e)) as (Hs & Hc).
    change (App.run w (e :: es)) with (App.run (App.step w e) es).
    rewrite Hc. clear Hc IH.
    destruct e as [v now dataUrl|now fetched|now]; cbn [Trace.sendTimes].
    + assert (Hstep : App.step w (App.Attempt v now dataUrl)
                      = if App.admitted now (App.governor (App.store w))
                        then App.mkWorld
                               (App.call (App.FetchGestureVision dataUrl)
                                  (App.setLastGeminiAt now
                                     (App.setVisionInFlight true (App.store w))))
                               (App.awaiting w ++ [v])
                        else w).
      { cbn [App.step]. rewrite classify_admitted.
        now destruct (App.admitted now (App.governor (App.store w))). }
      destruct (App.admitted now (App.governor (App.store w))) eqn:A.
      * rewrite Hstep in Hs |- *. cbn [App.store] in Hs |- *.
        rewrite requestsSent_sent.
        unfold App.admitted in A.
        apply andb_true_iff in A as [_ C]. apply negb_true_iff, Z.ltb_ge in C.
        unfold App.GEMINI_GESTURE_COOLDOWN_MS in C.
        split; [split; [exact C | exact Hs]|].
        cbn [List.length]. rewrite Nat.add_succ_r. reflexivity.
      * rewrite Hstep in Hs |- *. split; [exact Hs | reflexivity].
    + assert (Hstep : App.lastGeminiAtRef
                        (App.governor (App.store (App.step w (App.Response now fetched))))
                      = App.lastGeminiAtRef (App.governor (App.store w))
                      /\ App.requestsSent (App.store (App.step w (App.Response now fetched)))
                         = App.requestsSent (App.store w)).
      { cbn [App.step]. destruct (App.awaiting w) as [|v rest]; [auto|].
        apply classifyResumed_governor. }
      destruct Hstep as (Hg & Hq). rewrite Hg in Hs. rewrite Hq.
      split; [exact Hs | reflexivity].
    + destruct (advanceTo_frame now (App.store w)) as (Hg & _ & Hq).
      cbn [App.step App.store] in Hs |- *. cbv zeta in Hg, Hq.
      rewrite Hg in Hs. rewrite Hq. split; [exact Hs | reflexivity].
Qed.

Lemma timeouts_setVisionInFlight (x : bool) (st : App.Store) :
  App.window (App.setVisionInFlight x st) = App.window st
  /\ App.debounce (App.setVisionInFlight x st) = App.debounce st.
Proof. split; reflexivity. Qed.

(** Owned timers, at most one of them, armed for the pending label. *)
Lemma observe_single (v : App.View) (l : option Js.str) (now : Z) (st : App.Store) :
  Inv.TimerOwned st ->
  (List.length (App.timeouts (App.window st)) <= 1)%nat ->
  Trace.ArmedPending st ->
  (List.length (App.timeouts (App.window (App.observe v l now st))) <= 1)%nat
  /\ Trace.ArmedPending (App.observe v l now st).
Proof.
  intros Hown Hlen Harm. unfold App.observe.
  destruct l as [l|]; [|auto].
  destruct (Js.truthy l && Js.valueTruthy (App.GESTURE_PROMPTS l)); [|auto].
  pose proof (schedule_owned v l now
                (App.setGestureLatency
                   (Some (now - App.lastCaptureAtRef (App.capture st))) st) Hown) as H.
  cbv zeta in H. destruct H as (Hp & _ & Hq & _).
  split.
  - rewrite Hq. simpl. lia.
  - intros t Hin. rewrite Hq in Hin. destruct Hin as [<-|[]]. exact Hp.
Qed.

Lemma classifyResumed_single (v : App.View) (fetched : App.VisionFetched) (now : Z)
  (st : App.Store) :
  Inv.TimerOwned st ->
  (List.length (App.timeouts (App.window st)) <= 1)%nat ->
  Trace.ArmedPending st ->
  (List.length (App.timeouts (App.window (App.classifyResumed v fetched now st))) <= 1)%nat
  /\ Trace.ArmedPending (App.classifyResumed v fetched now st).
Proof.
  intros Hown Hlen Harm. unfold App.classifyResumed.
  destruct fetched as [|status json]; [auto|].
  destruct (status =? 429); [destruct json; auto|].
  destruct (negb (Odyssey.responseOk status)); [auto|].
  destruct json as [data|]; [|auto].
  exact (observe_single v (App.label data) now st Hown Hlen Harm).
Qed.

Lemma advanceTo_single (now : Z) (st : App.Store) :
  Inv.TimerOwned st ->
  (List.length (App.timeouts (App.window st)) <= 1)%nat ->
  Trace.ArmedPending st ->
  (List.length (App.timeouts (App.window (App.advanceTo now st))) <= 1)%nat
  /\ Trace.ArmedPending (App.advanceTo now st)
  /\ (forall t, In t (App.dueAt now st) ->
        App.pendingDiffers (App.pendingGestureRef (App.debounce st)) (App.armedLabel t)
        = false).
Proof.
  intros Hown Hlen Harm.
  assert (Hdue : forall t, In t (App.dueAt now st) ->
            App.pendingDiffers (App.pendingGestureRef (App.debounce st)) (App.armedLabel t)
            = false).
  { intros t Hin. unfold App.dueAt in Hin. apply filter_In in Hin as [Hin _].
    rewrite (Harm t Hin). simpl. now rewrite js_eqb_refl. }
  assert (Hcore :
    (List.length (App.timeouts (App.window (App.advanceTo now st))) <= 1)%nat
    /\ Trace.ArmedPending (App.advanceTo now st)).
  { unfold App.advanceTo, App.dueAt. unfold Trace.ArmedPending.
    destruct (App.timeouts (App.window st)) as [|t [|t' ts]] eqn:Q;
      [simpl; rewrite Q; split; [simpl; lia | intros x []]
      | |simpl in Hlen; lia].
    simpl. destruct (App.due t <=? now); simpl.
    - destruct (fire_timers t st) as (Hq & _). cbv zeta in Hq.
      rewrite Q in Hq. simpl in Hq. rewrite Z.eqb_refl in Hq. simpl in Hq.
      rewrite Hq. split; [simpl; lia | intros x []].
    - rewrite Q. split; [simpl; lia|].
      intros x Hin. apply Harm. now rewrite Q. }
  destruct Hcore as (H1 & H2). auto.
Qed.

Lemma step_single (w : App.World) (e : App.Event) :
  Inv.TimerOwned (App.store w) ->
  (List.length (App.timeouts (App.window (App.store w))) <= 1)%nat ->
  Trace.ArmedPending (App.store w) ->
  (List.length (App.timeouts (App.window (App.store (App.step w e)))) <= 1)%nat
  /\ Trace.ArmedPending (App.store (App.step w e)).
Proof.
  intros Hown Hlen Harm. destruct e as [v now dataUrl|now fetched|now]; simpl.
  - rewrite classify_admitted.
    destruct (App.admitted now (App.governor (App.store w))); auto.
  - destruct (App.awaiting w); [auto|]. now apply classifyResumed_single.
  - destruct (advanceTo_single now (App.store w) Hown Hlen Harm) as (H1 & H2 & _). auto.
Qed.

Lemma step_owned (w : App.World) (e : App.Event) :
  Inv.TimerOwned (App.store w) -> Inv.TimerOwned (App.store (App.step w e)).
Proof. intros H. exact (run_owned [e] w H). Qed.

(** X20. One debounce timer, always for the pending label.  Through
    every series of attempts, responses and clock advances, starting
    with no timeout armed: at most one timeout is armed at any time, it
    is armed for the label that is pending, and so every timeout that
    comes due passes the staleness check of its callback (a superseded
    timer never fires: it was cancelled when it was replaced). *)
Theorem one_timer_for_pending (w : App.World) (es : list App.Event) :
  Inv.TimerOwned (App.store w) ->
  App.timeouts (App.window (App.store w)) = [] ->
  let st := App.store (App.run w es) in
  (List.length (App.timeouts (App.window st)) <= 1)%nat
  /\ (forall t, In t (App.timeouts (App.window st)) ->
        App.pendingGestureRef (App.debounce st) = Some (App.armedLabel t)
        /\ App.pendingTimerRef (App.debounce st) = Some (App.handle t))
  /\ (forall now t, In t (App.dueAt now st) ->
        App.pendingDiffers (App.pendingGestureRef (App.debounce st)) (App.armedLabel t)
        = false).
Proof.
  intros Hown Hnone.
  assert (Hinv : Inv.TimerOwned (App.store (App.run w es))
                 /\ (List.length (App.timeouts (App.window (App.store (App.run w es)))) <= 1)%nat
                 /\ Trace.ArmedPending (App.store (App.run w es))).
  { assert (Hlen : (List.length (App.timeouts (App.window (App.store w))) <= 1)%nat)
      by (rewrite Hnone; simpl; lia).
    assert (Harm : Trace.ArmedPending (App.store w))
      by (intros t Hin; rewrite Hnone in Hin; contradiction).
    clear Hnone. revert w Hown Hlen Harm.
    induction es as [|e es IH]; intros w Hown Hlen Harm; simpl; [auto|].
    destruct (step_single w e Hown Hlen Harm) as (H1 & H2).
    apply IH; [now apply step_owned | exact H1 | exact H2]. }
  destruct Hinv as (Ho & Hl & Ha). cbv zeta.
  split; [exact Hl|]. split.
  - intros t Hin. split; [now apply Ha | now apply (proj1 Ho)].
  - intros now t Hin.
    now apply (proj2 (proj2 (advanceTo_single now _ Ho Hl Ha))).
Qed.

Lemma one_timer_for_pending_witness :
  (List.length
     (App.timeouts
        (App.window
           (App.store
              (App.run (App.mkWorld loopStore [])
                 [App.Attempt streamingView 100000 (Js.lit "data:,");
                  App.Response 100300
                    (App.VisionResolved 200
                       (Some (App.mkVisionJson None (Some App.victory))))])))) <= 1)%nat.
Proof.
  apply (one_timer_for_pending (App.mkWorld loopStore [])
           [App.Attempt streamingView 100000 (Js.lit "data:,");
            App.Response 100300
              (App.VisionResolved 200
                 (Some (App.mkVisionJson None (Some App.victory))))]).
  - repeat split; simpl; intros; try contradiction; try discriminate; lia.
  - reflexivity.
Defined.

Lemma gesture_prompt_phrase (l p : Js.str) :
  App.GESTURE_PROMPTS l = Js.Str p ->
  In p Trace.phrases /\ Js.trim p = p /\ Js.blank p = false.
Proof.
  unfold App.GESTURE_PROMPTS.
  destruct (Js.eqb l App.hello); [intros [= <-]; simpl; auto|].
  destruct (Js.eqb l App.thumbs_up); [intros [= <-]; simpl; auto|].
  destruct (Js.eqb l App.victory); [intros [= <-]; simpl; auto 6|].
  destruct (Js.eqb l App.namaste); [intros [= <-]; simpl; auto 6|].
  destruct (Js.mem l App.Object_prototype); discriminate.
Qed.

Lemma interactions_calls (st st' : App.Store) :
  App.calls st' = App.calls st -> App.interactions st' = App.interactions st.
Proof. unfold App.interactions. now intros ->. Qed.

Lemma fire_interactions (t : App.Timeout) (st : App.Store) :
  Js.valueTruthy (App.GESTURE_PROMPTS (App.armedLabel t)) = true ->
  App.interactions (App.fire t st) = App.interactions st
  \/ exists p, In p Trace.phrases
               /\ App.interactions (App.fire t st) = App.interactions st ++ [p].
Proof.
  intros Hchk. unfold App.fire, App.gestureTimerCallback.
  set (st0 := App.clearTimeout (App.handle t) st).
  assert (H0 : App.interactions st0 = App.interactions st) by reflexivity.
  destruct (App.pendingDiffers (App.pendingGestureRef (App.debounce st0)) (App.armedLabel t));
    [now left|].
  destruct (App.GESTURE_PROMPTS (App.armedLabel t)) as [|q|] eqn:G; [discriminate| |].
  - destruct (gesture_prompt_phrase _ q G) as (Hin & Htrim & Hb).
    rewrite handleInteract_string, Hb, Htrim. simpl negb. rewrite andb_true_r.
    destruct (App.serviceRef (App.session st0) && App.seenStreamingReady (App.armedView t)).
    + right. exists q. split; [exact Hin|]. simpl.
      unfold App.interactions. simpl. rewrite flat_map_app. reflexivity.
    + now left.
  - left. unfold App.handleInteract.
    destruct (negb (App.serviceRef (App.session st0))
              || negb (App.seenStreamingReady (App.armedView t))); reflexivity.
Qed.

Lemma fire_checked (t : App.Timeout) (st : App.Store) :
  Trace.ArmedChecked st -> Trace.ArmedChecked (App.fire t st).
Proof.
  intros H x Hin. destruct (fire_timers t st) as (Hq & _). cbv zeta in Hq.
  rewrite Hq in Hin. apply filter_In in Hin as [Hin _]. now apply H.
Qed.

Lemma fold_fire_phrases (ts : list App.Timeout) (st : App.Store) :
  (forall t, In t ts -> Js.valueTruthy (App.GESTURE_PROMPTS (App.armedLabel t)) = true) ->
  Trace.ArmedChecked st ->
  let st' := fold_left (fun s t => App.fire t s) ts st in
  Trace.ArmedChecked st'
  /\ forall p, In p (App.interactions st') ->
               In p (App.interactions st) \/ In p Trace.phrases.
Proof.
  revert st. induction ts as [|t ts IH]; intros st Hts Hchk; simpl; [auto|].
  destruct (IH (App.fire t st)) as (Hc & Hp);
    [intros x Hx; apply Hts; now right | now apply fire_checked|].
  split; [exact Hc|].
  intros p Hin. destruct (Hp p Hin) as [H|H]; [|now right].
  destruct (fire_interactions t st (Hts t (or_introl eq_refl))) as [E|(q & Hq & E)];
    rewrite E in H; [now left|].
  apply in_app_or in H as [H|[<-|[]]]; [now left | now right].
Qed.

Lemma schedule_timeouts_in (v : App.View) (l : Js.str) (now : Z) (st : App.Store)
  (t : App.Timeout) :
  In t (App.timeouts (App.window (App.scheduleGesturePrompt v l now st))) ->
  In t (App.timeouts (App.window st)) \/ App.armedLabel t = l.
Proof.
  unfold App.scheduleGesturePrompt. simpl.
  destruct (Js.handleTruthy (App.pendingTimerRef (App.debounce st)));
    [destruct (App.pendingTimerRef (App.debounce st))|]; simpl;
    intros Hin; apply in_app_or in Hin as [Hin|[<-|[]]];
    try (now right); left;
    try (apply filter_In in Hin as [Hin _]); exact Hin.
Qed.

Lemma observe_checked (v : App.View) (l : option Js.str) (now : Z) (st : App.Store) :
  Trace.ArmedChecked st -> Trace.ArmedChecked (App.observe v l now st).
Proof.
  intros H. unfold App.observe.
  destruct l as [l|]; [|exact H].
  destruct (Js.truthy l && Js.valueTruthy (App.GESTURE_PROMPTS l)) eqn:C; [|exact H].
  apply andb_true_iff in C as [_ C].
  intros t Hin. apply schedule_timeouts_in in Hin as [Hin| ->]; [now apply H | exact C].
Qed.

Lemma step_phrases (w : App.World) (e : App.Event) :
  Trace.ArmedChecked (App.store w) ->
  Trace.ArmedChecked (App.store (App.step w e))
  /\ forall p, In p (App.interactions (App.store (App.step w e))) ->
               In p (App.interactions (App.store w)) \/ In p Trace.phrases.
Proof.
  intros H. destruct e as [v now dataUrl|now fetched|now]; simpl.
  - rewrite classify_admitted.
    destruct (App.admitted now (App.governor (App.store w))); [|auto].
    split; [exact H|]. intros p Hin. left. revert Hin.
    unfold App.interactions. simpl. rewrite flat_map_app. simpl.
    now rewrite app_nil_r.
  - destruct (App.awaiting w) as [|v rest]; [auto|]. simpl.
    unfold App.classifyResumed.
    destruct fetched as [|status json]; [auto|].
    destruct (status =? 429); [destruct json; auto|].
    destruct (negb (Odyssey.responseOk status)); [auto|].
    destruct json as [data|]; [|auto].
    split; [exact (observe_checked v (App.label data) now (App.store w) H)|].
    intros p Hin. left.
    destruct (observe_frame v (App.label data) now (App.store w)) as (_ & _ & Hc).
    cbv zeta in Hc. revert Hin. unfold App.interactions. simpl. now rewrite Hc.
  - apply fold_fire_phrases; [|exact H].
    intros t Hin. unfold App.dueAt in Hin. apply filter_In in Hin as [Hin _].
    now apply H.
Qed.

(** X21. The gesture pipeline only ever says the four fixed phrases.
    Through every series of attempts, classification answers (whatever
    label they carry) and timer firings, every prompt the pipeline
    forwards to [interact] is one of 'do hello', 'do thumbs up',
    'do victory sign', 'do namaste'; it never forwards the slide's call
    to action or any text of the classifier. *)
Theorem only_phrases_dispatched (w : App.World) (es : list App.Event) :
  Trace.ArmedChecked (App.store w) ->
  forall p, In p (App.interactions (App.store (App.run w es))) ->
            In p (App.interactions (App.store w)) \/ In p Trace.phrases.
Proof.
  revert w. induction es as [|e es IH]; intros w H p Hin; simpl in Hin; [now left|].
  destruct (step_phrases w e H) as (Hc & Hp).
  destruct (IH (App.step w e) Hc p Hin) as [Hin'|Hin']; [|now right].
  now apply Hp.
Qed.

Lemma only_phrases_dispatched_witness :
  In (Js.lit "do hello") Trace.phrases.
Proof.
  destruct (only_phrases_dispatched (App.mkWorld loopStore [])
              [App.Attempt streamingView 100000 (Js.lit "data:,");
               App.Response 100300
                 (App.VisionResolved 200
                    (Some (App.mkVisionJson None (Some (Js.lit "constructor")))));
               App.Clock 101500;
               App.Attempt streamingView 108000 (Js.lit "data:,");
               App.Response 108300
                 (App.VisionResolved 200 (Some (App.mkVisionJson None (Some App.hello))));
               App.Clock 109500]
              ltac:(intros t Ht; destruct Ht)
              (Js.lit "do hello") ltac:(vm_compute; left; reflexivity)) as [H|H];
    [destruct H | exact H].
Defined.

(* ------------------------------------------------------------------ *)
(** ** The capture loop *)

Lemma attempt_window (v : App.View) (now : Z) (dataUrl : Js.str) (w : App.World) :
  App.window (App.store (App.step w (App.Attempt v now dataUrl))) = App.window (App.store w)
  /\ App.cameraRef (App.capture (App.store (App.step w (App.Attempt v now dataUrl))))
     = App.cameraRef (App.capture (App.store w))
  /\ App.detectFrameRef (App.capture (App.store (App.step w (App.Attempt v now dataUrl))))
     = App.detectFrameRef (App.capture (App.store w)).
Proof.
  simpl. rewrite classify_admitted.
  destruct (App.admitted now (App.governor (App.store w))); simpl; auto.
Qed.

(** What [detect] does to the browser and the capture refs, whatever it
    samples: with the camera mounted it requests the next frame and
    holds its handle. *)
Lemma detect_frames (v : App.View) (pn dn : Z) (frame : option Js.str) (last : Z)
  (w : App.World) :
  App.cameraRef (App.capture (App.store w)) <> None ->
  let w' := snd (Capture.detect v pn dn frame last w) in
  App.frames (App.window (App.store w'))
  = App.frames (App.window (App.store w)) ++ [App.nextFrame (App.window (App.store w))]
  /\ App.nextFrame (App.window (App.store w')) = App.nextFrame (App.window (App.store w)) + 1
  /\ App.detectFrameRef (App.capture (App.store w'))
     = Some (App.nextFrame (App.window (App.store w)))
  /\ App.cameraRef (App.capture (App.store w')) = App.cameraRef (App.capture (App.store w)).
Proof.
  intros Hcam. unfold Capture.detect.
  destruct (App.cameraRef (App.capture (App.store w))) as [src|] eqn:C; [|now destruct Hcam].
  destruct (App.VISION_POLL_MS <=? pn - last); [|simpl; rewrite C; auto].
  destruct frame as [dataUrl|]; [|simpl; rewrite C; auto].
  destruct (App.seenStreamingReady v); [|simpl; rewrite C; auto].
  destruct (attempt_window v dn dataUrl
              (App.mkWorld (Capture.setLastCaptureAt dn (App.store w)) (App.awaiting w)))
    as (Hw & Hc & Hd).
  simpl in Hw, Hc, Hd |- *. rewrite Hw, Hc. simpl. rewrite C. auto.
Qed.

Lemma frameFired_one (v : App.View) (pn dn : Z) (frame : option Js.str) (last : Z)
  (w : App.World) (h : Z) :
  Trace.OneFrame (App.store w) ->
  App.detectFrameRef (App.capture (App.store w)) = Some h ->
  App.cameraRef (App.capture (App.store w)) <> None ->
  let w' := snd (Capture.frameFired h v pn dn frame last w) in
  Trace.OneFrame (App.store w')
  /\ App.cameraRef (App.capture (App.store w')) = App.cameraRef (App.capture (App.store w)).
Proof.
  intros (h0 & Hf & Hd & Hpos) Hh Hcam. rewrite Hd in Hh. injection Hh as ->.
  unfold Capture.frameFired. rewrite Hf. simpl existsb. rewrite Z.eqb_refl. simpl orb.
  cbv iota.
  set (w0 := App.mkWorld (App.cancelAnimationFrame h (App.store w)) (App.awaiting w)).
  assert (Hcam0 : App.cameraRef (App.capture (App.store w0)) <> None) by exact Hcam.
  destruct (detect_frames v pn dn frame last w0 Hcam0) as (H1 & H2 & H3 & H4).
  cbv zeta in *. split; [|exact H4].
  exists (App.nextFrame (App.window (App.store w))).
  assert (E0 : App.frames (App.window (App.store w0)) = []).
  { unfold w0. simpl. rewrite Hf. simpl. now rewrite Z.eqb_refl. }
  rewrite H1, H2, H3, E0. simpl. repeat split; lia.
Qed.

Lemma loop_one (v : App.View) (ticks : list Capture.Tick) (last : Z) (w : App.World) :
  Trace.OneFrame (App.store w) ->
  App.cameraRef (App.capture (App.store w)) <> None ->
  Trace.OneFrame (App.store (snd (Capture.loop v ticks last w))).
Proof.
  revert last w. induction ticks as [|t ticks IH]; intros last w Hone Hcam; simpl;
    [exact Hone|].
  destruct (App.detectFrameRef (App.capture (App.store w))) as [h|] eqn:D; [|exact Hone].
  destruct (frameFired_one v (Capture.perfNow t) (Capture.dateNow t) (Capture.frame t)
              last w h Hone D Hcam) as (H1 & H2).
  cbv zeta in H1, H2.
  destruct (Capture.frameFired h v (Capture.perfNow t) (Capture.dateNow t)
              (Capture.frame t) last w) as [last' w'].
  simpl in *. apply IH; [exact H1 | now rewrite H2].
Qed.

(** X22. Disabling stops the capture loop for good.  While the loop
    runs, however many animation frames it has seen and whatever it
    sampled, exactly one frame callback is requested and
    [detectFrameRef] holds it; so [disableGestures] leaves no frame
    requested, and afterwards neither the loop nor a late frame callback
    does anything: no frame is sampled, nothing is sent. *)
Theorem disable_stops_loop
  (v : App.View) (ticks : list Capture.Tick) (last : Z) (w : App.World) :
  Trace.OneFrame (App.store w) ->
  App.cameraRef (App.capture (App.store w)) <> None ->
  let w' := snd (Capture.loop v ticks last w) in
  let off := App.mkWorld (App.disableGestures (App.store w')) (App.awaiting w') in
  Trace.OneFrame (App.store w')
  /\ App.frames (App.window (App.store off)) = []
  /\ App.detectFrameRef (App.capture (App.store off)) = None
  /\ (forall ticks' last', Capture.loop v ticks' last' off = (last', off))
  /\ (forall h pn dn frame last',
        Capture.frameFired h v pn dn frame last' off = (last', off)).
Proof.
  intros Hone Hcam. cbv zeta.
  pose proof (loop_one v ticks last w Hone Hcam) as H.
  remember (snd (Capture.loop v ticks last w)) as w' eqn:Ew. clear Ew.
  destruct H as (h & Hf & Hd & Hpos).
  assert (Hoff : App.frames (App.window (App.disableGestures (App.store w'))) = []
                 /\ App.detectFrameRef (App.capture (App.disableGestures (App.store w')))
                    = None).
  { unfold App.disableGestures. simpl. rewrite Hd. simpl.
    replace (h =? 0) with false by (symmetry; apply Z.eqb_neq; lia). simpl.
    destruct (App.cameraRef (App.capture (App.store w'))) as [[tracks|]|]; simpl;
      rewrite Hf; simpl; rewrite Z.eqb_refl; auto. }
  destruct Hoff as (Hf' & Hd').
  split; [exists h; auto|]. split; [exact Hf'|]. split; [exact Hd'|]. split.
  - intros [|t ticks'] last'; simpl; [reflexivity | now rewrite Hd'].
  - intros h' pn dn frame last'. unfold Capture.frameFired. simpl. now rewrite Hf'.
Qed.

Lemma disable_stops_loop_witness :
  let ticks := [Capture.mkTick 5000 100000 (Some (Js.lit "data:,"));
                Capture.mkTick 5016 100016 (Some (Js.lit "data:,"))] in
  let w' := snd (Capture.loop streamingView ticks 0 (App.mkWorld loopStore [])) in
  let off := App.mkWorld (App.disableGestures (App.store w')) (App.awaiting w') in
  App.frames (App.window (App.store off)) = [].
Proof.
  intros ticks.
  assert (H1 : Trace.OneFrame (App.store (App.mkWorld loopStore [])))
    by (exists 1; repeat split; simpl; lia).
  assert (H2 : App.cameraRef (App.capture (App.store (App.mkWorld loopStore []))) <> None)
    by discriminate.
  exact (proj1 (proj2 (disable_stops_loop streamingView ticks 0
                         (App.mkWorld loopStore []) H1 H2))).
Defined.

(** X23. When [detect] samples and submits.  With the camera mounted,
    a pass of [detect] sends no classification request and leaves the
    governor and the last-capture time alone unless the poll interval
    of 1200 ms has elapsed since the last sample, a frame could be
    drawn, and the loop's view is streaming-ready; when all three hold
    it stamps the capture time and submits the frame, which is sent
    exactly when the governor admits it.  The sample time advances
    exactly when the interval has elapsed. *)
Theorem detect_gating
  (v : App.View) (pn dn : Z) (frame : option Js.str) (last : Z) (w : App.World) :
  App.cameraRef (App.capture (App.store w)) <> None ->
  let w' := snd (Capture.detect v pn dn frame last w) in
  fst (Capture.detect v pn dn frame last w) = (if 1200 <=? pn - last then pn else last)
  /\ (pn - last < 1200 \/ frame = None \/ App.seenStreamingReady v = false ->
      App.requestsSent (App.store w') = App.requestsSent (App.store w)
      /\ App.governor (App.store w') = App.governor (App.store w)
      /\ App.lastCaptureAtRef (App.capture (App.store w'))
         = App.lastCaptureAtRef (App.capture (App.store w))
      /\ App.awaiting w' = App.awaiting w)
  /\ (forall dataUrl,
        1200 <= pn - last -> frame = Some dataUrl -> App.seenStreamingReady v = true ->
        App.lastCaptureAtRef (App.capture (App.store w')) = dn
        /\ App.requestsSent (App.store w')
           = (App.requestsSent (App.store w)
              + if App.admitted dn (App.governor (App.store w)) then 1 else 0)%nat).
Proof.
  intros Hcam. cbv zeta. unfold Capture.detect.
  destruct (App.cameraRef (App.capture (App.store w))) as [src|]; [|now destruct Hcam].
  change App.VISION_POLL_MS with 1200.
  destruct (1200 <=? pn - last) eqn:P.
  - apply Z.leb_le in P. split; [destruct frame as [d|]; [destruct (App.seenStreamingReady v)|];
                                   reflexivity|].
    split.
    + intros [H|[->| H]]; [lia|simpl; auto|].
      rewrite H. destruct frame; simpl; auto.
    + intros dataUrl _ -> ->. simpl. rewrite classify_admitted. simpl.
      destruct (App.admitted dn (App.governor (App.store w))); simpl.
      * split; [reflexivity|]. unfold App.requestsSent. simpl.
        rewrite filter_app, length_app. reflexivity.
      * split; [reflexivity|]. now rewrite Nat.add_0_r.
  - apply Z.leb_gt in P. split; [reflexivity|]. split.
    + intros _. simpl. auto.
    + intros dataUrl H. lia.
Qed.

Lemma detect_gating_witness :
  let w := App.mkWorld loopStore [] in
  App.requestsSent
    (App.store (snd (Capture.detect (App.mkView false demoSlide) 5000 100000
                       (Some (Js.lit "data:,")) 0 w)))
  = App.requestsSent loopStore
  /\ App.lastCaptureAtRef
       (App.capture
          (App.store (snd (Capture.detect streamingView 5000 100000
                             (Some (Js.lit "data:,")) 0 w))))
     = 100000.
Proof.
  intros w. split.
  - apply (proj1 (proj2 (detect_gating (App.mkView false demoSlide) 5000 100000
                           (Some (Js.lit "data:,")) 0 w ltac:(discriminate)))).
    right; right. reflexivity.
  - apply (proj2 (proj2 (detect_gating streamingView 5000 100000
                           (Some (Js.lit "data:,")) 0 w ltac:(discriminate)))
             (Js.lit "data:,")); [lia | reflexivity | reflexivity].
Defined.

Lemma granted_camera (tracks : list Z) (played : bool) (st : App.Store) :
  App.cameraRef (App.capture st) <> None ->
  let granted := Capture.enableGesturesResumed (Capture.CameraGranted tracks played) st in
  App.cameraRef (App.capture granted) = Some (Some tracks)
  /\ App.liveTracks (App.window granted) = App.liveTracks (App.window st) ++ tracks.
Proof.
  intros Hcam. cbv zeta. unfold Capture.enableGesturesResumed. simpl.
  destruct (App.cameraRef (App.capture st)) as [src|]; [|contradiction].
  destruct played; [|split; reflexivity].
  unfold Capture.startGestureLoop. simpl. split; reflexivity.
Qed.

(** [disableGestures] stops the tracks of the camera's current source
    and no others. *)
Lemma disable_keeps_other_tracks (t : Z) (st : App.Store) :
  In t (App.liveTracks (App.window st)) ->
  (forall tracks, App.cameraRef (App.capture st) = Some (Some tracks) -> ~ In t tracks) ->
  In t (App.liveTracks (App.window (App.disableGestures st))).
Proof.
  intros Hlive Hother. unfold App.disableGestures. simpl.
  assert (Hkeep : forall tracks, ~ In t tracks ->
            In t (filter (fun x => negb (existsb (Z.eqb x) tracks))
                         (App.liveTracks (App.window st)))).
  { intros tracks Hn. apply filter_In. split; [exact Hlive|].
    apply negb_true_iff. destruct (existsb (Z.eqb t) tracks) eqn:E; [|reflexivity].
    apply existsb_exists in E as (x & Hx & Ex). apply Z.eqb_eq in Ex. now subst x. }
  destruct (Js.handleTruthy (App.detectFrameRef (App.capture st)));
    [destruct (App.detectFrameRef (App.capture st))|]; simpl;
    (destruct (App.cameraRef (App.capture st)) as [[tracks|]|]; simpl;
     [apply Hkeep; now apply Hother | exact Hlive | exact Hlive]).
Qed.

(** X24. Setting the camera up, and what the gesture button does
    afterwards.  On a mounted camera with gestures off and no loop
    running (frame handles are positive): when [getUserMedia] is
    refused nothing is acquired and the loop is not started.  When the
    stream is granted and plays, its tracks are live and attached, the
    loop runs, and the button, which now disables, leaves no frame
    requested, the camera without source and none of the stream's
    tracks live.  When [play()] fails, the stream stays live and
    attached while gestures stay off, so the button starts the set-up
    again; a second stream then replaces the first as the camera's
    source, and the tracks of the first stay live, also after gestures
    are disabled later. *)
Theorem camera_setup_and_release (tracks : list Z) (st : App.Store) :
  App.cameraRef (App.capture st) <> None ->
  App.detectFrameRef (App.capture st) = None ->
  App.frames (App.window st) = [] ->
  0 < App.nextFrame (App.window st) ->
  App.gesturesEnabled (App.capture st) = false ->
  let blocked := Capture.enableGesturesResumed Capture.CameraBlocked st in
  let playing := Capture.enableGesturesResumed (Capture.CameraGranted tracks true) st in
  let failed := Capture.enableGesturesResumed (Capture.CameraGranted tracks false) st in
  let off := App.disableGestures playing in
  let again := App.setGestureStatus (Js.lit "Starting camera...") failed in
  (App.window blocked = App.window st
   /\ App.gesturesEnabled (App.capture blocked) = false
   /\ App.gestureStatus (App.capture blocked) = Js.lit "Gesture setup failed")
  /\ (App.cameraRef (App.capture playing) = Some (Some tracks)
      /\ (forall t, In t tracks -> In t (App.liveTracks (App.window playing)))
      /\ Trace.OneFrame playing
      /\ Capture.gestureButton (App.gesturesEnabled (App.capture playing)) playing
         = Capture.TurnedOff off
      /\ App.frames (App.window off) = []
      /\ App.detectFrameRef (App.capture off) = None
      /\ App.cameraRef (App.capture off) = Some None
      /\ forall t, In t tracks -> ~ In t (App.liveTracks (App.window off)))
  /\ (App.cameraRef (App.capture failed) = Some (Some tracks)
      /\ (forall t, In t tracks -> In t (App.liveTracks (App.window failed)))
      /\ App.frames (App.window failed) = []
      /\ App.gestureStatus (App.capture failed) = Js.lit "Gesture setup failed"
      /\ Capture.gestureButton (App.gesturesEnabled (App.capture failed)) failed
         = Capture.SettingUp again
      /\ forall tracks2 played2,
           let second :=
             Capture.enableGesturesResumed (Capture.CameraGranted tracks2 played2) again in
           App.cameraRef (App.capture second) = Some (Some tracks2)
           /\ (forall t, In t tracks -> In t (App.liveTracks (App.window second)))
           /\ (forall t, In t tracks -> ~ In t tracks2 ->
                 In t (App.liveTracks (App.window (App.disableGestures second))))).
Proof.
  intros Hcam Hdet Hfr Hnext Hoff. cbv zeta.
  split; [simpl; auto|].
  destruct (App.cameraRef (App.capture st)) as [src|] eqn:Ecam; [clear Hcam|contradiction].
  split.
  - unfold Capture.gestureButton, Capture.enableGesturesResumed. simpl. rewrite Ecam.
    unfold Capture.startGestureLoop. simpl. rewrite Hfr. simpl.
    split; [reflexivity|]. split; [intros t Ht; apply in_or_app; now right|].
    split; [exists (App.nextFrame (App.window st)); simpl; repeat split; lia|].
    split; [reflexivity|].
    unfold App.disableGestures. simpl.
    replace (App.nextFrame (App.window st) =? 0) with false
      by (symmetry; apply Z.eqb_neq; lia).
    simpl. rewrite Z.eqb_refl. simpl.
    repeat split. intros t Ht. apply not_in_stopped. exact Ht.
  - assert (Hfailed : App.cameraRef
                        (App.capture
                           (App.setGestureStatus (Js.lit "Starting camera...")
                              (Capture.enableGesturesResumed
                                 (Capture.CameraGranted tracks false) st))) <> None).
    { unfold Capture.enableGesturesResumed. simpl. rewrite Ecam. discriminate. }
    unfold Capture.gestureButton, Capture.enableGestures.
    split; [unfold Capture.enableGesturesResumed; simpl; now rewrite Ecam|].
    split; [unfold Capture.enableGesturesResumed; simpl; rewrite Ecam; simpl;
            intros t Ht; apply in_or_app; now right|].
    split; [unfold Capture.enableGesturesResumed; simpl; now rewrite Ecam|].
    split; [unfold Capture.enableGesturesResumed; simpl; now rewrite Ecam|].
    split; [unfold Capture.enableGesturesResumed; simpl; rewrite Ecam; simpl;
            now rewrite Hoff|].
    intros tracks2 played2.
    destruct (granted_camera tracks2 played2 _ Hfailed) as (Hc2 & Hl2). cbv zeta in Hc2, Hl2.
    assert (Hlive : forall t, In t tracks ->
              In t (App.liveTracks
                      (App.window
                         (Capture.enableGesturesResumed
                            (Capture.CameraGranted tracks2 played2)
                            (App.setGestureStatus (Js.lit "Starting camera...")
                               (Capture.enableGesturesResumed
                                  (Capture.CameraGranted tracks false) st)))))).
    { intros t Ht. rewrite Hl2. apply in_or_app. left.
      unfold Capture.enableGesturesResumed. simpl. rewrite Ecam. simpl.
      apply in_or_app. now right. }
    split; [exact Hc2|]. split; [exact Hlive|].
    intros t Ht Hn. apply disable_keeps_other_tracks; [now apply Hlive|].
    intros tr Etr. rewrite Hc2 in Etr. injection Etr as <-. exact Hn.
Qed.

Lemma camera_setup_and_release_witness :
  let failed := Capture.enableGesturesResumed (Capture.CameraGranted [10; 11] false)
                  streamingStore in
  let second := Capture.enableGesturesResumed (Capture.CameraGranted [12] true)
                  (App.setGestureStatus (Js.lit "Starting camera...") failed) in
  App.cameraRef (App.capture second) = Some (Some [12])
  /\ In 10 (App.liveTracks (App.window (App.disableGestures second))).
Proof.
  intros failed second.
  destruct (camera_setup_and_release [10; 11] streamingStore
              ltac:(discriminate) eq_refl eq_refl ltac:(simpl; lia) eq_refl)
    as (_ & _ & (_ & _ & _ & _ & _ & Hsecond)).
  destruct (Hsecond [12] true) as (Hcam & _ & Hleak).
  split; [exact Hcam|].
  apply Hleak; [simpl; auto | simpl; intuition discriminate].
Defined.

(* ------------------------------------------------------------------ *)
(** ** Speech *)

Lemma onstopResumed_releases
  (v : App.View) (fetched : Speech.Transcribed) (s : Speech.State) (st : App.Store) :
  let s' := fst (Speech.onstopResumed v fetched s st) in
  let st' := snd (Speech.onstopResumed v fetched s st) in
  Speech.isTranscribing s' = false
  /\ Speech.mediaStreamRef s' = None
  /\ (forall tracks, Speech.mediaStreamRef s = Some tracks ->
        forall t, In t tracks -> ~ In t (App.liveTracks (App.window st'))).
Proof.
  cbv zeta. unfold Speech.onstopResumed.
  assert (Hstop : forall tracks (x : App.Store) t,
             In t tracks -> ~ In t (App.liveTracks (App.window (App.stopTracks tracks x))))
    by (intros tracks x t Ht; simpl; now apply not_in_stopped).
  destruct fetched as [|status json];
    [|destruct (negb (Odyssey.responseOk status));
      [|destruct json as [text|];
        [destruct (Js.truthy (Js.trim match text with Some t => t | None => [] end));
         [rewrite handleInteract_string|]|]]];
    cbn [fst snd Speech.isTranscribing Speech.mediaStreamRef];
    (split; [reflexivity|]); (split; [reflexivity|]);
    intros tracks Hs t Ht; rewrite Hs; now apply Hstop.
Qed.

Lemma onstopResumed_outcome
  (v : App.View) (fetched : Speech.Transcribed) (s : Speech.State) (st : App.Store) :
  let s' := fst (Speech.onstopResumed v fetched s st) in
  let st' := snd (Speech.onstopResumed v fetched s st) in
  ((fetched = Speech.SttRejected
    \/ (exists status json, fetched = Speech.SttResolved status json
                            /\ Odyssey.responseOk status = false)
    \/ (exists status, fetched = Speech.SttResolved status None)) ->
     Speech.speechError s' = Some (Js.lit "Transcription failed. Try again.")
     /\ Speech.speechText s' = Speech.speechText s
     /\ App.calls st' = App.calls st)
  /\ (forall status text,
        fetched = Speech.SttResolved status (Some text) ->
        Odyssey.responseOk status = true ->
        Js.blank (match text with Some t => t | None => [] end) = true ->
        Speech.speechError s' = Some (Js.lit "We did not hear anything. Try again.")
        /\ Speech.speechText s' = Speech.speechText s
        /\ App.calls st' = App.calls st)
  /\ (forall status t,
        fetched = Speech.SttResolved status (Some (Some t)) ->
        Odyssey.responseOk status = true ->
        Js.blank t = false ->
        Speech.speechText s' = Js.trim t
        /\ Speech.speechError s' = Speech.speechError s
        /\ App.calls st'
           = (if App.serviceRef (App.session st) && App.seenStreamingReady v
              then App.calls st ++ [App.Interact (Js.trim t)]
              else App.calls st)).
Proof.
  cbv zeta. unfold Speech.onstopResumed. split; [|split].
  - intros [->|[(status & json & -> & Hok)|(status & ->)]]; simpl.
    + destruct (Speech.mediaStreamRef s); simpl; auto.
    + rewrite Hok. simpl. destruct (Speech.mediaStreamRef s); simpl; auto.
    + destruct (negb (Odyssey.responseOk status)); simpl;
        destruct (Speech.mediaStreamRef s); simpl; auto.
  - intros status text -> Hok Hb. rewrite Hok. simpl negb. cbv iota.
    rewrite truthy_trim, Hb. simpl.
    destruct (Speech.mediaStreamRef s); simpl; auto.
  - intros status t -> Hok Hb. rewrite Hok. simpl negb. cbv iota.
    rewrite truthy_trim, Hb. simpl negb. cbv iota.
    rewrite handleInteract_string, blank_trim, Hb, (proj1 (trim_idempotent t)).
    simpl negb. rewrite andb_true_r.
    destruct (App.serviceRef (App.session st) && App.seenStreamingReady v); simpl;
      destruct (Speech.mediaStreamRef s); simpl; auto.
Qed.

(** X25. The microphone is released on every path.  However the
    transcription request settles (rejected, any status, unreadable
    body, any text), when [onstop] is done the transcribing flag is
    off, [mediaStreamRef] is cleared, and no track of the recording's
    stream is live. *)
Theorem transcription_releases
  (v : App.View) (fetched : Speech.Transcribed) (s : Speech.State) (st : App.Store) :
  let s' := fst (Speech.onstopResumed v fetched s st) in
  let st' := snd (Speech.onstopResumed v fetched s st) in
  Speech.isTranscribing s' = false
  /\ Speech.mediaStreamRef s' = None
  /\ (forall tracks, Speech.mediaStreamRef s = Some tracks ->
        forall t, In t tracks -> ~ In t (App.liveTracks (App.window st'))).
Proof. exact (onstopResumed_releases v fetched s st). Qed.


Lemma transcription_releases_witness :
  let s := Speech.mkState [] None false true (Some [7]) [] [] [] in
  ~ In 7 (App.liveTracks
            (App.window
               (snd (Speech.onstopResumed streamingView Speech.SttRejected s
                       (Capture.acquire [7] streamingStore))))).
Proof.
  intros s.
  apply (proj2 (proj2 (transcription_releases streamingView Speech.SttRejected s
                         (Capture.acquire [7] streamingStore))) [7] eq_refl).
  simpl. auto.
Defined.

(** X26. What becomes of a transcription answer.  A rejected fetch, a
    status outside 200-299 and an unreadable body all end in
    'Transcription failed. Try again.' and nothing is dispatched.  An
    ok answer whose text is missing or blank ends in 'We did not hear
    anything. Try again.' and nothing is dispatched.  An ok answer with
    text shows the trimmed text and forwards exactly it to [interact],
    once, when the service exists and the recorder's view is
    streaming-ready, and forwards nothing otherwise. *)
Theorem transcription_outcome
  (v : App.View) (fetched : Speech.Transcribed) (s : Speech.State) (st : App.Store) :
  let s' := fst (Speech.onstopResumed v fetched s st) in
  let st' := snd (Speech.onstopResumed v fetched s st) in
  ((fetched = Speech.SttRejected
    \/ (exists status json, fetched = Speech.SttResolved status json
                            /\ Odyssey.responseOk status = false)
    \/ (exists status, fetched = Speech.SttResolved status None)) ->
     Speech.speechError s' = Some (Js.lit "Transcription failed. Try again.")
     /\ Speech.speechText s' = Speech.speechText s
     /\ App.calls st' = App.calls st)
  /\ (forall status text,
        fetched = Speech.SttResolved status (Some text) ->
        Odyssey.responseOk status = true ->
        Js.blank (match text with Some t => t | None => [] end) = true ->
        Speech.speechError s' = Some (Js.lit "We did not hear anything. Try again.")
        /\ Speech.speechText s' = Speech.speechText s
        /\ App.calls st' = App.calls st)
  /\ (forall status t,
        fetched = Speech.SttResolved status (Some (Some t)) ->
        Odyssey.responseOk status = true ->
        Js.blank t = false ->
        Speech.speechText s' = Js.trim t
        /\ Speech.speechError s' = Speech.speechError s
        /\ App.calls st'
           = (if App.serviceRef (App.session st) && App.seenStreamingReady v
              then App.calls st ++ [App.Interact (Js.trim t)]
              else App.calls st)).
Proof. exact (onstopResumed_outcome v fetched s st). Qed.

Lemma transcription_outcome_witness :
  let s := Speech.mkState [] None false true (Some [7]) [] [] [] in
  App.calls
    (snd (Speech.onstopResumed streamingView
            (Speech.SttResolved 200 (Some (Some (Js.lit " make it snow "))))
            s streamingStore))
  = App.calls streamingStore ++ [App.Interact (Js.trim (Js.lit " make it snow "))]
  /\ Speech.speechError
       (fst (Speech.onstopResumed streamingView (Speech.SttResolved 500 None)
               s streamingStore))
     = Some (Js.lit "Transcription failed. Try again.").
Proof.
  intros s. split.
  - apply (proj2 (proj2 (transcription_outcome streamingView
                           (Speech.SttResolved 200 (Some (Some (Js.lit " make it snow "))))
                           s streamingStore)) 200 (Js.lit " make it snow "));
      reflexivity.
  - apply (proj1 (transcription_outcome streamingView (Speech.SttResolved 500 None)
                    s streamingStore)).
    right; right. now exists 500.
Defined.

(** X27. A recording, end to end.  When nothing was recorded, the
    client posts an empty blob; the handler of api/stt.js answers 400
    (500 without the key) and never consults the model; the client ends
    in 'Transcription failed. Try again.', dispatches nothing, and the
    transcribing flag is off again.  When audio within 15 MiB was
    recorded and the key is set, the client shows and forwards exactly
    the model's trimmed text, or says it heard nothing when that text
    is blank. *)
Theorem recording_end_to_end
  (contentType : Js.str -> Js.str)
  (model : Js.str -> list Byte.byte -> Boundary.Generated) (apiKey : option Js.str)
  (v : App.View) (s : Speech.State) (st : App.Store) :
  let blob := Speech.recording s in
  let reply := Boundary.sttHandler model apiKey (Js.lit "POST")
                 (Routes.formOf contentType blob) in
  let s' := fst (Speech.onstopResumed v (Routes.asTranscribed reply) (Speech.onstop s) st) in
  let st' := snd (Speech.onstopResumed v (Routes.asTranscribed reply) (Speech.onstop s) st) in
  (Speech.posted (Speech.onstop s) = Speech.posted s ++ [blob]
   /\ Speech.audioChunksRef (Speech.onstop s) = []
   /\ Speech.isTranscribing (Speech.onstop s) = true)
  /\ (Odyssey.blobBytes blob = [] \/ Boundary.keyPresent apiKey = false ->
      Speech.speechError s' = Some (Js.lit "Transcription failed. Try again.")
      /\ App.calls st' = App.calls st
      /\ Speech.isTranscribing s' = false)
  /\ (forall text,
        Odyssey.blobBytes blob <> [] ->
        Odyssey.blobSize blob <= 15 * 1024 * 1024 ->
        Boundary.keyPresent apiKey = true ->
        model (Routes.sentType contentType blob) (Odyssey.blobBytes blob)
          = Boundary.GenerateResolved text ->
        let heard := match text with Some t => Js.trim t | None => [] end in
        if Js.truthy heard then
          Speech.speechText s' = heard
          /\ App.calls st'
             = (if App.serviceRef (App.session st) && App.seenStreamingReady v
                then App.calls st ++ [App.Interact heard]
                else App.calls st)
        else
          Speech.speechError s' = Some (Js.lit "We did not hear anything. Try again.")
          /\ App.calls st' = App.calls st).
Proof.
  cbv zeta. split; [repeat split|]. split.
  - intros H.
    assert (E : exists code msg,
               (code = 400 \/ code = 500)
               /\ Boundary.sttHandler model apiKey (Js.lit "POST")
                    (Routes.formOf contentType (Speech.recording s))
                  = Boundary.mkReply code None (Boundary.ErrorBody msg None)).
    { unfold Boundary.sttHandler. simpl (negb (Js.eqb _ _)). cbv iota.
      destruct (Boundary.keyPresent apiKey) eqn:K; simpl negb; cbv iota.
      - destruct H as [H|H]; [|discriminate].
        unfold Routes.formOf, Boundary.readMultipartAudio.
        cbn [fold_left Boundary.partData]. rewrite H. cbn [Boundary.cutAt].
        eexists _, _. split; [left; reflexivity | reflexivity].
      - eexists _, _. split; [right; reflexivity | reflexivity]. }
    destruct E as (code & msg & Hcode & ->).
    unfold Routes.asTranscribed. cbn [Boundary.status Boundary.body].
    destruct (onstopResumed_outcome v (Speech.SttResolved code (Some None))
                (Speech.onstop s) st) as (Hfail & _ & _).
    cbv zeta in Hfail.
    destruct Hfail as (He & _ & Hc).
    { right; left. exists code, (Some None). split; [reflexivity|].
      destruct Hcode as [-> | ->]; reflexivity. }
    split; [exact He|]. split; [exact Hc|].
    apply (onstopResumed_releases v (Speech.SttResolved code (Some None))
             (Speech.onstop s) st).
  - intros text Hne Hsize Hkey Hmodel.
    assert (E : Boundary.sttHandler model apiKey (Js.lit "POST")
                  (Routes.formOf contentType (Speech.recording s))
                = Boundary.mkReply 200 None (Boundary.TextBody (Boundary.transcriptOf text))).
    { unfold Boundary.sttHandler. simpl (negb (Js.eqb _ _)). cbv iota.
      rewrite Hkey. simpl negb. cbv iota.
      unfold Routes.formOf, Boundary.readMultipartAudio.
      cbn [fold_left Boundary.partData Boundary.partMime snd].
      rewrite cutAt_all by (unfold Boundary.fileSizeLimit; exact Hsize).
      unfold Routes.sentType in Hmodel.
      destruct (Odyssey.blobBytes (Speech.recording s)) as [|b rest] eqn:B;
        [now destruct Hne|].
      destruct (contentType (Routes.partType (Speech.recording s))) as [|c m] eqn:T;
        simpl in Hmodel; simpl; now rewrite Hmodel. }
    rewrite E. unfold Routes.asTranscribed. cbn [Boundary.status Boundary.body].
    destruct (onstopResumed_outcome v
                (Speech.SttResolved 200 (Some (Some (Boundary.transcriptOf text))))
                (Speech.onstop s) st) as (_ & Hblank & Htext).
    cbv zeta in Hblank, Htext.
    change (match text with Some t => Js.trim t | None => [] end)
      with (Boundary.transcriptOf text).
    destruct (Js.truthy (Boundary.transcriptOf text)) eqn:Tr.
    + assert (Hb : Js.blank (Boundary.transcriptOf text) = false).
      { rewrite <- transcriptOf_clean, truthy_trim in Tr.
        now apply negb_true_iff in Tr. }
      destruct (Htext 200 (Boundary.transcriptOf text) eq_refl eq_refl Hb)
        as (H1 & _ & H3).
      rewrite transcriptOf_clean in H1, H3. auto.
    + assert (Hb : Js.blank (Boundary.transcriptOf text) = true).
      { rewrite <- transcriptOf_clean, truthy_trim in Tr.
        now apply negb_false_iff in Tr. }
      destruct (Hblank 200 (Some (Boundary.transcriptOf text)) eq_refl eq_refl Hb)
        as (H1 & _ & H3). auto.
Qed.

Lemma recording_end_to_end_witness :
  let model := fun (_ : Js.str) (_ : list Byte.byte) =>
                 Boundary.GenerateResolved (Some (Js.lit " hi ")) in
  let s := Speech.mkState [] None true false (Some [7]) [] (Js.lit "audio/webm") [] in
  Speech.speechError
    (fst (Speech.onstopResumed streamingView
            (Routes.asTranscribed
               (Boundary.sttHandler model (Some (Js.lit "k")) (Js.lit "POST")
                  (Routes.formOf (fun x => x) (Speech.recording s))))
            (Speech.onstop s) streamingStore))
  = Some (Js.lit "Transcription failed. Try again.").
Proof.
  intros model s.
  apply (proj1 (proj2 (recording_end_to_end (fun x => x) model (Some (Js.lit "k"))
                         streamingView s streamingStore))).
  left. reflexivity.
Defined.

Lemma recording_chunk (d : list Byte.byte) (s : Speech.State) :
  Odyssey.blobBytes (Speech.recording (Speech.ondataavailable d s))
  = Odyssey.blobBytes (Speech.recording s) ++ d
  /\ Odyssey.blobType (Speech.recording (Speech.ondataavailable d s))
     = Odyssey.blobType (Speech.recording s).
Proof.
  destruct d as [|b d]; simpl; [now rewrite app_nil_r|].
  rewrite concat_app. simpl. now rewrite app_nil_r.
Qed.

(** X28. What a recording holds.  The blob posted for transcription is
    the concatenation, in order, of the data of all chunks the recorder
    delivered (chunks without data add nothing), typed with the
    recorder's MIME type or ['audio/webm']; so, starting from no
    chunks, it is empty exactly when no chunk carried data. *)
Theorem recording_is_the_chunks (chunks : list (list Byte.byte)) (s : Speech.State) :
  let s' := fold_left (fun s d => Speech.ondataavailable d s) chunks s in
  Odyssey.blobBytes (Speech.recording s')
  = Odyssey.blobBytes (Speech.recording s) ++ List.concat chunks
  /\ Odyssey.blobType (Speech.recording s') <> []
  /\ (Speech.audioChunksRef s = [] ->
      (Odyssey.blobBytes (Speech.recording s') = [] <-> forall d, In d chunks -> d = [])).
Proof.
  cbv zeta.
  assert (Hbytes : forall s0,
             Odyssey.blobBytes
               (Speech.recording (fold_left (fun s d => Speech.ondataavailable d s) chunks s0))
             = Odyssey.blobBytes (Speech.recording s0) ++ List.concat chunks).
  { induction chunks as [|d chunks IH]; intros s0; cbn [fold_left List.concat].
    - now rewrite app_nil_r.
    - rewrite IH, (proj1 (recording_chunk d s0)). now rewrite app_assoc. }
  split; [apply Hbytes|]. split.
  - unfold Speech.recording. simpl.
    destruct (Js.truthy _) eqn:T; [|discriminate].
    intros E. rewrite E in T. discriminate.
  - intros Hnone. rewrite Hbytes. unfold Speech.recording at 1. simpl.
    rewrite Hnone. simpl. clear Hbytes. split.
    + induction chunks as [|d chunks IH]; intros H x Hin; [contradiction|].
      simpl in H. apply app_eq_nil in H as [Hd Hrest].
      destruct Hin as [<-|Hin]; [exact Hd | now apply IH].
    + induction chunks as [|d chunks IH]; intros H; [reflexivity|].
      simpl. rewrite (H d (or_introl eq_refl)). simpl.
      apply IH. intros x Hin. apply H. now right.
Qed.

Lemma recording_is_the_chunks_witness :
  let s := Speech.mkState [] None true false (Some [7]) [] (Js.lit "audio/webm") [] in
  Odyssey.blobBytes
    (Speech.recording (fold_left (fun s d => Speech.ondataavailable d s) [[]; []] s))
  = [].
Proof.
  intros s.
  apply (proj2 (proj2 (recording_is_the_chunks [[]; []] s)) eq_refl).
  intros d [<-|[<-|[]]]; reflexivity.
Defined.

Lemma resume_not_ready (k : App.Run) (o : App.Settled) (st : App.Store) :
  App.isStreamingReady (App.session st) = false ->
  App.isStreamingReady (App.session (fst (App.resume k o st))) = false.
Proof.
  unfold App.resume, App.runRejected. intros H.
  destruct (App.phase k), o as [|fetched|[err|]]; simpl; try exact H.
  - destruct (Odyssey.loadImageFile fetched _) as [err|file]; simpl;
      destruct (negb (App.requestIdRef (App.session st) =? App.requestId k));
      simpl; first [exact H | reflexivity].
  - destruct (negb (App.requestIdRef (App.session st) =? App.requestId k));
      simpl; first [exact H | reflexivity].
Qed.

Lemma settle_not_ready (token : Z) (o : App.Settled) (runs : list App.Run)
  (st : App.Store) :
  App.isStreamingReady (App.session st) = false ->
  App.isStreamingReady (App.session (fst (SessionLoop.settle token o runs st))) = false.
Proof.
  intros H. induction runs as [|k rest IH]; simpl; [exact H|].
  destruct (App.requestId k =? token).
  - pose proof (resume_not_ready k o st H) as Hr.
    destruct (App.resume k o st) as [st' [k'|]]; exact Hr.
  - destruct (SessionLoop.settle token o rest st) as [st' rest']. exact IH.
Qed.

Lemma step_not_ready (w : SessionLoop.World) (e : SessionLoop.Event) :
  e <> SessionLoop.StreamStarted ->
  App.isStreamingReady (App.session (SessionLoop.store w)) = false ->
  App.isStreamingReady (App.session (SessionLoop.store (SessionLoop.step w e))) = false.
Proof.
  intros He H.
  destruct e as [sl|status| | |reason message|message|token o|v p|err];
    try (simpl; first [exact H | reflexivity]).
  - simpl. unfold App.slideEffect.
    destruct (negb (App.serviceRef (App.session (SessionLoop.store w)))
              || negb (ConnectionStatus.eqb
                         (App.connectionStatus (App.session (SessionLoop.store w)))
                         ConnectionStatus.connected)); simpl; [exact H | reflexivity].
  - now destruct He.
  - rewrite step_settle_store. now apply settle_not_ready.
  - simpl. destruct (handleInteract_frame v p (SessionLoop.store w)) as (_ & Hs & _).
    simpl in Hs. now rewrite Hs.
Qed.

Lemma handleInteract_not_ready (v : App.View) (p : Js.value) (st : App.Store) :
  App.seenStreamingReady v = false -> App.handleInteract v p st = App.Normal st.
Proof. intros H. unfold App.handleInteract. rewrite H. now rewrite orb_true_r. Qed.

(** X29. After a slide change nothing is dispatched until the stream
    has started.  On a connected session a slide change turns the
    streaming-ready flag off, and it stays off through every series of
    events that has no stream-started callback in it (settlements of
    runs with any outcome, status changes, stream errors, further slide
    changes); all that time the handlers of the latest render forward
    nothing. *)
Theorem not_ready_until_started
  (w : SessionLoop.World) (sl : App.Slide) (es : list SessionLoop.Event) :
  App.serviceRef (App.session (SessionLoop.store w)) = true ->
  App.connectionStatus (App.session (SessionLoop.store w)) = ConnectionStatus.connected ->
  (forall e, In e es -> e <> SessionLoop.StreamStarted) ->
  let st := SessionLoop.store
              (SessionLoop.run (SessionLoop.step w (SessionLoop.Navigate sl)) es) in
  App.isStreamingReady (App.session st) = false
  /\ forall sl' p, App.handleInteract (App.viewOf sl' st) p st = App.Normal st.
Proof.
  intros Hsvc Hconn Hes.
  assert (H0 : App.isStreamingReady
                 (App.session (SessionLoop.store (SessionLoop.step w (SessionLoop.Navigate sl))))
               = false).
  { simpl. unfold App.slideEffect. rewrite Hsvc, Hconn. reflexivity. }
  assert (Hinv : App.isStreamingReady
                   (App.session
                      (SessionLoop.store
                         (SessionLoop.run (SessionLoop.step w (SessionLoop.Navigate sl)) es)))
                 = false).
  { revert H0 Hes. generalize (SessionLoop.step w (SessionLoop.Navigate sl)).
    induction es as [|e es IH]; intros w0 H0 Hes; simpl; [exact H0|].
    apply IH.
    - apply step_not_ready; [apply Hes; now left | exact H0].
    - intros x Hx. apply Hes. now right. }
  cbv zeta. split; [exact Hinv|].
  intros sl' p. apply handleInteract_not_ready. exact Hinv.
Qed.

Lemma not_ready_until_started_witness :
  let image := Odyssey.FetchResolved
                 (Odyssey.mkHttpResponse 200 (Js.lit "OK")
                    (inr (Odyssey.mkBlob [Byte.x89] (Js.lit "image/png")))) in
  let es := [SessionLoop.Settle 2 App.EndStreamSettled;
             SessionLoop.Settle 2 (App.ImageSettled image)] in
  App.isStreamingReady
    (App.session
       (SessionLoop.store
          (SessionLoop.run
             (SessionLoop.step (SessionLoop.mkWorld streamingStore [])
                               (SessionLoop.Navigate demoSlide2)) es)))
  = false.
Proof.
  intros image es.
  apply (proj1 (not_ready_until_started (SessionLoop.mkWorld streamingStore [])
                  demoSlide2 es eq_refl eq_refl
                  ltac:(intros e [<-|[<-|[]]]; discriminate))).
Defined.

(* ------------------------------------------------------------------ *)
(** ** Classification results outside the closed set *)





